(** * zkcertificates: commitments, Merkle accumulator, threshold circuit, proof service

    A shallow embedding of the cryptographic core of the repository:

    - [CertificateUtils] (src/utils/CertificateUtils.js),
    - [ZKProofService]   (src/unnamed/part_002),
    - [MerkleService]    (src/unnamed/part_003),
    - the circom templates of src/circuits/certificate.circom,
    - [CertificateRegistry] (src/contracts/CertificateRegistry.sol),

    together with the fragments of their runtime they call into: JavaScript
    values, exceptions and strings ([Js]), node's Buffer ([Buffer]), the
    merkletreejs package ([MerkleTreeJs]) and circomlib's comparators and
    gates ([Circomlib]).  Cryptographic primitives (SHA-256, Poseidon, the
    Groth16 verifier) are section variables: every theorem holds for whatever
    function is put in their place. *)

From Stdlib Require Import ZArith List String Ascii Bool Lia.
From Stdlib Require Import Strings.Byte DecimalString DecimalZ DecimalPos.
Import ListNotations.

Local Open Scope string_scope.
Local Open Scope list_scope.

(* ================================================================== *)
(** ** JavaScript runtime fragment *)
(* ================================================================== *)

Module Js.

(** Exceptions, by constructor of the thrown object. *)
Inductive error : Type :=
| TypeError (msg : string)
| SyntaxError (msg : string)
| Error (msg : string).

(** The completion of an expression: a value, or a thrown exception. *)
Inductive completion (A : Type) : Type :=
| Return (a : A)
| Throw (e : error).

Arguments Return {A} a.
Arguments Throw {A} e.

Definition bind {A B : Type} (c : completion A) (k : A -> completion B)
  : completion B :=
  match c with
  | Return a => k a
  | Throw e => Throw e
  end.

(** [try { body } catch (error) { handler }]. *)
Definition try_catch {A : Type} (body : completion A)
  (handler : error -> completion A) : completion A :=
  match body with
  | Return a => Return a
  | Throw e => handler e
  end.

(** [xs.map(f)] where [f] may throw: elements are visited left to right and
    the first exception aborts the traversal. *)
Fixpoint mapM {A B : Type} (f : A -> completion B) (xs : list A)
  : completion (list B) :=
  match xs with
  | [] => Return []
  | x :: rest =>
      bind (f x) (fun y => bind (mapM f rest) (fun ys => Return (y :: ys)))
  end.

(** JSON-shaped values: what a request body, a parsed file or an object
    literal of the services can hold. *)
#[warnings="-register-all"]
Inductive value : Type :=
| VUndefined
| VNull
| VBool (b : bool)
| VNum (n : Z)
| VStr (s : string)
| VArr (elems : list value)
| VObj (fields : list (string * value)).

Fixpoint assoc (k : string) (fields : list (string * value)) : value :=
  match fields with
  | [] => VUndefined
  | (k', v) :: rest => if String.eqb k k' then v else assoc k rest
  end.

(** Decimal spelling of an array index, as a property key. *)
Definition index_key (i : nat) : string :=
  NilZero.string_of_uint (Nat.to_uint i).

(** [v.name]: reading a property of [undefined] or [null] throws; a missing
    property reads as [undefined].  None of the names read by the services
    ([a], [b], [c], [pi_a], [pi_b], [pi_c]) is a built-in property of a
    primitive, a string or an array. *)
Definition get (v : value) (name : string) : completion value :=
  match v with
  | VUndefined | VNull =>
      Throw (TypeError "Cannot read properties of undefined or null")
  | VObj fields => Return (assoc name fields)
  | _ => Return VUndefined
  end.

(** [v[i]] for a numeric literal [i]. *)
Definition get_index (v : value) (i : nat) : completion value :=
  match v with
  | VUndefined | VNull =>
      Throw (TypeError "Cannot read properties of undefined or null")
  | VArr elems => Return (nth i elems VUndefined)
  | VStr s =>
      Return (match String.get i s with
              | Some c => VStr (String c EmptyString)
              | None => VUndefined
              end)
  | VObj fields => Return (assoc (index_key i) fields)
  | _ => Return VUndefined
  end.

(** [s.replace(pat, by)] with a string pattern: the first occurrence only. *)
Fixpoint replace_first (pat by_ s : string) : string :=
  if String.prefix pat s
  then (by_ ++ String.substring (String.length pat)
                                (String.length s - String.length pat) s)%string
  else match s with
       | EmptyString => EmptyString
       | String c rest => String c (replace_first pat by_ rest)
       end.

(** [v.replace(pat, by)] on an arbitrary value: only strings have the method. *)
Definition call_replace (v : value) (pat by_ : string) : completion string :=
  match v with
  | VStr s => Return (replace_first pat by_ s)
  | VUndefined | VNull =>
      Throw (TypeError "Cannot read properties of undefined or null")
  | _ => Throw (TypeError "replace is not a function")
  end.

(** [xs.join(sep)] on an array of strings. *)
Fixpoint join (sep : string) (xs : list string) : string :=
  match xs with
  | [] => EmptyString
  | [x] => x
  | x :: rest => (x ++ sep ++ join sep rest)%string
  end.

(** [String(n)] for an integral number, [n.toString()] for a BigInt. *)
Definition Z_toString (n : Z) : string :=
  NilZero.string_of_int (Z.to_int n).

(** Reading a decimal numeral back. *)
Definition parse_decimal (s : string) : option Z :=
  option_map Z.of_int (NilZero.int_of_string s).

(** Value of a hex digit, either case. *)
Definition hex_digit_value (c : ascii) : option Z :=
  let n := Z.of_N (N_of_ascii c) in
  (if (48 <=? n) && (n <=? 57) then Some (n - 48)
   else if (97 <=? n) && (n <=? 102) then Some (n - 87)
   else if (65 <=? n) && (n <=? 70) then Some (n - 55)
   else None)%Z.

Fixpoint hex_digits_value (digits : string) (acc : Z) : option Z :=
  match digits with
  | EmptyString => Some acc
  | String c rest =>
      match hex_digit_value c with
      | Some d => hex_digits_value rest (16 * acc + d)%Z
      | None => None
      end
  end.

(** [BigInt(s)] for a string: a [0x] literal needs at least one hex digit
    and nothing but hex digits; a plain literal is an optionally signed
    decimal numeral.  Anything else is a SyntaxError (white space and the
    binary and octal prefixes, which the services never produce, are not
    modelled). *)
Definition BigInt (s : string) : completion Z :=
  match s with
  | String "0" (String "x" digits) | String "0" (String "X" digits) =>
      match digits with
      | EmptyString => Throw (SyntaxError "Cannot convert 0x to a BigInt")
      | _ =>
          match hex_digits_value digits 0 with
          | Some n => Return n
          | None => Throw (SyntaxError "Cannot convert to a BigInt")
          end
      end
  | EmptyString => Return 0%Z
  | _ =>
      match parse_decimal s with
      | Some n => Return n
      | None => Throw (SyntaxError "Cannot convert to a BigInt")
      end
  end.

(** [error.message]. *)
Definition message (e : error) : string :=
  match e with
  | TypeError msg | SyntaxError msg | Error msg => msg
  end.

(** [ToBoolean]: what [!v], [v && ...] and [v ? ... : ...] test. *)
Definition truthy (v : value) : bool :=
  match v with
  | VUndefined | VNull => false
  | VBool b => b
  | VNum n => negb (n =? 0)%Z
  | VStr s => negb (String.eqb s "")
  | VArr _ | VObj _ => true
  end.

(** [a && b]: [a] itself when it is falsy, the value of [b] otherwise; [b]
    is evaluated in the second case only.  [and_chain a [b; c; ...]] is
    [a && b && c && ...]. *)
Fixpoint and_chain (first : value) (rest : list (completion value))
  : completion value :=
  match rest with
  | [] => Return first
  | next :: rest' =>
      if truthy first
      then bind next (fun v => and_chain v rest')
      else Return first
  end.

Definition Array_isArray (v : value) : bool :=
  match v with
  | VArr _ => true
  | _ => false
  end.

(** [typeof v === 'string']. *)
Definition is_string (v : value) : bool :=
  match v with
  | VStr _ => true
  | _ => false
  end.

(** [v.length]: arrays and strings (of ASCII characters) have one. *)
Definition get_length (v : value) : completion value :=
  match v with
  | VUndefined | VNull =>
      Throw (TypeError "Cannot read properties of undefined or null")
  | VArr elems => Return (VNum (Z.of_nat (List.length elems)))
  | VStr s => Return (VNum (Z.of_nat (String.length s)))
  | VObj fields => Return (assoc "length" fields)
  | _ => Return VUndefined
  end.

(** [v === n] for a number literal [n]. *)
Definition strict_equals_num (v : value) (n : Z) : bool :=
  match v with
  | VNum m => (m =? n)%Z
  | _ => false
  end.

(** [xs.every(f)] on the elements of an array: left to right, stopping at
    the first element [f] rejects. *)
Fixpoint everyM {A : Type} (f : A -> completion bool) (xs : list A)
  : completion bool :=
  match xs with
  | [] => Return true
  | x :: rest => bind (f x) (fun b => if b then everyM f rest else Return false)
  end.

(** [v.every(f)] on an arbitrary value: only arrays have the method. *)
Definition call_every (v : value) (f : value -> completion bool)
  : completion bool :=
  match v with
  | VArr elems => everyM f elems
  | VUndefined | VNull =>
      Throw (TypeError "Cannot read properties of undefined or null")
  | _ => Throw (TypeError "every is not a function")
  end.

End Js.

Import Js.

Declare Scope js_scope.
Delimit Scope js_scope with js.
Notation "x <- c ;; k" := (bind c (fun x => k))
  (at level 61, c at next level, right associativity) : js_scope.

Local Open Scope js_scope.

(* ================================================================== *)
(** ** node's Buffer: byte sequences and their hex encoding *)
(* ================================================================== *)

Module Buffer.

Definition t : Type := list byte.

Definition hex_digit (n : N) : ascii :=
  match n with
  | 0 => "0" | 1 => "1" | 2 => "2" | 3 => "3" | 4 => "4" | 5 => "5"
  | 6 => "6" | 7 => "7" | 8 => "8" | 9 => "9" | 10 => "a" | 11 => "b"
  | 12 => "c" | 13 => "d" | 14 => "e" | _ => "f"
  end%N%char.

(** Value of a hex digit, either case; [None] for any other character. *)
Definition unhex (c : ascii) : option N :=
  let n := N_of_ascii c in
  (if (48 <=? n) && (n <=? 57) then Some (n - 48)
   else if (97 <=? n) && (n <=? 102) then Some (n - 87)
   else if (65 <=? n) && (n <=? 70) then Some (n - 55)
   else None)%N.

Definition byte_toString_hex (b : byte) : string :=
  String (hex_digit (Byte.to_N b / 16)%N)
    (String (hex_digit (Byte.to_N b mod 16)%N) EmptyString).

(** [buf.toString('hex')]: two lower-case digits per byte. *)
Fixpoint toString_hex (buf : t) : string :=
  match buf with
  | [] => EmptyString
  | b :: rest => (byte_toString_hex b ++ toString_hex rest)%string
  end.

(** [Buffer.from(s, 'hex')]: pairs of hex digits are decoded until the first
    pair that is not one; a trailing single character is dropped. *)
Fixpoint from_hex (s : string) : t :=
  match s with
  | String a (String b rest) =>
      match unhex a, unhex b with
      | Some hi, Some lo =>
          byte_of_ascii (ascii_of_N (16 * hi + lo)%N) :: from_hex rest
      | _, _ => []
      end
  | _ => []
  end.

(** [Buffer.compare(a, b)]: unsigned lexicographic order, a proper prefix
    first. *)
Fixpoint compare (a b : t) : comparison :=
  match a, b with
  | [], [] => Eq
  | [], _ :: _ => Lt
  | _ :: _, [] => Gt
  | x :: a', y :: b' =>
      match N.compare (Byte.to_N x) (Byte.to_N y) with
      | Eq => compare a' b'
      | c => c
      end
  end.

(** [Buffer.compare(a, b) === 0]. *)
Definition equals (a b : t) : bool :=
  match compare a b with Eq => true | _ => false end.

(** Every character is a lower-case hex digit. *)
Fixpoint is_lower_hex (s : string) : bool :=
  match s with
  | EmptyString => true
  | String c rest =>
      let n := N_of_ascii c in
      (((48 <=? n) && (n <=? 57)) || ((97 <=? n) && (n <=? 102)))%N
      && is_lower_hex rest
  end.

End Buffer.

(* ================================================================== *)
(** ** The merkletreejs package, as MerkleService uses it *)
(* ================================================================== *)

(** [MerkleTree] of merkletreejs (required on line 1 of MerkleService): the
    constructor with its [_createHashes] loop, [getRoot], [getProof] and
    [verify].  Of the constructor's options, the three that MerkleService
    sets are modelled; [isBitcoinTree], [sortLeaves], [sort] and
    [fillDefaultHash] are never set by this repository and stay false. *)
Module MerkleTreeJs.

Record Options : Type := {
  hashLeaves : bool;
  sortPairs : bool;
  duplicateOdd : bool
}.

(** [{}]: every flag is [!!undefined]. *)
Definition no_options : Options :=
  {| hashLeaves := false; sortPairs := false; duplicateOdd := false |}.

Inductive Position : Type := left | right.

(** An element of the array [getProof] returns. *)
Record ProofNode : Type := {
  position : Position;
  data : Buffer.t
}.

Record MerkleTree : Type := {
  leaves : list Buffer.t;
  layers : list (list Buffer.t);
  options : Options
}.

Section WithHash.

(** The constructor's second argument, after [bufferifyFn]: called on the
    concatenation of a pair, it returns the parent hash or throws. *)
Variable hashFn : Buffer.t -> completion Buffer.t.

(** One parent: [combined = [left, right]], sorted by [Buffer.compare] when
    [sortPairs] is set, concatenated and hashed. *)
Definition hash_pair (o : Options) (l r : Buffer.t) : completion Buffer.t :=
  hashFn (if sortPairs o
          then match Buffer.compare l r with
               | Gt => r ++ l
               | _ => l ++ r
               end
          else l ++ r).

(** The body of the [for (i = 0; i < nodes.length; i += 2)] loop of
    [_createHashes]: the layer above [nodes].  A last node without a
    partner is paired with itself under [duplicateOdd] and promoted
    unchanged otherwise. *)
Fixpoint next_layer (o : Options) (nodes : list Buffer.t)
  : completion (list Buffer.t) :=
  match nodes with
  | [] => Return []
  | [last] =>
      if duplicateOdd o
      then h <- hash_pair o last last ;; Return [h]
      else Return [last]
  | l :: r :: rest =>
      h <- hash_pair o l r ;;
      above <- next_layer o rest ;;
      Return (h :: above)
  end.

(** [_createHashes]: [while (nodes.length > 1)], pushing one layer per turn.
    [fuel] bounds the number of turns; [createHashes_fuel] shows that the
    number of nodes is enough. *)
Fixpoint createHashes (fuel : nat) (o : Options) (nodes : list Buffer.t)
  : completion (list (list Buffer.t)) :=
  match fuel with
  | O => Return []
  | S fuel' =>
      if (List.length nodes <=? 1)%nat then Return []
      else
        layer <- next_layer o nodes ;;
        above <- createHashes fuel' o layer ;;
        Return (layer :: above)
  end.

(** [new MerkleTree(leaves, hashFn, options)]. *)
Definition new_MerkleTree (lvs : list Buffer.t) (o : Options)
  : completion MerkleTree :=
  lvs' <- (if hashLeaves o then mapM hashFn lvs else Return lvs) ;;
  above <- createHashes (List.length lvs') o lvs' ;;
  Return {| leaves := lvs'; layers := lvs' :: above; options := o |}.

(** [tree.verify(proof, targetNode, root)] for a tree that is not a Bitcoin
    tree and proof elements that are [{position, data}] objects. *)
Fixpoint verify_loop (o : Options) (proof : list ProofNode) (hash : Buffer.t)
  : completion Buffer.t :=
  match proof with
  | [] => Return hash
  | node :: rest =>
      let isLeftNode :=
        match position node with left => true | right => false end in
      hash' <-
        (if sortPairs o
         then match Buffer.compare hash (data node) with
              | Lt => hashFn (hash ++ data node)
              | _ => hashFn (data node ++ hash)
              end
         else if isLeftNode
              then hashFn (data node ++ hash)
              else hashFn (hash ++ data node)) ;;
      verify_loop o rest hash'
  end.

Definition verify (tree : MerkleTree) (proof : list ProofNode)
  (targetNode root : Buffer.t) : completion bool :=
  hash <- verify_loop (options tree) proof targetNode ;;
  Return (Buffer.equals hash root).

(** The static [MerkleTree.verify(proof, targetNode, root, hashFn, options)]:
    it builds a tree without leaves and asks it. *)
Definition MerkleTree_verify (proof : list ProofNode)
  (targetNode root : Buffer.t) (o : Options) : completion bool :=
  tree <- new_MerkleTree [] o ;;
  verify tree proof targetNode root.

End WithHash.

Definition getLeaves (tree : MerkleTree) : list Buffer.t := leaves tree.

Definition getLayers (tree : MerkleTree) : list (list Buffer.t) := layers tree.

(** [getRoot]: the first node of the last layer, the empty buffer when there
    is none. *)
Definition getRoot (tree : MerkleTree) : Buffer.t :=
  match last (layers tree) [] with
  | [] => []
  | top :: _ => top
  end.

(** The index search of [getProof]: the loop has no [break], so the last
    leaf equal to the target wins; [None] is the initial [-1]. *)
Fixpoint find_leaf (leaf : Buffer.t) (lvs : list Buffer.t) (i : nat)
  (found : option nat) : option nat :=
  match lvs with
  | [] => found
  | x :: rest =>
      find_leaf leaf rest (S i)
        (if Buffer.equals leaf x then Some i else found)
  end.

(** The [for] loop of [getProof] over the layers: the sibling of [index] is
    pushed when it exists ([pairIndex < layer.length]), and [index] moves to
    the parent. *)
Fixpoint proof_loop (lys : list (list Buffer.t)) (index : nat)
  : list ProofNode :=
  match lys with
  | [] => []
  | layer :: rest =>
      let isRightNode := Nat.odd index in
      let pairIndex := if isRightNode then index - 1 else index + 1 in
      match nth_error layer pairIndex with
      | Some sibling =>
          {| position := if isRightNode then left else right;
             data := sibling |} :: proof_loop rest (index / 2)
      | None => proof_loop rest (index / 2)
      end
  end.

Definition getProof (tree : MerkleTree) (leaf : Buffer.t) : list ProofNode :=
  match find_leaf leaf (leaves tree) 0 None with
  | None => []
  | Some index => proof_loop (layers tree) index
  end.

(** Consecutive layers: each has ceil(n/2) nodes for the n below it. *)
Fixpoint halving (lys : list (list Buffer.t)) : Prop :=
  match lys with
  | [] => True
  | layer :: rest =>
      match rest with
      | [] => True
      | above :: _ =>
          List.length above = Nat.div2 (S (List.length layer))
      end /\ halving rest
  end.

End MerkleTreeJs.

(* ================================================================== *)
(** ** node's crypto module *)
(* ================================================================== *)

Module Crypto.

(** [crypto.createHash(algorithm)] when merkletreejs calls it as
    [hashFn(data)]: the Buffer lands in the [algorithm] parameter, which must
    be a string, and node throws [ERR_INVALID_ARG_TYPE]. *)
Definition createHash (algorithm : Buffer.t) : completion Buffer.t :=
  Throw (TypeError "The algorithm argument must be of type string").

End Crypto.

(* ================================================================== *)
(** ** MerkleService (src/unnamed/part_003) *)
(* ================================================================== *)

Module MerkleService.

Import MerkleTreeJs.

(** A certificate object, with the properties MerkleService reads.
    [commitment] is [None] when the property is missing. *)
Record Certificate : Type := {
  studentId : string;
  commitment : option string;
  subjects : list Z
}.

Record ExportedCertificate : Type := {
  exported_studentId : string;
  exported_commitment : string;
  exported_proof : list value
}.

Record Metadata : Type := {
  totalCertificates : nat;
  createdAt : string;
  version : string
}.

(** The object [exportTreeData] returns and [importTreeData] reads.
    [leaves] is [None] when the property is missing or is not an array. *)
Record TreeData : Type := {
  merkleRoot : string;
  leaves : option (list string);
  certificates : list ExportedCertificate;
  metadata : Metadata
}.

Record TreeStats : Type := {
  totalLeaves : nat;
  treeDepth : nat;
  stats_merkleRoot : string;
  totalNodes : nat
}.

(** The options object of every [new MerkleTree] in the service. *)
Definition tree_options : Options :=
  {| hashLeaves := false; sortPairs := true; duplicateOdd := true |}.

Definition position_name (p : Position) : string :=
  match p with left => "left" | right => "right" end.

Section WithCreateHash.

(** [crypto.createHash], the function the service hands to merkletreejs as
    its hash function.  What it does when called on a Buffer is left open
    here; [Crypto.createHash] is node's answer. *)
Variable createHash : Buffer.t -> completion Buffer.t.

Definition buildMerkleTree (certs : list Certificate) : completion MerkleTree :=
  if (List.length certs =? 0)%nat
  then Throw (Error "Cannot build Merkle tree from empty certificates array")
  else
    lvs <- mapM (fun cert =>
              match commitment cert with
              | None | Some EmptyString =>
                  Throw (Error "Certificate missing commitment hash")
              | Some c => Return (Buffer.from_hex c)
              end) certs ;;
    new_MerkleTree createHash lvs tree_options.

Definition generateMerkleProof (merkleTree : MerkleTree)
  (commitmentHash : string) : list value :=
  let leaf := Buffer.from_hex commitmentHash in
  let proof := getProof merkleTree leaf in
  map (fun element =>
         VObj [("data", VStr (Buffer.toString_hex (data element)));
               ("position", VStr (position_name (position element)))])
      proof.

(** The [try] block of [verifyProof]. *)
Definition verifyProof_try (commitmentHash : string) (proof : list value)
  (merkleRoot : string) : completion bool :=
  let leaf := Buffer.from_hex commitmentHash in
  let root := Buffer.from_hex (replace_first "0x" "" merkleRoot) in
  proofElements <-
    mapM (fun element =>
            s <- call_replace element "0x" "" ;;
            Return {| data := Buffer.from_hex s; position := left |})
         proof ;;
  MerkleTree_verify createHash proofElements leaf root no_options.

Definition verifyProof (commitmentHash : string) (proof : list value)
  (merkleRoot : string) : completion bool :=
  try_catch (verifyProof_try commitmentHash proof merkleRoot)
            (fun _ => Return false).

Definition getTreeStats (merkleTree : MerkleTree) : TreeStats :=
  let lvs := getLeaves merkleTree in
  let lys := getLayers merkleTree in
  {| totalLeaves := List.length lvs;
     treeDepth := List.length lys - 1;
     stats_merkleRoot := Buffer.toString_hex (getRoot merkleTree);
     totalNodes := fold_left (fun sum layer => sum + List.length layer) lys 0 |}.

Definition addCertificatesToTree (existingTree : MerkleTree)
  (newCertificates : list Certificate) : completion MerkleTree :=
  let existingLeaves := getLeaves existingTree in
  newLeaves <-
    mapM (fun cert =>
            match commitment cert with
            | None =>
                Throw (TypeError "The first argument must be of type string")
            | Some c => Return (Buffer.from_hex c)
            end) newCertificates ;;
  new_MerkleTree createHash (existingLeaves ++ newLeaves) tree_options.

(** [exportTreeData]; [now] is [new Date().toISOString()].  A certificate
    without a [commitment] makes [Buffer.from] throw. *)
Definition exportTreeData (merkleTree : MerkleTree) (certs : list Certificate)
  (now : string) : completion TreeData :=
  exported <-
    mapM (fun cert =>
            match commitment cert with
            | None =>
                Throw (TypeError "The first argument must be of type string")
            | Some c =>
                Return {| exported_studentId := studentId cert;
                          exported_commitment := c;
                          exported_proof := generateMerkleProof merkleTree c |}
            end) certs ;;
  Return {| merkleRoot := Buffer.toString_hex (getRoot merkleTree);
            leaves := Some (map Buffer.toString_hex (getLeaves merkleTree));
            certificates := exported;
            metadata := {| totalCertificates := List.length certs;
                           createdAt := now;
                           version := "1.0.0" |} |}.

Definition importTreeData (treeData : TreeData) : completion MerkleTree :=
  match leaves treeData with
  | None => Throw (Error "Invalid tree data: missing or invalid leaves")
  | Some leafHexes =>
      let lvs := map Buffer.from_hex leafHexes in
      reconstructedTree <- new_MerkleTree createHash lvs tree_options ;;
      let reconstructedRoot := Buffer.toString_hex (getRoot reconstructedTree) in
      if negb (String.eqb reconstructedRoot (merkleRoot treeData))
      then Throw (Error "Tree reconstruction failed: root mismatch")
      else Return reconstructedTree
  end.

End WithCreateHash.

End MerkleService.

(* ================================================================== *)
(** ** CertificateUtils (src/utils/CertificateUtils.js) *)
(* ================================================================== *)

(** The modulus both [stringToFieldElement] functions spell out: the order
    of the scalar field of BN254. *)
Definition BN254_modulus : Z :=
  21888242871839275222246405745257275088548364400416034343698204186575808495617.

(** The conjuncts of both [validateProofFormat] functions:
    [Array.isArray(proof.name)], [proof.name.length === 2], the same for
    [proof.b[i]], and [proof.name.every(x => typeof x === 'string')]. *)
Definition isArray_at (proof : value) (name : string) : completion value :=
  x <- get proof name ;; Return (VBool (Array_isArray x)).

Definition length_2_at (proof : value) (name : string) : completion value :=
  x <- get proof name ;; n <- get_length x ;;
  Return (VBool (strict_equals_num n 2)).

Definition isArray_row (proof : value) (i : nat) : completion value :=
  b <- get proof "b" ;; row <- get_index b i ;;
  Return (VBool (Array_isArray row)).

Definition length_2_row (proof : value) (i : nat) : completion value :=
  b <- get proof "b" ;; row <- get_index b i ;; n <- get_length row ;;
  Return (VBool (strict_equals_num n 2)).

Definition every_string_at (proof : value) (name : string)
  : completion value :=
  x <- get proof name ;;
  ok <- call_every x (fun x => Return (is_string x)) ;;
  Return (VBool ok).

Definition every_row_of_strings (proof : value) : completion value :=
  b <- get proof "b" ;;
  ok <- call_every b
          (fun row => call_every row (fun x => Return (is_string x))) ;;
  Return (VBool ok).

Module CertificateUtils.

(** The student object, with the properties the commitment reads; grades
    are integral numbers. *)
Record StudentData : Type := {
  studentId : string;
  subjects : list Z
}.

Section WithSha256.

(** [crypto.createHash('sha256').update(data).digest()]. *)
Variable sha256 : string -> Buffer.t.

Definition hashStudentData (studentData : StudentData) (salt : string)
  : completion string :=
  let dataString :=
    join "|" ([studentId studentData; salt]
              ++ map Z_toString (subjects studentData)) in
  Return (Buffer.toString_hex (sha256 dataString)).

Definition stringToFieldElement (str : string) : completion string :=
  let hash := Buffer.toString_hex (sha256 str) in
  let fieldModulus := BN254_modulus in
  n <- BigInt ("0x" ++ hash)%string ;;
  let element := Z.rem n fieldModulus in
  Return (Z_toString element).

End WithSha256.

Definition formatProofForContract (proof : value) : completion value :=
  pi_a <- get proof "pi_a" ;; a0 <- get_index pi_a 0 ;;
  pi_a <- get proof "pi_a" ;; a1 <- get_index pi_a 1 ;;
  pi_b <- get proof "pi_b" ;; row <- get_index pi_b 0 ;; b01 <- get_index row 1 ;;
  pi_b <- get proof "pi_b" ;; row <- get_index pi_b 0 ;; b00 <- get_index row 0 ;;
  pi_b <- get proof "pi_b" ;; row <- get_index pi_b 1 ;; b11 <- get_index row 1 ;;
  pi_b <- get proof "pi_b" ;; row <- get_index pi_b 1 ;; b10 <- get_index row 0 ;;
  pi_c <- get proof "pi_c" ;; c0 <- get_index pi_c 0 ;;
  pi_c <- get proof "pi_c" ;; c1 <- get_index pi_c 1 ;;
  Return (VObj [("a", VArr [a0; a1]);
                ("b", VArr [VArr [b01; b00]; VArr [b11; b10]]);
                ("c", VArr [c0; c1])]).

Section BatchId.

Variable sha256 : string -> Buffer.t.

(** [timestamp] is an integral number below 10^21, which the template
    literal prints as its decimal numeral; the default argument
    [Date.now()] is one. *)
Definition generateBatchId (institutionName : string) (timestamp : Z)
  : string :=
  let hash :=
    Buffer.toString_hex
      (sha256 (institutionName ++ "-" ++ Z_toString timestamp)%string) in
  String.substring 0 16 hash.

End BatchId.

(** One character of the class [[a-fA-F0-9]]. *)
Definition is_hex_digit (c : ascii) : bool :=
  match Buffer.unhex c with
  | Some _ => true
  | None => false
  end.

(** [[a-fA-F0-9]{n}$]: [n] hex digits, then the end of the input. *)
Fixpoint hex_digits_to_end (n : nat) (s : string) : bool :=
  match n, s with
  | O, EmptyString => true
  | S n', String c rest => is_hex_digit c && hex_digits_to_end n' rest
  | _, _ => false
  end.

(** [/^0x[a-fA-F0-9]{40}$/.test(address)] for a string [address]. *)
Definition isValidEthereumAddress (address : string) : bool :=
  match address with
  | String "0" (String "x" digits) => hex_digits_to_end 40 digits
  | _ => false
  end.

(** [validateProofFormat]: one [&&] chain, without a [try]. *)
Definition validateProofFormat (proof : value) : completion value :=
  and_chain proof
    [isArray_at proof "a"; length_2_at proof "a";
     isArray_at proof "b"; length_2_at proof "b";
     isArray_at proof "c"; length_2_at proof "c";
     isArray_row proof 0; length_2_row proof 0;
     isArray_row proof 1; length_2_row proof 1;
     every_string_at proof "a";
     every_row_of_strings proof;
     every_string_at proof "c"].

End CertificateUtils.

(* ================================================================== *)
(** ** ZKProofService (src/unnamed/part_002) *)
(* ================================================================== *)

Module ZKProofService.

(** The object handed to [generateProof], [prepareCircuitInputs] and
    [calculateCommitment]. *)
Record Input : Type := {
  studentId : string;
  subjects : list Z;
  salt : string;
  minPassingGrade : Z;
  requireAllPassed : bool
}.

(** What [prepareCircuitInputs] returns: the signals of the circuit. *)
Record CircuitInputs : Type := {
  circuit_studentId : string;
  circuit_subjects : list Z;
  circuit_salt : string;
  circuit_minPassingGrade : Z;
  circuit_requireAllPassed : Z
}.

Definition formatProofForSolidity (proof : value) : completion value :=
  pi_a <- get proof "pi_a" ;; a0 <- get_index pi_a 0 ;;
  pi_a <- get proof "pi_a" ;; a1 <- get_index pi_a 1 ;;
  pi_b <- get proof "pi_b" ;; row <- get_index pi_b 0 ;; b01 <- get_index row 1 ;;
  pi_b <- get proof "pi_b" ;; row <- get_index pi_b 0 ;; b00 <- get_index row 0 ;;
  pi_b <- get proof "pi_b" ;; row <- get_index pi_b 1 ;; b11 <- get_index row 1 ;;
  pi_b <- get proof "pi_b" ;; row <- get_index pi_b 1 ;; b10 <- get_index row 0 ;;
  pi_c <- get proof "pi_c" ;; c0 <- get_index pi_c 0 ;;
  pi_c <- get proof "pi_c" ;; c1 <- get_index pi_c 1 ;;
  Return (VObj [("a", VArr [a0; a1]);
                ("b", VArr [VArr [b01; b00]; VArr [b11; b10]]);
                ("c", VArr [c0; c1])]).

Definition formatProofFromSolidity (solidityProof : value) : completion value :=
  a <- get solidityProof "a" ;; a0 <- get_index a 0 ;;
  a <- get solidityProof "a" ;; a1 <- get_index a 1 ;;
  b <- get solidityProof "b" ;; row <- get_index b 0 ;; b01 <- get_index row 1 ;;
  b <- get solidityProof "b" ;; row <- get_index b 0 ;; b00 <- get_index row 0 ;;
  b <- get solidityProof "b" ;; row <- get_index b 1 ;; b11 <- get_index row 1 ;;
  b <- get solidityProof "b" ;; row <- get_index b 1 ;; b10 <- get_index row 0 ;;
  c <- get solidityProof "c" ;; c0 <- get_index c 0 ;;
  c <- get solidityProof "c" ;; c1 <- get_index c 1 ;;
  Return (VObj [("pi_a", VArr [a0; a1; VStr "1"]);
                ("pi_b", VArr [VArr [b01; b00]; VArr [b11; b10];
                               VArr [VStr "1"; VStr "0"]]);
                ("pi_c", VArr [c0; c1; VStr "1"]);
                ("protocol", VStr "groth16")]).

Section WithSha256.

Variable sha256 : string -> Buffer.t.

Definition calculateCommitment (input : Input) : completion string :=
  let commitmentData :=
    join "|" ([studentId input; salt input]
              ++ map Z_toString (subjects input)) in
  Return (Buffer.toString_hex (sha256 commitmentData)).

Definition stringToFieldElement (str : string) : completion string :=
  let hash := Buffer.toString_hex (sha256 str) in
  n <- BigInt ("0x" ++ hash)%string ;;
  let fieldElement := Z.rem n BN254_modulus in
  Return (Z_toString fieldElement).

Definition prepareCircuitInputs (rawInput : Input) : completion CircuitInputs :=
  commitment <- calculateCommitment rawInput ;;
  sid <- stringToFieldElement (studentId rawInput) ;;
  slt <- stringToFieldElement (salt rawInput) ;;
  Return {| circuit_studentId := sid;
            circuit_subjects := subjects rawInput;
            circuit_salt := slt;
            circuit_minPassingGrade := minPassingGrade rawInput;
            circuit_requireAllPassed :=
              if requireAllPassed rawInput then 1%Z else 0%Z |}.

End WithSha256.

Section WithRuntime.

(** What [verifyProof] reaches outside the service: the file system, the
    JSON parser and snarkjs. Each of them may throw. *)
Variable KEYS_PATH : string.
Variable existsSync : string -> bool.
Variable readFileSync : string -> completion string.
Variable JSON_parse : string -> completion value.
Variable groth16_verify : value -> value -> value -> completion bool.

Definition path_join (dir file : string) : string :=
  (dir ++ "/" ++ file)%string.

(** The [try] block of [verifyProof]. *)
Definition verifyProof_try (proof publicSignals : value) : completion bool :=
  let verificationKeyPath := path_join KEYS_PATH "verification_key.json" in
  if negb (existsSync verificationKeyPath)
  then Throw (Error "Verification key not found")
  else
    text <- readFileSync verificationKeyPath ;;
    verificationKey <- JSON_parse text ;;
    formattedProof <- formatProofFromSolidity proof ;;
    isValid <- groth16_verify verificationKey publicSignals formattedProof ;;
    Return isValid.

Definition verifyProof (proof publicSignals : value) : completion bool :=
  try_catch (verifyProof_try proof publicSignals) (fun _ => Return false).

End WithRuntime.

Definition is_array_of (n : nat) (v : value) : bool :=
  match v with
  | VArr elems => (List.length elems =? n)%nat
  | _ => false
  end.

(** The shape of a proof as snarkjs emits it and as the verify route
    (src/backend/src/routes/zkProofs.js, lines 64 to 71) requires it:
    [pi_a] and [pi_c] of three entries, [pi_b] of three rows of two. *)
Definition snarkjs_proof_shape (proof : value) : bool :=
  match proof with
  | VObj fields =>
      is_array_of 3 (assoc "pi_a" fields)
      && match assoc "pi_b" fields with
         | VArr rows =>
             (List.length rows =? 3)%nat && forallb (is_array_of 2) rows
         | _ => false
         end
      && is_array_of 3 (assoc "pi_c" fields)
  | _ => false
  end.

(** [v.name[i]]. *)
Definition coordinate (v : value) (name : string) (i : nat)
  : completion value :=
  point <- get v name ;; get_index point i.

(** [validateProofFormat]: the [&&] chain inside a [try] whose [catch]
    returns [false]. *)
Definition validateProofFormat (proof : value) : completion value :=
  try_catch
    (and_chain proof
       [isArray_at proof "a"; length_2_at proof "a";
        isArray_at proof "b"; length_2_at proof "b";
        isArray_at proof "c"; length_2_at proof "c";
        isArray_row proof 0; length_2_row proof 0;
        isArray_row proof 1; length_2_row proof 1])
    (fun _ => Return (VBool false)).

(** What [generateProof] returns. *)
Record GeneratedProof : Type := {
  generated_proof : value;
  generated_publicSignals : value;
  generated_commitment : string
}.

Section WithProver.

(** What [generateProof] reaches outside the service: SHA-256, the two
    directories, the file system, and [snarkjs.groth16.fullProve], which
    returns the proof and the public signals or throws. *)
Variable sha256 : string -> Buffer.t.
Variable CIRCUIT_PATH : string.
Variable KEYS_PATH : string.
Variable existsSync : string -> bool.
Variable fullProve :
  CircuitInputs -> string -> string -> completion (value * value).

(** The [try] block of [generateProof]. *)
Definition generateProof_try (input : Input) : completion GeneratedProof :=
  circuitInputs <- prepareCircuitInputs sha256 input ;;
  let wasmPath := path_join CIRCUIT_PATH "certificate_simple.wasm" in
  let zkeyPath := path_join KEYS_PATH "certificate_simple.zkey" in
  if negb (existsSync wasmPath)
  then Throw (Error "Circuit WASM file not found. Please compile the circuit first.")
  else if negb (existsSync zkeyPath)
  then Throw (Error "Circuit proving key not found. Please setup the proving system first.")
  else
    proved <- fullProve circuitInputs wasmPath zkeyPath ;;
    let (proof, publicSignals) := proved in
    formatted <- formatProofForSolidity proof ;;
    commitment <- calculateCommitment sha256 input ;;
    Return {| generated_proof := formatted;
              generated_publicSignals := publicSignals;
              generated_commitment := commitment |}.

Definition generateProof (input : Input) : completion GeneratedProof :=
  try_catch (generateProof_try input)
    (fun error =>
       Throw (Error ("Failed to generate ZK proof: " ++ message error)%string)).

End WithProver.

(** The request body of the verify route (src/backend/src/routes/zkProofs.js,
    lines 64 to 72) passes its Joi schema only if [proof] is an object
    whose keys are among [pi_a], [pi_b], [pi_c] and [protocol] (Joi refuses
    an object with a key the schema does not list) and whose [pi_a], [pi_b]
    and [pi_c] have snarkjs's shape.  The schema asks for more, strings as
    coordinates; this much is what [route_proof_schema] checks. *)
Definition route_proof_keys : list string :=
  ["pi_a"; "pi_b"; "pi_c"; "protocol"].

Definition route_proof_schema (proof : value) : bool :=
  match proof with
  | VObj fields =>
      forallb (fun field => existsb (String.eqb (fst field)) route_proof_keys)
              fields
      && snarkjs_proof_shape proof
  | _ => false
  end.

End ZKProofService.

(* ================================================================== *)
(** ** circomlib: bit decomposition, comparators, gates *)
(* ================================================================== *)

(** Signals are elements of the scalar field of BN254, kept as their
    representatives in [0, p). *)
Module Circomlib.

Local Open Scope Z_scope.

Definition p : Z := BN254_modulus.

(** Reduction into the field. *)
Definition F (x : Z) : Z := x mod p.

(** [out[i] <-- (in >> i) & 1] for the [n] bits from position [i] on. *)
Fixpoint Num2Bits_out (n : nat) (x i : Z) : list Z :=
  match n with
  | O => []
  | S n' => Z.land (Z.shiftr x i) 1 :: Num2Bits_out n' x (i + 1)
  end.

(** [lc1 += out[i] * e2; e2 = e2 + e2]. *)
Fixpoint lc1 (out : list Z) (e2 : Z) : Z :=
  match out with
  | [] => 0
  | bit :: rest => bit * e2 + lc1 rest (e2 + e2)
  end.

(** [Num2Bits(n)]: the bits, provided the constraint [lc1 === in] holds.
    (Each computed bit is 0 or 1, so [out[i] * (out[i] - 1) === 0] holds.) *)
Definition Num2Bits (n : nat) (x : Z) : option (list Z) :=
  let out := Num2Bits_out n (F x) 0 in
  if F (lc1 out 1) =? F x then Some out else None.

(** [LessThan(n)]: [n2b.in <== in[0] + (1 << n) - in[1]] and
    [out <== 1 - n2b.out[n]]. *)
Definition LessThan (n : nat) (in0 in1 : Z) : option Z :=
  match Num2Bits (S n) (F (in0 + 2 ^ Z.of_nat n - in1)) with
  | Some out => Some (F (1 - nth n out 0))
  | None => None
  end.

(** [LessEqThan(n)]: [LessThan(n)] of [in[0]] and [in[1] + 1]. *)
Definition LessEqThan (n : nat) (in0 in1 : Z) : option Z :=
  LessThan n in0 (F (in1 + 1)).

(** [GreaterEqThan(n)]: [LessThan(n)] of [in[1]] and [in[0] + 1]. *)
Definition GreaterEqThan (n : nat) (in0 in1 : Z) : option Z :=
  LessThan n in1 (F (in0 + 1)).

Definition AND (a b : Z) : Z := F (a * b).

Definition OR (a b : Z) : Z := F (a + b - a * b).

Definition NOT (a : Z) : Z := F (1 + a - 2 * a).

End Circomlib.

(* ================================================================== *)
(** ** The circuits (src/circuits/certificate.circom) *)
(* ================================================================== *)

Module Circuit.

Import Circomlib.

Local Open Scope Z_scope.

(** *** The file as the compiler reads it *)

(** The file of [CertificateVerifier] opens with [pragma circom 2.0.0]: it
    is written for the circom 2 compiler.  Before it generates a constraint,
    that compiler parses the file, resolves the includes and checks that
    every signal and component is declared in the initial scope of its
    template.  What it reports when one of these fails: *)
Inductive CompileError : Type :=
| UnrecognizedToken (token : string)
| IncludeNotFound (file : string)
| DeclarationOutsideInitialScope (name : string).

(** How a declaration of a signal or of a component begins.  [signal
    private input] is the syntax of circom 1; circom 2 has no [private]. *)
Inductive Keyword : Type :=
| signal_private_input
| signal_input
| signal_output
| component.

(** A declaration: its keyword, the name declared, and whether it stands
    in the body of a [for] loop.  ([var] declarations may stand anywhere
    and are left out.) *)
Record Declaration : Type := {
  keyword : Keyword;
  name : string;
  in_loop : bool
}.

Record Source : Type := {
  includes : list string;
  declarations : list Declaration
}.

(** The files of the circuits directory of the circomlib package (its two
    subdirectories, sha256 and smt, are not included by this repository). *)
Definition circomlib_circuits : list string :=
  map (fun file => ("circomlib/circuits/" ++ file ++ ".circom")%string)
    ["aliascheck"; "babyjub"; "binsub"; "binsum"; "bitify"; "comparators";
     "compconstant"; "eddsa"; "eddsamimc"; "eddsamimcsponge";
     "eddsaposeidon"; "escalarmul"; "escalarmulany"; "escalarmulfix";
     "escalarmulw4table"; "gates"; "mimc"; "mimcsponge"; "montgomery";
     "multiplexer"; "mux1"; "mux2"; "mux3"; "mux4"; "pedersen";
     "pedersen_old"; "pointbits"; "poseidon"; "poseidon_constants";
     "poseidon_old"; "sign"; "switcher"]%string.

Definition is_private (d : Declaration) : bool :=
  match keyword d with
  | signal_private_input => true
  | _ => false
  end.

Definition is_input (d : Declaration) : bool :=
  match keyword d with
  | signal_private_input | signal_input => true
  | _ => false
  end.

Definition include_exists (file : string) : bool :=
  existsb (String.eqb file) circomlib_circuits.

(** The errors of a file, in the order of the compiler's phases: the parser
    on each [private], the includes that no file answers, the declarations
    inside a loop. *)
Definition errors (s : Source) : list CompileError :=
  map (fun _ => UnrecognizedToken "private")
      (filter is_private (declarations s))
  ++ map IncludeNotFound
         (filter (fun file => negb (include_exists file)) (includes s))
  ++ map (fun d => DeclarationOutsideInitialScope (name d))
         (filter in_loop (declarations s)).

(** The compiler stops at the first error. *)
Definition compile (s : Source) : option CompileError :=
  match errors s with
  | [] => None
  | error :: _ => Some error
  end.

(** The includes (lines 153 to 156) and the declarations of
    [CertificateVerifier] (lines 164 to 221), in the order of the file. *)
Definition certificate_simple : Source :=
  {| includes :=
       ["circomlib/circuits/comparators.circom";
        "circomlib/circuits/poseidon.circom";
        "circomlib/circuits/gates.circom";
        "circomlib/circuits/merkletree.circom"]%string;
     declarations :=
       [ {| keyword := signal_private_input; name := "studentId";
            in_loop := false |};
         {| keyword := signal_private_input; name := "subjects";
            in_loop := false |};
         {| keyword := signal_private_input; name := "salt";
            in_loop := false |};
         {| keyword := signal_input; name := "minPassingGrade";
            in_loop := false |};
         {| keyword := signal_input; name := "requireAllPassed";
            in_loop := false |};
         {| keyword := signal_output; name := "isValid";
            in_loop := false |};
         {| keyword := signal_output; name := "commitment";
            in_loop := false |};
         {| keyword := component; name := "hasher"; in_loop := false |};
         {| keyword := component; name := "gradeChecks";
            in_loop := false |};
         {| keyword := component; name := "rangeCheck"; in_loop := true |};
         {| keyword := component; name := "andGates"; in_loop := false |};
         {| keyword := component; name := "finalCheck";
            in_loop := false |};
         {| keyword := component; name := "notRequired";
            in_loop := false |};
         {| keyword := component; name := "requiredAndPassed";
            in_loop := false |} ] |}.

(** *** The template *)

(** The two outputs of [CertificateVerifier]. *)
Record Outputs : Type := {
  isValid : Z;
  commitment : Z
}.

(** What becomes of a set of input signals: the outputs of the witness
    that satisfies every constraint; no witness, because a constraint fails
    or the inputs do not fill the signals; or no circuit at all. *)
Inductive Verdict (A : Type) : Type :=
| Accepted (outputs : A)
| Refused
| NotCompiled (error : CompileError).

Arguments Accepted {A} outputs.
Arguments Refused {A}.
Arguments NotCompiled {A} error.

(** A signal that is 0 or 1. *)
Definition bit (x : Z) : Prop := x = 0 \/ x = 1.

(** The constraints one turn of the loop over the subjects writes down
    (lines 188 to 196): the comparison with the minimum grade in
    [gradeChecks[i]], and [rangeCheck.out === 1] on a [LessEqThan(8)].
    [None] when they cannot be satisfied.  The turn declares [component
    rangeCheck] itself, the declaration [certificate_simple] marks
    [in_loop]; [CertificateVerifier] comes to these constraints only when
    the file compiles. *)
Definition gradeCheck (minPassingGrade subject : Z) : option Z :=
  match GreaterEqThan 8 subject minPassingGrade,
        LessEqThan 8 subject 100 with
  | Some out, Some rangeOut => if rangeOut =? 1 then Some out else None
  | _, _ => None
  end.

Fixpoint gradeChecks (minPassingGrade : Z) (subjects : list Z)
  : option (list Z) :=
  match subjects with
  | [] => Some []
  | subject :: rest =>
      match gradeCheck minPassingGrade subject,
            gradeChecks minPassingGrade rest with
      | Some out, Some outs => Some (out :: outs)
      | _, _ => None
      end
  end.

(** [allPassedSignal]: the output of the only check when there is one
    subject, the chain of [andGates] otherwise.  The template cannot be
    instantiated without subjects. *)
Definition allPassedSignal (outs : list Z) : option Z :=
  match outs with
  | [] => None
  | [only] => Some only
  | first :: second :: rest => Some (fold_left AND rest (AND first second))
  end.

(** [finalCheck]: [notRequired OR requiredAndPassed]. *)
Definition finalCheck (requireAllPassed allPassed : Z) : Z :=
  let notRequired := NOT requireAllPassed in
  let requiredAndPassed := AND requireAllPassed allPassed in
  OR notRequired requiredAndPassed.

Section WithPoseidon.

(** circomlib's [Poseidon(nInputs)], on its list of inputs. *)
Variable Poseidon : list Z -> Z.

(** The body of the template (lines 176 to 230) on its input signals: the
    outputs when every constraint is satisfied, [None] otherwise. *)
Definition constraints (studentId : Z) (subjects : list Z)
  (salt minPassingGrade requireAllPassed : Z) : option Outputs :=
  let hasher := Poseidon (F studentId :: F salt :: map F subjects) in
  match gradeChecks (F minPassingGrade) (map F subjects) with
  | None => None
  | Some outs =>
      match allPassedSignal outs with
      | None => None
      | Some allPassed =>
          Some {| isValid := finalCheck (F requireAllPassed) allPassed;
                  commitment := hasher |}
      end
  end.

(** [CertificateVerifier(nSubjects)] on a set of input signals.  There is a
    circuit only if the file compiles; [subjects] is an array of
    [nSubjects] signals. *)
Definition CertificateVerifier (nSubjects : nat) (studentId : Z)
  (subjects : list Z) (salt minPassingGrade requireAllPassed : Z)
  : Verdict Outputs :=
  match compile certificate_simple with
  | Some error => NotCompiled error
  | None =>
      if (List.length subjects =? nSubjects)%nat
      then match constraints studentId subjects salt minPassingGrade
                   requireAllPassed with
           | Some outputs => Accepted outputs
           | None => Refused
           end
      else Refused
  end.

(** [component main = CertificateVerifier(5)]. *)
Definition main : Z -> list Z -> Z -> Z -> Z -> Verdict Outputs :=
  CertificateVerifier 5.

End WithPoseidon.

(** [FinalValidation], the helper template that ends
    [CertificateVerification], the first template of the file.  (That
    template itself reads signals it never declares, [merkleProof],
    [merkleIndex] and [publicCommitment], and the proof service does not
    load it.) *)
Definition FinalValidation (merkleValid allPassed requireAllPassed : Z) : Z :=
  let notRequireAll := NOT requireAllPassed in
  let andGate := AND requireAllPassed allPassed in
  let validator := OR notRequireAll andGate in
  AND merkleValid validator.

(** [AllPassedGates(n)] on its [n] input signals: the only input for
    [n == 1], otherwise the AND of [AllPassedGates(n - 1)] on the first
    [n - 1] inputs and of the last one.  The recursion does not end for
    [n = 0]: there is no such component. *)
Fixpoint AllPassedGates (n : nat) (ins : list Z) : option Z :=
  match n with
  | O => None
  | S n' =>
      if (n =? 1)%nat then Some (nth 0 ins 0)
      else
        match AllPassedGates n' (firstn n' ins) with
        | Some sub_check => Some (AND sub_check (nth n' ins 0))
        | None => None
        end
  end.

End Circuit.

(* ================================================================== *)
(** ** The threshold circuit as the specification words it *)
(* ================================================================== *)

(** Section 4.3 of the specification, items 4 to 6, for comparison with
    [Circuit.CertificateVerifier]. *)
Module ThresholdSpec.

Local Open Scope Z_scope.

(** "gatePolicy = IF requireAll THEN allPassed ELSE true". *)
Definition gatePolicy (requireAll allPassed : bool) : bool :=
  if requireAll then allPassed else true.

(** "an in-circuit Merkle path recomputation ... using the same
    sort-then-hash rule". *)
Fixpoint recompute (hash2 : Z -> Z -> Z) (leaf : Z) (siblings : list Z) : Z :=
  match siblings with
  | [] => leaf
  | sibling :: rest =>
      recompute hash2
        (if leaf <=? sibling then hash2 leaf sibling else hash2 sibling leaf)
        rest
  end.

Definition merkleValid (hash2 : Z -> Z -> Z) (leaf : Z) (siblings : list Z)
  (root : Z) : bool :=
  recompute hash2 leaf siblings =? root.

(** "isValid = merkleValid AND gatePolicy". *)
Definition isValid (merkleValid gatePolicy : bool) : bool :=
  merkleValid && gatePolicy.

End ThresholdSpec.

(* ================================================================== *)
(** ** CertificateRegistry (src/contracts/CertificateRegistry.sol) *)
(* ================================================================== *)

(** The registry contract as a state machine.  [uint256], [bytes32] and
    [address] values are integers; a transaction either succeeds, with a
    returned value and a new state, or reverts with a reason and leaves the
    state as it was.  Events are not part of the state and are left out;
    [nonReentrant] guards a function that makes no external call and has no
    effect on what is modelled. *)
Module CertificateRegistry.

Local Open Scope Z_scope.

Definition MAX_UINT256 : Z := 2 ^ 256 - 1.

Record BatchInfo : Type := {
  merkleRoot : Z;
  institutionName : string;
  courseName : string;
  graduationYear : Z;
  totalStudents : Z;
  timestamp : Z;
  isValid : bool
}.

(** A slot of the [batches] mapping that was never written. *)
Definition no_batch : BatchInfo :=
  {| merkleRoot := 0;
     institutionName := EmptyString;
     courseName := EmptyString;
     graduationYear := 0;
     totalStudents := 0;
     timestamp := 0;
     isValid := false |}.

(** The storage of the contract; [owner] is [Ownable]'s [_owner]. *)
Record State : Type := {
  owner : Z;
  batches : Z -> BatchInfo;
  authorizedInstitutions : Z -> bool;
  nextBatchId : Z
}.

Inductive outcome (A : Type) : Type :=
| Success (returned : A)
| Reverted (reason : string).

Arguments Success {A} returned.
Arguments Reverted {A} reason.

(** [Ownable]'s [onlyOwner], and the contract's [onlyAuthorized]. *)
Definition onlyOwner (s : State) (sender : Z) : bool :=
  owner s =? sender.

Definition onlyAuthorized (s : State) (sender : Z) : bool :=
  authorizedInstitutions s sender || (sender =? owner s).

(** [Ownable]'s constructor, then the contract's. *)
Definition constructor (sender : Z) : State :=
  {| owner := sender;
     batches := fun _ => no_batch;
     authorizedInstitutions := fun a => a =? sender;
     nextBatchId := 1 |}.

Definition setInstitutionAuthorization (sender institution : Z)
  (authorized : bool) (s : State) : outcome (unit * State) :=
  if negb (onlyOwner s sender)
  then Reverted "Ownable: caller is not the owner"
  else
    Success (tt,
             {| owner := owner s;
                batches := batches s;
                authorizedInstitutions :=
                  fun a => if a =? institution then authorized
                           else authorizedInstitutions s a;
                nextBatchId := nextBatchId s |}).

(** [issueBatch]; [now] is [block.timestamp].  [nextBatchId++] is checked
    arithmetic: it panics at the largest [uint256]. *)
Definition issueBatch (sender now root : Z) (institution course : string)
  (year total : Z) (s : State) : outcome (Z * State) :=
  if negb (onlyAuthorized s sender)
  then Reverted "Not authorized to issue certificates"
  else if root =? 0
  then Reverted "Invalid Merkle root"
  else if negb (0 <? Z.of_nat (String.length institution))
  then Reverted "Institution name required"
  else if negb (0 <? Z.of_nat (String.length course))
  then Reverted "Course name required"
  else if negb ((1900 <? year) && (year <=? 2100))
  then Reverted "Invalid graduation year"
  else if negb (0 <? total)
  then Reverted "Total students must be greater than 0"
  else if MAX_UINT256 <=? nextBatchId s
  then Reverted "Panic(0x11)"
  else
    let batchId := nextBatchId s in
    Success (batchId,
             {| owner := owner s;
                batches :=
                  fun id =>
                    if id =? batchId
                    then {| merkleRoot := root;
                            institutionName := institution;
                            courseName := course;
                            graduationYear := year;
                            totalStudents := total;
                            timestamp := now;
                            isValid := true |}
                    else batches s id;
                authorizedInstitutions := authorizedInstitutions s;
                nextBatchId := nextBatchId s + 1 |}).

Definition revokeBatch (sender batchId : Z) (s : State)
  : outcome (unit * State) :=
  if negb (onlyAuthorized s sender)
  then Reverted "Not authorized to issue certificates"
  else if merkleRoot (batches s batchId) =? 0
  then Reverted "Batch does not exist"
  else
    Success (tt,
             {| owner := owner s;
                batches :=
                  fun id =>
                    if id =? batchId
                    then {| merkleRoot := merkleRoot (batches s batchId);
                            institutionName :=
                              institutionName (batches s batchId);
                            courseName := courseName (batches s batchId);
                            graduationYear :=
                              graduationYear (batches s batchId);
                            totalStudents := totalStudents (batches s batchId);
                            timestamp := timestamp (batches s batchId);
                            isValid := false |}
                    else batches s id;
                authorizedInstitutions := authorizedInstitutions s;
                nextBatchId := nextBatchId s |}).

Definition getBatchInfo (batchId : Z) (s : State) : outcome BatchInfo :=
  Success (batches s batchId).

(** [nextBatchId - 1], checked. *)
Definition getTotalBatches (s : State) : outcome Z :=
  if nextBatchId s <? 1 then Reverted "Panic(0x11)"
  else Success (nextBatchId s - 1).

(** [Ownable.transferOwnership] and [Ownable.renounceOwnership], which the
    contract inherits. *)
Definition transferOwnership (sender newOwner : Z) (s : State)
  : outcome (unit * State) :=
  if negb (onlyOwner s sender)
  then Reverted "Ownable: caller is not the owner"
  else if newOwner =? 0
  then Reverted "Ownable: new owner is the zero address"
  else
    Success (tt,
             {| owner := newOwner;
                batches := batches s;
                authorizedInstitutions := authorizedInstitutions s;
                nextBatchId := nextBatchId s |}).

Definition renounceOwnership (sender : Z) (s : State)
  : outcome (unit * State) :=
  if negb (onlyOwner s sender)
  then Reverted "Ownable: caller is not the owner"
  else
    Success (tt,
             {| owner := 0;
                batches := batches s;
                authorizedInstitutions := authorizedInstitutions s;
                nextBatchId := nextBatchId s |}).

Section WithKeccak.

(** [keccak256] of the 64 bytes of two [bytes32] values. *)
Variable keccak256 : Z -> Z -> Z.

(** OpenZeppelin's [MerkleProof]: [_hashPair], [processProof], [verify]. *)
Definition hashPair (a b : Z) : Z :=
  if a <? b then keccak256 a b else keccak256 b a.

Definition processProof (proof : list Z) (leaf : Z) : Z :=
  fold_left hashPair proof leaf.

Definition MerkleProof_verify (proof : list Z) (root leaf : Z) : bool :=
  processProof proof leaf =? root.

Definition verifyCertificate (batchId certificateHash : Z)
  (merkleProof : list Z) (s : State) : outcome bool :=
  if negb (isValid (batches s batchId))
  then Reverted "Batch is not valid"
  else
    Success (MerkleProof_verify merkleProof (merkleRoot (batches s batchId))
               certificateHash).

End WithKeccak.

(** The state-changing entry points, and a transaction: who calls, when,
    and what. *)
Inductive call : Type :=
| SetInstitutionAuthorization (institution : Z) (authorized : bool)
| IssueBatch (root : Z) (institution course : string) (year total : Z)
| RevokeBatch (batchId : Z)
| TransferOwnership (newOwner : Z)
| RenounceOwnership.

Record transaction : Type := {
  sender : Z;
  block_timestamp : Z;
  action : call
}.

(** The state after a call: the new state when it succeeds, the old one
    when it reverts. *)
Definition state_after {A : Type} (s : State) (o : outcome (A * State))
  : State :=
  match o with
  | Success (_, s') => s'
  | Reverted _ => s
  end.

Definition execute (s : State) (t : transaction) : State :=
  match action t with
  | SetInstitutionAuthorization institution authorized =>
      state_after s
        (setInstitutionAuthorization (sender t) institution authorized s)
  | IssueBatch root institution course year total =>
      state_after s
        (issueBatch (sender t) (block_timestamp t) root institution course
           year total s)
  | RevokeBatch batchId => state_after s (revokeBatch (sender t) batchId s)
  | TransferOwnership newOwner =>
      state_after s (transferOwnership (sender t) newOwner s)
  | RenounceOwnership => state_after s (renounceOwnership (sender t) s)
  end.

(** The state a deployed contract is in after a sequence of transactions. *)
Definition run (deployer : Z) (transactions : list transaction) : State :=
  fold_left execute transactions (constructor deployer).

(** What every reachable state satisfies: the counter is a [uint256] of at
    least 1, and the slots of [batches] that were written are those below
    the counter; only a written slot can be valid. *)
Definition consistent (s : State) : Prop :=
  1 <= nextBatchId s <= MAX_UINT256 /\
  forall id,
    (merkleRoot (batches s id) <> 0 <-> 1 <= id < nextBatchId s) /\
    (isValid (batches s id) = true -> merkleRoot (batches s id) <> 0).

End CertificateRegistry.

(* ================================================================== *)
(** ** Sample data *)
(* ================================================================== *)

(** Concrete inputs at which the theorems below are exercised.  [fnv1a32]
    (the 32-bit FNV-1a checksum, four bytes, big-endian) stands in for a hash
    function where one that returns is needed. *)
Module Sample.

Definition fnv1a32_state (data : Buffer.t) : N :=
  fold_left (fun acc b => (N.lxor acc (Byte.to_N b) * 16777619) mod 4294967296)%N
            data 2166136261%N.

Definition fnv1a32 (data : Buffer.t) : completion Buffer.t :=
  let h := fnv1a32_state data in
  Return (map (fun shift => byte_of_ascii (ascii_of_N (N.shiftr h shift mod 256)%N))
              [24; 16; 8; 0]%N).

Definition h1 : string :=
  "11aa11aa11aa11aa11aa11aa11aa11aa11aa11aa11aa11aa11aa11aa11aa11aa".
Definition h2 : string :=
  "22bb22bb22bb22bb22bb22bb22bb22bb22bb22bb22bb22bb22bb22bb22bb22bb".
Definition h3 : string :=
  "33cc33cc33cc33cc33cc33cc33cc33cc33cc33cc33cc33cc33cc33cc33cc33cc".

Definition cert (id hash : string) : MerkleService.Certificate :=
  {| MerkleService.studentId := id;
     MerkleService.commitment := Some hash;
     MerkleService.subjects := [88; 92; 85; 90; 87]%Z |}.

Definition one_certificate : list MerkleService.Certificate :=
  [cert "STU001" h1].

Definition two_certificates : list MerkleService.Certificate :=
  [cert "STU001" h1; cert "STU002" h2].

Definition three_certificates : list MerkleService.Certificate :=
  [cert "STU001" h1; cert "STU002" h2; cert "STU003" h3].

Definition no_tree : MerkleTreeJs.MerkleTree :=
  {| MerkleTreeJs.leaves := []; MerkleTreeJs.layers := [];
     MerkleTreeJs.options := MerkleTreeJs.no_options |}.

(** The trees [buildMerkleTree] returns for the batches above when
    [fnv1a32] does the hashing. *)
Definition two_leaf_tree : MerkleTreeJs.MerkleTree :=
  Eval vm_compute in
    match MerkleService.buildMerkleTree fnv1a32 two_certificates with
    | Return tree => tree
    | Throw _ => no_tree
    end.

Definition three_leaf_tree : MerkleTreeJs.MerkleTree :=
  Eval vm_compute in
    match MerkleService.buildMerkleTree fnv1a32 three_certificates with
    | Return tree => tree
    | Throw _ => no_tree
    end.

(** The tree over the batch of one certificate: the leaf is the root, and
    nothing is hashed. *)
Definition one_leaf_tree : MerkleTreeJs.MerkleTree :=
  {| MerkleTreeJs.leaves := [Buffer.from_hex h1];
     MerkleTreeJs.layers := [[Buffer.from_hex h1]];
     MerkleTreeJs.options := MerkleService.tree_options |}.

(** A backup of the batch of two certificates: its two leaves, and as the
    stored root the SHA-256 digest of the sorted pair. *)
Definition two_leaf_backup : MerkleService.TreeData :=
  {| MerkleService.merkleRoot :=
       "1198107c30740fddb135d2377e4e2ecc196f2d174c668589ca62836ba8980268";
     MerkleService.leaves := Some [h1; h2];
     MerkleService.certificates := [];
     MerkleService.metadata :=
       {| MerkleService.totalCertificates := 2;
          MerkleService.createdAt := "2024-06-01T00:00:00.000Z";
          MerkleService.version := "1.0.0" |} |}.

(** A backup of the three-leaf tree whose stored root was overwritten. *)
Definition tampered_backup : MerkleService.TreeData :=
  {| MerkleService.merkleRoot := "00000000";
     MerkleService.leaves := Some [h1; h2; h3];
     MerkleService.certificates := [];
     MerkleService.metadata :=
       {| MerkleService.totalCertificates := 3;
          MerkleService.createdAt := "2024-06-01T00:00:00.000Z";
          MerkleService.version := "1.0.0" |} |}.

(** A 32-byte stand-in for SHA-256: eight FNV-1a checksums of the data, each
    seeded with its position. *)
Definition digest32 (data : string) : Buffer.t :=
  flat_map
    (fun i =>
       let h := fnv1a32_state
                  (byte_of_ascii (ascii_of_N i) :: map byte_of_ascii (list_ascii_of_string data)) in
       map (fun shift => byte_of_ascii (ascii_of_N (N.shiftr h shift mod 256)%N))
           [24; 16; 8; 0]%N)
    [0; 1; 2; 3; 4; 5; 6; 7]%N.

(** A record with a grade of 150. *)
Definition overgraded_student : CertificateUtils.StudentData :=
  {| CertificateUtils.studentId := "STU001";
     CertificateUtils.subjects := [150; 92; 85; 90; 87]%Z |}.

Definition overgraded_input : ZKProofService.Input :=
  {| ZKProofService.studentId := "STU001";
     ZKProofService.subjects := [150; 92; 85; 90; 87]%Z;
     ZKProofService.salt := "5a17";
     ZKProofService.minPassingGrade := 40%Z;
     ZKProofService.requireAllPassed := true |}.

(** A Groth16 proof in snarkjs's format (coordinates shortened). *)
Definition snarkjs_proof : value :=
  VObj [("pi_a", VArr [VStr "11"; VStr "12"; VStr "1"]);
        ("pi_b", VArr [VArr [VStr "21"; VStr "22"];
                       VArr [VStr "23"; VStr "24"];
                       VArr [VStr "1"; VStr "0"]]);
        ("pi_c", VArr [VStr "31"; VStr "32"; VStr "1"]);
        ("protocol", VStr "groth16");
        ("curve", VStr "bn128")].

(** A stand-in for Poseidon: a polynomial checksum of the inputs. *)
Definition checksum (inputs : list Z) : Z :=
  Circomlib.F (fold_left (fun acc x => 31 * acc + x) inputs 7)%Z.

(** The scenario of section 8 of the specification. *)
Definition grades : list Z := [88; 92; 85; 90; 87]%Z.

Definition studentId : Z := 1001%Z.

Definition salt : Z := 424242%Z.

(** A commitment that is in none of the batches above. *)
Definition h4 : string :=
  "44dd44dd44dd44dd44dd44dd44dd44dd44dd44dd44dd44dd44dd44dd44dd44dd".

(** A request as the generate route accepts it. *)
Definition honest_input : ZKProofService.Input :=
  {| ZKProofService.studentId := "STU001";
     ZKProofService.subjects := grades;
     ZKProofService.salt := "5a17";
     ZKProofService.minPassingGrade := 40%Z;
     ZKProofService.requireAllPassed := true |}.

(** Two accounts, and a history of the registry: the university deploys the
    contract, issues a batch and revokes it; later it issues a second batch
    and authorizes the college, which issues the root of the first batch
    again. *)
Definition university : Z := 1001%Z.

Definition college : Z := 2002%Z.

Definition issue_and_revoke : list CertificateRegistry.transaction :=
  [{| CertificateRegistry.sender := university;
      CertificateRegistry.block_timestamp := 1700000000%Z;
      CertificateRegistry.action :=
        CertificateRegistry.IssueBatch 12345%Z "University"
          "Computer Science" 2024%Z 3%Z |};
   {| CertificateRegistry.sender := university;
      CertificateRegistry.block_timestamp := 1700000100%Z;
      CertificateRegistry.action := CertificateRegistry.RevokeBatch 1%Z |}].

Definition later_transactions : list CertificateRegistry.transaction :=
  [{| CertificateRegistry.sender := university;
      CertificateRegistry.block_timestamp := 1700000200%Z;
      CertificateRegistry.action :=
        CertificateRegistry.IssueBatch 67890%Z "University" "Mathematics"
          2024%Z 5%Z |};
   {| CertificateRegistry.sender := university;
      CertificateRegistry.block_timestamp := 1700000300%Z;
      CertificateRegistry.action :=
        CertificateRegistry.SetInstitutionAuthorization college true |};
   {| CertificateRegistry.sender := college;
      CertificateRegistry.block_timestamp := 1700000400%Z;
      CertificateRegistry.action :=
        CertificateRegistry.IssueBatch 12345%Z "University"
          "Computer Science" 2024%Z 3%Z |}].

(** A runtime in which everything is in place: both circuit files and the
    verification key exist, the prover returns the sample proof, and snarkjs
    accepts what it is shown. *)
Definition fullProve (inputs : ZKProofService.CircuitInputs)
  (wasmPath zkeyPath : string) : completion (value * value) :=
  Return (snarkjs_proof, VArr [VStr "1"]).

Definition no_proof : ZKProofService.GeneratedProof :=
  {| ZKProofService.generated_proof := VUndefined;
     ZKProofService.generated_publicSignals := VUndefined;
     ZKProofService.generated_commitment := EmptyString |}.

Definition generated : ZKProofService.GeneratedProof :=
  Eval vm_compute in
    match ZKProofService.generateProof digest32 "circuits" "keys"
            (fun _ => true) fullProve honest_input with
    | Return result => result
    | Throw _ => no_proof
    end.

(** The sample proof as the verify route lets it through: without the
    [curve] entry, which the route's schema does not list. *)
Definition route_proof : value :=
  VObj [("pi_a", VArr [VStr "11"; VStr "12"; VStr "1"]);
        ("pi_b", VArr [VArr [VStr "21"; VStr "22"];
                       VArr [VStr "23"; VStr "24"];
                       VArr [VStr "1"; VStr "0"]]);
        ("pi_c", VArr [VStr "31"; VStr "32"; VStr "1"]);
        ("protocol", VStr "groth16")].

(** The state after the first batch was issued. *)
Definition first_batch_issued : CertificateRegistry.State :=
  CertificateRegistry.execute (CertificateRegistry.constructor university)
    {| CertificateRegistry.sender := university;
       CertificateRegistry.block_timestamp := 1700000000%Z;
       CertificateRegistry.action :=
         CertificateRegistry.IssueBatch 12345%Z "University"
           "Computer Science" 2024%Z 3%Z |}.

End Sample.

(* ================================================================== *)
(** ** Facts about the hex codec *)
(* ================================================================== *)

Lemma from_hex_byte_toString_hex (b : byte) (s : string) :
  Buffer.from_hex (Buffer.byte_toString_hex b ++ s)%string
  = b :: Buffer.from_hex s.
Proof. destruct b; reflexivity. Qed.

(** Decoding what [toString('hex')] printed gives the buffer back. *)
Lemma from_hex_toString_hex (buf : Buffer.t) :
  Buffer.from_hex (Buffer.toString_hex buf) = buf.
Proof.
  induction buf as [|b rest IH]; [reflexivity|].
  cbn [Buffer.toString_hex].
  now rewrite from_hex_byte_toString_hex, IH.
Qed.

Lemma is_lower_hex_toString_hex (buf : Buffer.t) :
  Buffer.is_lower_hex (Buffer.toString_hex buf) = true.
Proof.
  induction buf as [|b rest IH]; [reflexivity|].
  cbn [Buffer.toString_hex].
  destruct b; cbn; exact IH.
Qed.

Lemma prefix_cons (a b : ascii) (s1 s2 : string) :
  String.prefix (String a s1) (String b s2)
  = if ascii_dec a b then String.prefix s1 s2 else false.
Proof. reflexivity. Qed.

(** A hex string holds no [0x], so [replace('0x', '')] leaves it alone. *)
Lemma replace_0x_lower_hex (s : string) :
  Buffer.is_lower_hex s = true -> replace_first "0x" "" s = s.
Proof.
  induction s as [|c rest IH]; [reflexivity|].
  intros H. cbn [Buffer.is_lower_hex] in H.
  apply andb_true_iff in H as [Hc Hrest].
  specialize (IH Hrest).
  assert (Hpre : String.prefix "0x" (String c rest) = false).
  { rewrite prefix_cons.
    destruct (ascii_dec "0" c) as [_|]; [|reflexivity].
    destruct rest as [|d rest']; [reflexivity|].
    rewrite prefix_cons.
    destruct (ascii_dec "x" d) as [<-|]; [|reflexivity].
    cbn [Buffer.is_lower_hex] in Hrest.
    apply andb_true_iff in Hrest as [Hd _]. discriminate Hd. }
  change (replace_first "0x" "" (String c rest))
    with (if String.prefix "0x" (String c rest)
          then ("" ++ String.substring (String.length "0x")
                        (String.length (String c rest) - String.length "0x")
                        (String c rest))%string
          else String c (replace_first "0x" "" rest)).
  now rewrite Hpre, IH.
Qed.

Lemma compare_refl (a : Buffer.t) : Buffer.compare a a = Eq.
Proof.
  induction a as [|x a IH]; [reflexivity|].
  cbn. now rewrite N.compare_refl.
Qed.

Lemma equals_refl (a : Buffer.t) : Buffer.equals a a = true.
Proof. unfold Buffer.equals. now rewrite compare_refl. Qed.

(* ================================================================== *)
(** ** Properties of the tree builder *)
(* ================================================================== *)

Section TreeFacts.

Import MerkleTreeJs.

Variable hashFn : Buffer.t -> completion Buffer.t.

Lemma bind_Return {A B : Type} (c : completion A) (k : A -> completion B)
  (b : B) :
  bind c k = Return b -> exists a, c = Return a /\ k a = Return b.
Proof. destruct c as [a|e]; cbn; [eauto | discriminate]. Qed.

Lemma mapM_length {A B : Type} (f : A -> completion B) (xs : list A)
  (ys : list B) :
  mapM f xs = Return ys -> List.length ys = List.length xs.
Proof.
  revert ys. induction xs as [|x xs IH]; intros ys H; cbn in H.
  - now inversion H.
  - apply bind_Return in H as (y & _ & H).
    apply bind_Return in H as (ys' & Hys & H).
    inversion H; subst. cbn. now rewrite (IH ys').
Qed.

(** A layer of n nodes has ceil(n/2) parents. *)
Lemma next_layer_length (o : Options) (nodes above : list Buffer.t) :
  next_layer hashFn o nodes = Return above ->
  List.length above = Nat.div2 (S (List.length nodes)).
Proof.
  revert above.
  enough (Hboth : forall nodes,
             (forall above, next_layer hashFn o nodes = Return above ->
                List.length above = Nat.div2 (S (List.length nodes))) /\
             (forall x above, next_layer hashFn o (x :: nodes) = Return above ->
                List.length above = Nat.div2 (S (S (List.length nodes)))))
    by apply Hboth.
  clear nodes. induction nodes as [|y nodes [IH0 IH1]]; split.
  - intros above H. now inversion H.
  - intros x above H. cbn in H. destruct (duplicateOdd o).
    + apply bind_Return in H as (h & _ & H). now inversion H.
    + now inversion H.
  - exact (IH1 y).
  - intros x above H. cbn [next_layer] in H.
    apply bind_Return in H as (h & _ & H).
    apply bind_Return in H as (rest & Hrest & H).
    inversion H; subst. cbn. f_equal. now apply IH0.
Qed.

Lemma div2_S_lt (n : nat) : 2 <= n -> Nat.div2 (S n) < n.
Proof.
  intros Hn. pose proof (Nat.div2_odd (S n)) as H.
  destruct (Nat.odd (S n)); cbn [Nat.b2n] in H; lia.
Qed.

(** The number of turns of the [while] loop never exceeds the number of
    nodes it starts from: any larger bound gives the same layers. *)
Lemma createHashes_fuel (o : Options) (fuel fuel' : nat)
  (nodes : list Buffer.t) :
  List.length nodes <= fuel -> List.length nodes <= fuel' ->
  createHashes hashFn fuel o nodes = createHashes hashFn fuel' o nodes.
Proof.
  revert fuel' nodes.
  induction fuel as [|fuel IH]; intros fuel' nodes Hf Hf'.
  - destruct fuel' as [|fuel']; [reflexivity|]. cbn.
    destruct nodes; [reflexivity | cbn in Hf; lia].
  - destruct fuel' as [|fuel'].
    + cbn. destruct nodes; [reflexivity | cbn in Hf'; lia].
    + cbn [createHashes].
      destruct (List.length nodes <=? 1)%nat eqn:Hlen; [reflexivity|].
      apply Nat.leb_gt in Hlen.
      destruct (next_layer hashFn o nodes) as [layer|e] eqn:Hlayer;
        [|reflexivity].
      cbn [bind].
      apply next_layer_length in Hlayer.
      pose proof (div2_S_lt (List.length nodes) Hlen).
      rewrite (IH fuel' layer) by lia. reflexivity.
Qed.

(** When the loop returns, it has reached a layer of one node: a tree over
    at least one leaf has exactly one root. *)
Lemma createHashes_single_root (o : Options) (fuel : nat)
  (nodes : list Buffer.t) (above : list (list Buffer.t)) :
  List.length nodes <= fuel -> nodes <> [] ->
  createHashes hashFn fuel o nodes = Return above ->
  List.length (last (nodes :: above) []) = 1.
Proof.
  revert nodes above.
  induction fuel as [|fuel IH]; intros nodes above Hf Hne H.
  - destruct nodes; [congruence | cbn in Hf; lia].
  - cbn [createHashes] in H.
    destruct (List.length nodes <=? 1)%nat eqn:Hlen.
    + apply Nat.leb_le in Hlen. inversion H; subst. cbn.
      destruct nodes as [|x [|y nodes]]; cbn in *; [congruence | reflexivity | lia].
    + apply Nat.leb_gt in Hlen.
      apply bind_Return in H as (layer & Hlayer & H).
      apply bind_Return in H as (more & Hmore & H).
      inversion H; subst.
      pose proof (next_layer_length _ _ _ Hlayer) as Hl.
      pose proof (div2_S_lt (List.length nodes) Hlen).
      assert (Hne' : layer <> []).
      { intros ->. cbn in Hl. destruct nodes as [|x [|y nodes]]; cbn in *; lia. }
      specialize (IH layer more ltac:(lia) Hne' Hmore).
      change (last (nodes :: layer :: more) []) with (last (layer :: more) []).
      exact IH.
Qed.

End TreeFacts.

(* ================================================================== *)
(** ** Inclusion proofs: shape of what getProof returns *)
(* ================================================================== *)

Section ProofFacts.

Import MerkleTreeJs.

Variable hashFn : Buffer.t -> completion Buffer.t.

Lemma createHashes_halving (o : Options) (fuel : nat) (nodes : list Buffer.t)
  (above : list (list Buffer.t)) :
  createHashes hashFn fuel o nodes = Return above -> halving (nodes :: above).
Proof.
  revert nodes above. induction fuel as [|fuel IH]; intros nodes above H.
  - inversion H. cbn. auto.
  - cbn [createHashes] in H.
    destruct (List.length nodes <=? 1)%nat.
    + inversion H. cbn. auto.
    + apply bind_Return in H as (layer & Hlayer & H).
      apply bind_Return in H as (more & Hmore & H).
      inversion H; subst.
      split; [now apply (next_layer_length hashFn o) | now apply IH].
Qed.

Lemma new_MerkleTree_inv (lvs : list Buffer.t) (tree : MerkleTree) :
  new_MerkleTree hashFn lvs MerkleService.tree_options = Return tree ->
  exists above,
    createHashes hashFn (List.length lvs) MerkleService.tree_options lvs
    = Return above /\
    tree = {| leaves := lvs; layers := lvs :: above;
              options := MerkleService.tree_options |}.
Proof.
  unfold new_MerkleTree. cbn [hashLeaves MerkleService.tree_options bind].
  intros H. apply bind_Return in H as (above & Habove & H).
  inversion H. eauto.
Qed.

(** The search returns the position of a leaf equal to the target whenever
    there is one. *)
Lemma find_leaf_bounds (leaf : Buffer.t) (lvs : list Buffer.t) (i : nat)
  (found : option nat) (k : nat) :
  find_leaf leaf lvs i found = Some k ->
  found = Some k \/ (i <= k < i + List.length lvs).
Proof.
  revert i found. induction lvs as [|x lvs IH]; intros i found H; cbn in H.
  - now left.
  - apply IH in H as [H|H]; [|right; cbn; lia].
    destruct (Buffer.equals leaf x); [|now left].
    inversion H; subst. right. cbn. lia.
Qed.

Lemma find_leaf_found (leaf : Buffer.t) (lvs : list Buffer.t) (i : nat)
  (found : option nat) :
  (found <> None \/ In leaf lvs) ->
  exists k, find_leaf leaf lvs i found = Some k.
Proof.
  revert i found. induction lvs as [|x lvs IH]; intros i found H; cbn.
  - destruct H as [H|[]]. destruct found; [eauto | congruence].
  - apply IH. destruct H as [H|[->|H]].
    + left. now destruct (Buffer.equals leaf x).
    + left. now rewrite equals_refl.
    + now right.
Qed.

(** In a tree of two or more leaves every position has a sibling at some
    layer: at the latest in the layer of two nodes below the root. *)
Lemma proof_loop_nonempty (lys : list (list Buffer.t)) (index : nat) :
  halving lys ->
  List.length (last lys []) = 1 ->
  2 <= List.length (hd [] lys) ->
  index < List.length (hd [] lys) ->
  proof_loop lys index <> [].
Proof.
  revert index. induction lys as [|layer rest IH]; intros index Hh Hlast H2 Hi.
  - cbn in H2. lia.
  - cbn [hd] in H2, Hi. cbn [proof_loop].
    destruct (nth_error layer (if Nat.odd index then index - 1 else index + 1))
      as [sibling|] eqn:Hsib; [discriminate|].
    apply nth_error_None in Hsib.
    destruct (Nat.odd index) eqn:Hodd; [lia|].
    destruct rest as [|above rest].
    + cbn in Hlast. lia.
    + destruct Hh as [Hlen Hh].
      change (last (layer :: above :: rest) []) with (last (above :: rest) [])
        in Hlast.
      assert (Hidx : index = List.length layer - 1) by lia.
      pose proof (Nat.div2_odd index) as Hdiv. rewrite Hodd in Hdiv.
      cbn [Nat.b2n] in Hdiv.
      pose proof (Nat.div2_odd (S (List.length layer))) as Hdiv'.
      replace (S (List.length layer)) with (S (S index)) in Hdiv', Hlen by lia.
      rewrite Nat.odd_succ_succ, Hodd in Hdiv'. cbn [Nat.b2n] in Hdiv'.
      rewrite <- Nat.div2_div.
      apply IH; cbn [hd]; try assumption; lia.
Qed.

End ProofFacts.

(* ================================================================== *)
(** ** MerkleService: verification of inclusion proofs *)
(* ================================================================== *)

Section VerifyProofFacts.

Import MerkleTreeJs MerkleService.

Variable createHash : Buffer.t -> completion Buffer.t.

(** C9. [MerkleService.verifyProof] is total: for every commitment string,
    every proof array (whatever its elements are) and every root string it
    returns a boolean; whenever anything inside its [try] block throws, the
    boolean is [false], and no exception reaches the caller. *)
Theorem verifyProof_total (commitmentHash : string) (proof : list value)
  (merkleRoot : string) :
  (exists b : bool,
      verifyProof createHash commitmentHash proof merkleRoot = Return b) /\
  (forall e,
      verifyProof_try createHash commitmentHash proof merkleRoot = Throw e ->
      verifyProof createHash commitmentHash proof merkleRoot = Return false).
Proof.
  unfold verifyProof.
  destruct (verifyProof_try createHash commitmentHash proof merkleRoot)
    as [b|e0] eqn:Htry; cbn [try_catch]; split.
  - now exists b.
  - discriminate.
  - now exists false.
  - reflexivity.
Qed.

(** [element.replace] exists on strings only: as soon as the proof array
    starts with an object, the conversion of the proof throws. *)
Lemma proof_conversion_throws_on_object (fields : list (string * value))
  (rest : list value) :
  exists e,
    mapM (fun element =>
            s <- call_replace element "0x" "" ;;
            Return {| data := Buffer.from_hex s; position := left |})
         (VObj fields :: rest) = Throw e.
Proof. cbn. eauto. Qed.

(** What [generateMerkleProof] returns is never accepted by [verifyProof],
    unless it is empty: its elements are [{data, position}] objects, which
    [verifyProof] treats as strings. *)
Lemma verifyProof_rejects_generated (merkleTree : MerkleTree)
  (commitmentHash leafHash merkleRoot : string) :
  generateMerkleProof merkleTree commitmentHash <> [] ->
  verifyProof createHash leafHash
    (generateMerkleProof merkleTree commitmentHash) merkleRoot = Return false.
Proof.
  unfold generateMerkleProof.
  destruct (getProof merkleTree (Buffer.from_hex commitmentHash))
    as [|node nodes]; [cbn [map]; congruence|].
  intros _. cbn [map]. unfold verifyProof, verifyProof_try.
  destruct (proof_conversion_throws_on_object
              [("data", VStr (Buffer.toString_hex (data node)));
               ("position", VStr (position_name (position node)))]
              (map (fun element =>
                      VObj [("data", VStr (Buffer.toString_hex (data element)));
                            ("position",
                             VStr (position_name (position element)))]) nodes))
    as [e He].
  now rewrite He.
Qed.

(** The leaves of a built tree are the decoded commitments. *)
Lemma buildMerkleTree_inv (certs : list Certificate) (tree : MerkleTree) :
  buildMerkleTree createHash certs = Return tree ->
  exists lvs above,
    mapM (fun cert =>
            match commitment cert with
            | None | Some EmptyString =>
                Throw (Error "Certificate missing commitment hash")
            | Some c => Return (Buffer.from_hex c)
            end) certs = Return lvs /\
    createHashes createHash (List.length lvs) tree_options lvs = Return above /\
    tree = {| MerkleTreeJs.leaves := lvs; layers := lvs :: above;
              options := tree_options |}.
Proof.
  unfold buildMerkleTree.
  destruct (List.length certs =? 0)%nat; [discriminate|].
  intros H. apply bind_Return in H as (lvs & Hlvs & H).
  apply new_MerkleTree_inv in H as (above & Habove & ->). eauto.
Qed.

Lemma commitments_decoded (certs : list Certificate) (lvs : list Buffer.t)
  (cert : Certificate) (h : string) :
  mapM (fun cert =>
          match commitment cert with
          | None | Some EmptyString =>
              Throw (Error "Certificate missing commitment hash")
          | Some c => Return (Buffer.from_hex c)
          end) certs = Return lvs ->
  In cert certs -> commitment cert = Some h -> In (Buffer.from_hex h) lvs.
Proof.
  revert lvs. induction certs as [|c certs IH]; intros lvs H Hin Hh; [easy|].
  cbn [mapM] in H.
  apply bind_Return in H as (x & Hx & H).
  apply bind_Return in H as (xs & Hxs & H).
  inversion H; subst.
  destruct Hin as [->|Hin].
  - rewrite Hh in Hx. left. destruct h; inversion Hx; reflexivity.
  - right. now apply IH.
Qed.

(** In a batch of two or more certificates, the proof generated for any
    certificate of the batch is not empty. *)
Lemma generateMerkleProof_nonempty (certs : list Certificate)
  (tree : MerkleTree) (cert : Certificate) (h : string) :
  buildMerkleTree createHash certs = Return tree ->
  2 <= List.length certs -> In cert certs -> commitment cert = Some h ->
  generateMerkleProof tree h <> [].
Proof.
  intros Hbuild Hn Hin Hh.
  apply buildMerkleTree_inv in Hbuild as (lvs & above & Hlvs & Habove & ->).
  pose proof (mapM_length _ _ _ Hlvs) as Hlen.
  pose proof (commitments_decoded _ _ _ _ Hlvs Hin Hh) as Hleaf.
  unfold generateMerkleProof, getProof. cbn [MerkleTreeJs.leaves layers].
  destruct (find_leaf_found (Buffer.from_hex h) lvs 0 None (or_intror Hleaf))
    as [k Hk].
  rewrite Hk.
  apply find_leaf_bounds in Hk as [Hk|Hk]; [discriminate|].
  intros Hmap. apply map_eq_nil in Hmap. revert Hmap.
  apply proof_loop_nonempty; cbn [hd]; try lia.
  - now apply (createHashes_halving createHash tree_options (List.length lvs)).
  - apply (createHashes_single_root createHash tree_options (List.length lvs));
      [lia | | assumption].
    intros ->. cbn in Hlen. lia.
Qed.

(** C1, on the code.  For a batch of two or more certificates, build the
    tree, generate the inclusion proof of any certificate of the batch and
    hand it to [verifyProof] with the tree's root: the answer is [false],
    whatever the hash function is. *)
Theorem generated_proof_is_rejected (certs : list Certificate)
  (tree : MerkleTree) (cert : Certificate) (h : string) :
  buildMerkleTree createHash certs = Return tree ->
  2 <= List.length certs -> In cert certs -> commitment cert = Some h ->
  verifyProof createHash h (generateMerkleProof tree h)
    (Buffer.toString_hex (getRoot tree)) = Return false.
Proof.
  intros Hbuild Hn Hin Hh.
  apply verifyProof_rejects_generated.
  now apply (generateMerkleProof_nonempty certs tree cert).
Qed.

(** For a batch of one certificate the claim holds: the proof is empty and
    the root is the leaf. *)
Lemma single_leaf_proof_accepted (cert : Certificate) (tree : MerkleTree)
  (h : string) :
  buildMerkleTree createHash [cert] = Return tree ->
  commitment cert = Some h ->
  verifyProof createHash h (generateMerkleProof tree h)
    (Buffer.toString_hex (getRoot tree)) = Return true.
Proof.
  intros Hbuild Hh.
  apply buildMerkleTree_inv in Hbuild as (lvs & above & Hlvs & Habove & ->).
  cbn [mapM] in Hlvs. rewrite Hh in Hlvs.
  assert (Hl : lvs = [Buffer.from_hex h]) by (destruct h; now inversion Hlvs).
  subst lvs. cbn in Habove. inversion Habove; subst above.
  unfold generateMerkleProof, getProof, getRoot, verifyProof, verifyProof_try.
  cbn [MerkleTreeJs.leaves layers find_leaf last].
  rewrite equals_refl. cbn [proof_loop Nat.odd nth_error map mapM bind].
  rewrite replace_0x_lower_hex by apply is_lower_hex_toString_hex.
  rewrite from_hex_toString_hex.
  cbn. now rewrite equals_refl.
Qed.

End VerifyProofFacts.

(** With node's [crypto.createHash] in the hash function's place, no tree of
    two or more leaves is ever built: the first pair to be hashed throws. *)
Lemma buildMerkleTree_node_createHash (certs : list MerkleService.Certificate) :
  2 <= List.length certs ->
  exists e, MerkleService.buildMerkleTree Crypto.createHash certs = Throw e.
Proof.
  intros Hn. unfold MerkleService.buildMerkleTree.
  destruct (List.length certs =? 0)%nat; [eauto|].
  destruct (mapM _ certs) as [lvs|e] eqn:Hlvs; [|cbn; eauto].
  apply mapM_length in Hlvs. cbn [bind].
  destruct lvs as [|a [|b lvs]]; cbn in Hlvs; try lia.
  cbn. eauto.
Qed.

(** One certificate: the claim holds, also with node's [createHash], which
    is never called. *)
Example single_certificate_verifies :
  exists tree,
    MerkleService.buildMerkleTree Crypto.createHash Sample.one_certificate
    = Return tree /\
    MerkleService.verifyProof Crypto.createHash Sample.h1
      (MerkleService.generateMerkleProof tree Sample.h1)
      (Buffer.toString_hex (MerkleTreeJs.getRoot tree)) = Return true.
Proof. eexists. split; vm_compute; reflexivity. Qed.

(** Handed the sibling as a hex string, [verifyProof] hashes it to the left
    of the running hash and does not sort the pair: in the two-leaf tree the
    second leaf verifies, the first does not. *)
Example verifyProof_hashes_sibling_on_the_left :
  MerkleService.verifyProof Sample.fnv1a32 Sample.h2 [VStr Sample.h1]
    (Buffer.toString_hex (MerkleTreeJs.getRoot Sample.two_leaf_tree))
  = Return true /\
  MerkleService.verifyProof Sample.fnv1a32 Sample.h1 [VStr Sample.h2]
    (Buffer.toString_hex (MerkleTreeJs.getRoot Sample.two_leaf_tree))
  = Return false.
Proof. split; vm_compute; reflexivity. Qed.

(** C1 at the batch of two sample certificates, hashed with FNV-1a. *)
Lemma generated_proof_is_rejected_witness :
  MerkleService.buildMerkleTree Sample.fnv1a32 Sample.two_certificates
  = Return Sample.two_leaf_tree /\
  MerkleService.verifyProof Sample.fnv1a32 Sample.h1
    (MerkleService.generateMerkleProof Sample.two_leaf_tree Sample.h1)
    (Buffer.toString_hex (MerkleTreeJs.getRoot Sample.two_leaf_tree))
  = Return false.
Proof.
  assert (Hbuild : MerkleService.buildMerkleTree Sample.fnv1a32
                     Sample.two_certificates = Return Sample.two_leaf_tree)
    by (vm_compute; reflexivity).
  split; [exact Hbuild|].
  apply (generated_proof_is_rejected Sample.fnv1a32 Sample.two_certificates
           Sample.two_leaf_tree (Sample.cert "STU001" Sample.h1) Sample.h1
           Hbuild).
  - cbn. lia.
  - cbn. auto.
  - reflexivity.
Defined.

(* ================================================================== *)
(** ** MerkleService: export and import *)
(* ================================================================== *)

Section ImportExport.

Import MerkleTreeJs MerkleService.

Variable createHash : Buffer.t -> completion Buffer.t.

Lemma map_from_hex_toString_hex (bufs : list Buffer.t) :
  map Buffer.from_hex (map Buffer.toString_hex bufs) = bufs.
Proof.
  induction bufs as [|b bufs IH]; cbn; [reflexivity|].
  now rewrite from_hex_toString_hex, IH.
Qed.

(** Every certificate a tree was built from carries a commitment, so the
    export of that batch does not throw. *)
Lemma exportTreeData_returns (certs : list Certificate) (lvs : list Buffer.t)
  (tree : MerkleTree) (now : string) :
  mapM (fun cert =>
          match commitment cert with
          | None | Some EmptyString =>
              Throw (Error "Certificate missing commitment hash")
          | Some c => Return (Buffer.from_hex c)
          end) certs = Return lvs ->
  exists treeData,
    exportTreeData tree certs now = Return treeData /\
    merkleRoot treeData = Buffer.toString_hex (getRoot tree) /\
    leaves treeData = Some (map Buffer.toString_hex (getLeaves tree)).
Proof.
  intros Hlvs. unfold exportTreeData.
  assert (Hexp : exists exported,
             mapM (fun cert =>
                     match commitment cert with
                     | None =>
                         Throw (TypeError
                                  "The first argument must be of type string")
                     | Some c =>
                         Return {| exported_studentId := studentId cert;
                                   exported_commitment := c;
                                   exported_proof :=
                                     generateMerkleProof tree c |}
                     end) certs = Return exported).
  { revert lvs Hlvs. induction certs as [|c certs IH]; intros lvs Hlvs.
    - cbn. eauto.
    - cbn [mapM] in *.
      apply bind_Return in Hlvs as (x & Hx & Hlvs).
      apply bind_Return in Hlvs as (xs & Hxs & _).
      destruct (IH xs Hxs) as [exported ->].
      destruct (commitment c) as [h|]; [|discriminate]. cbn. eauto. }
  destruct Hexp as [exported ->]. cbn [bind]. eexists. split; [reflexivity|].
  split; reflexivity.
Qed.

(** With a hash function that returns: once the tree has been rebuilt from
    the imported leaves, [importTreeData] raises an error exactly when the
    hex form of the rebuilt root differs from the stored [merkleRoot]; and
    for every tree that [buildMerkleTree] returns, exporting it and
    importing the export succeeds and gives back a tree with the same
    root. *)
Lemma importTreeData_root_check :
  (forall (treeData : TreeData) (leafHexes : list string)
          (rebuilt : MerkleTree),
      leaves treeData = Some leafHexes ->
      new_MerkleTree createHash (map Buffer.from_hex leafHexes) tree_options
      = Return rebuilt ->
      ((exists e, importTreeData createHash treeData = Throw e) <->
       Buffer.toString_hex (getRoot rebuilt) <> merkleRoot treeData)) /\
  (forall (certs : list Certificate) (tree : MerkleTree) (now : string),
      buildMerkleTree createHash certs = Return tree ->
      exists treeData reconstructed,
        exportTreeData tree certs now = Return treeData /\
        importTreeData createHash treeData = Return reconstructed /\
        getRoot reconstructed = getRoot tree).
Proof.
  split.
  - intros treeData leafHexes rebuilt Hleaves Hrebuilt.
    unfold importTreeData. rewrite Hleaves, Hrebuilt. cbn [bind].
    destruct (String.eqb (Buffer.toString_hex (getRoot rebuilt))
                         (merkleRoot treeData)) eqn:Heq; cbn [negb].
    + apply String.eqb_eq in Heq. split.
      * intros [e He]. discriminate.
      * intros Hne. congruence.
    + apply String.eqb_neq in Heq. split; [auto | eauto].
  - intros certs tree now Hbuild.
    pose proof Hbuild as Hinv.
    apply buildMerkleTree_inv in Hinv as (lvs & above & Hlvs & Habove & Htree).
    destruct (exportTreeData_returns certs lvs tree now Hlvs)
      as (treeData & Hexport & Hroot & Hleaves).
    exists treeData, tree. split; [assumption|]. split; [|reflexivity].
    unfold importTreeData. rewrite Hleaves, map_from_hex_toString_hex.
    assert (Hnew : new_MerkleTree createHash (getLeaves tree) tree_options
                   = Return tree).
    { subst tree. unfold getLeaves, new_MerkleTree.
      cbn [MerkleTreeJs.leaves hashLeaves tree_options bind].
      now rewrite Habove. }
    rewrite Hnew. cbn [bind]. rewrite Hroot, String.eqb_refl. reflexivity.
Qed.

(** Without a [leaves] array the import is refused before any tree is
    rebuilt; and when rebuilding throws, so does the import. *)
Lemma importTreeData_other_errors (treeData : TreeData) :
  (leaves treeData = None ->
   importTreeData createHash treeData
   = Throw (Error "Invalid tree data: missing or invalid leaves")) /\
  (forall leafHexes e,
      leaves treeData = Some leafHexes ->
      new_MerkleTree createHash (map Buffer.from_hex leafHexes) tree_options
      = Throw e ->
      importTreeData createHash treeData = Throw e).
Proof.
  unfold importTreeData. split.
  - now intros ->.
  - intros leafHexes e -> ->. reflexivity.
Qed.

End ImportExport.

(** With FNV-1a doing the hashing, the export of the batch of three sample
    certificates is imported again, and the tampered backup is refused. *)
Lemma importTreeData_root_check_witness :
  MerkleService.buildMerkleTree Sample.fnv1a32 Sample.three_certificates
  = Return Sample.three_leaf_tree /\
  (exists treeData reconstructed,
      MerkleService.exportTreeData Sample.three_leaf_tree
        Sample.three_certificates "2024-06-01T00:00:00.000Z"
      = Return treeData /\
      MerkleService.importTreeData Sample.fnv1a32 treeData
      = Return reconstructed /\
      MerkleTreeJs.getRoot reconstructed
      = MerkleTreeJs.getRoot Sample.three_leaf_tree) /\
  (exists e,
      MerkleService.importTreeData Sample.fnv1a32 Sample.tampered_backup
      = Throw e).
Proof.
  assert (Hbuild : MerkleService.buildMerkleTree Sample.fnv1a32
                     Sample.three_certificates = Return Sample.three_leaf_tree)
    by (vm_compute; reflexivity).
  destruct (importTreeData_root_check Sample.fnv1a32) as [Hiff Hround].
  split; [exact Hbuild|]. split.
  - exact (Hround Sample.three_certificates Sample.three_leaf_tree
             "2024-06-01T00:00:00.000Z" Hbuild).
  - apply (Hiff Sample.tampered_backup [Sample.h1; Sample.h2; Sample.h3]
             Sample.three_leaf_tree).
    + reflexivity.
    + vm_compute; reflexivity.
    + vm_compute; discriminate.
Defined.

(** With node's [crypto.createHash] in the hash function's place, the
    constructor returns for at most one leaf, where nothing is hashed, and
    throws on the first pair otherwise. *)
Lemma new_MerkleTree_node_createHash (lvs : list Buffer.t) :
  MerkleTreeJs.new_MerkleTree Crypto.createHash lvs MerkleService.tree_options
  = match lvs with
    | [] | [_] =>
        Return {| MerkleTreeJs.leaves := lvs; MerkleTreeJs.layers := [lvs];
                  MerkleTreeJs.options := MerkleService.tree_options |}
    | _ :: _ :: _ =>
        Throw (TypeError "The algorithm argument must be of type string")
    end.
Proof. destruct lvs as [|a [|b lvs]]; reflexivity. Qed.

(** C5.  What [importTreeData] does in the program, where the hash function
    handed to merkletreejs is [crypto.createHash]: without a [leaves] array
    it refuses the data; a backup of no leaf or of one leaf is rebuilt
    without hashing and then accepted exactly when the stored root is the
    hex form of the rebuilt root; and every backup of two or more leaves
    ends in the TypeError of [crypto.createHash], before any root is
    compared and whatever root is stored. *)
Theorem importTreeData_node_createHash (treeData : MerkleService.TreeData) :
  MerkleService.importTreeData Crypto.createHash treeData
  = match MerkleService.leaves treeData with
    | None => Throw (Error "Invalid tree data: missing or invalid leaves")
    | Some [] =>
        if String.eqb EmptyString (MerkleService.merkleRoot treeData)
        then Return {| MerkleTreeJs.leaves := [];
                       MerkleTreeJs.layers := [[]];
                       MerkleTreeJs.options := MerkleService.tree_options |}
        else Throw (Error "Tree reconstruction failed: root mismatch")
    | Some [leafHex] =>
        if String.eqb (Buffer.toString_hex (Buffer.from_hex leafHex))
                      (MerkleService.merkleRoot treeData)
        then Return {| MerkleTreeJs.leaves := [Buffer.from_hex leafHex];
                       MerkleTreeJs.layers := [[Buffer.from_hex leafHex]];
                       MerkleTreeJs.options := MerkleService.tree_options |}
        else Throw (Error "Tree reconstruction failed: root mismatch")
    | Some (_ :: _ :: _) =>
        Throw (TypeError "The algorithm argument must be of type string")
    end.
Proof.
  unfold MerkleService.importTreeData.
  destruct (MerkleService.leaves treeData) as [[|leafHex [|second rest]]|];
    [| | |reflexivity].
  - rewrite new_MerkleTree_node_createHash.
    destruct (MerkleService.merkleRoot treeData); reflexivity.
  - rewrite new_MerkleTree_node_createHash.
    cbn [map Js.bind MerkleTreeJs.getRoot MerkleTreeJs.layers last].
    destruct (String.eqb _ _); reflexivity.
  - rewrite new_MerkleTree_node_createHash. reflexivity.
Qed.

(** The backup of two leaves with the root SHA-256 gives for them is
    refused like any other; the backup of the one-leaf tree is restored. *)
Example two_leaf_backup_is_not_imported :
  MerkleService.importTreeData Crypto.createHash Sample.two_leaf_backup
  = Throw (TypeError "The algorithm argument must be of type string") /\
  MerkleService.importTreeData Crypto.createHash
    {| MerkleService.merkleRoot := Sample.h1;
       MerkleService.leaves := Some [Sample.h1];
       MerkleService.certificates := [];
       MerkleService.metadata :=
         MerkleService.metadata Sample.two_leaf_backup |}
  = Return Sample.one_leaf_tree.
Proof. split; vm_compute; reflexivity. Qed.

(* ================================================================== *)
(** ** MerkleService: length of inclusion proofs *)
(* ================================================================== *)

Section ProofLength.

Import MerkleTreeJs MerkleService.

Variable createHash : Buffer.t -> completion Buffer.t.

(** Every layer but the root contributes at most one sibling. *)
Lemma proof_loop_length (lys : list (list Buffer.t)) (index : nat) :
  halving lys ->
  List.length (last lys []) = 1 ->
  index < List.length (hd [] lys) ->
  List.length (proof_loop lys index) <= List.length lys - 1.
Proof.
  revert index. induction lys as [|layer rest IH]; intros index Hh Hlast Hi.
  - cbn in Hi. lia.
  - cbn [hd] in Hi. cbn [proof_loop].
    destruct rest as [|above rest].
    + cbn in Hlast.
      assert (index = 0) as -> by lia.
      cbn [Nat.odd Nat.add]. destruct layer as [|x [|y layer]]; cbn in *; lia.
    + destruct Hh as [Hlen Hh].
      change (last (layer :: above :: rest) []) with (last (above :: rest) [])
        in Hlast.
      assert (Hhalf : index / 2 < List.length above).
      { rewrite Hlen, <- Nat.div2_div.
        pose proof (Nat.div2_odd index) as Hd.
        pose proof (Nat.div2_odd (S (List.length layer))) as Hd'.
        destruct (Nat.odd index), (Nat.odd (S (List.length layer)));
          cbn [Nat.b2n] in Hd, Hd'; lia. }
      specialize (IH (index / 2) Hh Hlast Hhalf).
      cbn [List.length] in *.
      destruct (nth_error layer _); cbn [List.length]; lia.
Qed.

(** The proof of a certificate of the batch is never longer than the tree
    is deep. *)
Lemma proof_length_le_depth (certs : list Certificate) (tree : MerkleTree)
  (cert : Certificate) (h : string) :
  buildMerkleTree createHash certs = Return tree ->
  In cert certs -> commitment cert = Some h ->
  List.length (generateMerkleProof tree h) <= treeDepth (getTreeStats tree).
Proof.
  intros Hbuild Hin Hh.
  apply buildMerkleTree_inv in Hbuild as (lvs & above & Hlvs & Habove & ->).
  pose proof (mapM_length _ _ _ Hlvs) as Hlen.
  pose proof (commitments_decoded _ _ _ _ Hlvs Hin Hh) as Hleaf.
  unfold generateMerkleProof, getProof, getTreeStats, getLayers.
  cbn [MerkleTreeJs.leaves layers treeDepth].
  destruct (find_leaf_found (Buffer.from_hex h) lvs 0 None (or_intror Hleaf))
    as [k Hk].
  rewrite Hk, length_map.
  apply find_leaf_bounds in Hk as [Hk|Hk]; [discriminate|].
  apply proof_loop_length; cbn [hd]; try lia.
  - now apply (createHashes_halving createHash tree_options (List.length lvs)).
  - apply (createHashes_single_root createHash tree_options (List.length lvs));
      [lia | | assumption].
    intros ->. destruct Hk as [_ Hk]. cbn in Hk. lia.
Qed.

(** C7, on the code.  In a tree over three certificates, the proof
    generated for the third one has a single element, the parent of the
    first two leaves: [getProof] finds no sibling beside the last leaf of an
    odd layer, although the builder paired that leaf with itself.  The depth
    of the tree is 2. *)
Theorem three_leaf_proof_length (c1 c2 c3 : Certificate) (h3 : string)
  (tree : MerkleTree) :
  buildMerkleTree createHash [c1; c2; c3] = Return tree ->
  commitment c3 = Some h3 ->
  List.length (generateMerkleProof tree h3) = 1 /\
  treeDepth (getTreeStats tree) = 2.
Proof.
  intros Hbuild Hh.
  apply buildMerkleTree_inv in Hbuild as (lvs & above & Hlvs & Habove & ->).
  cbn [mapM] in Hlvs.
  apply bind_Return in Hlvs as (a & _ & Hlvs).
  apply bind_Return in Hlvs as (rest & Hrest & Hlvs).
  apply bind_Return in Hrest as (b & _ & Hrest).
  apply bind_Return in Hrest as (rest' & Hrest' & Hrest).
  apply bind_Return in Hrest' as (c & Hc & Hrest').
  rewrite Hh in Hc.
  assert (c = Buffer.from_hex h3) by (destruct h3; now inversion Hc).
  inversion Hrest'; inversion Hrest; inversion Hlvs; subst. clear Hrest' Hrest Hlvs Hc.
  cbn [List.length createHashes Nat.leb next_layer] in Habove.
  apply bind_Return in Habove as (layer1 & Hlayer1 & Habove).
  apply bind_Return in Hlayer1 as (p12 & _ & Hlayer1).
  apply bind_Return in Hlayer1 as (rest1 & Hrest1 & Hlayer1).
  cbn [duplicateOdd tree_options] in Hrest1.
  apply bind_Return in Hrest1 as (p33 & _ & Hrest1).
  inversion Hrest1; inversion Hlayer1; subst. clear Hrest1 Hlayer1.
  cbn [List.length createHashes Nat.leb next_layer] in Habove.
  apply bind_Return in Habove as (above1 & Habove1 & Habove).
  apply bind_Return in Habove1 as (layer2 & Hlayer2 & Habove1).
  apply bind_Return in Hlayer2 as (top & _ & Hlayer2).
  inversion Hlayer2; subst. clear Hlayer2.
  cbn in Habove1. inversion Habove1; inversion Habove; subst.
  unfold generateMerkleProof, getProof.
  cbn [MerkleTreeJs.leaves layers find_leaf].
  rewrite equals_refl. split; reflexivity.
Qed.

End ProofLength.

(** The one-element proof of the third leaf does not lead to the root even
    for merkletreejs's own [verify] under the options the tree was built
    with; the two-element proof of the first leaf does. *)
Example third_leaf_proof_does_not_verify :
  MerkleTreeJs.MerkleTree_verify Sample.fnv1a32
    (MerkleTreeJs.getProof Sample.three_leaf_tree (Buffer.from_hex Sample.h3))
    (Buffer.from_hex Sample.h3)
    (MerkleTreeJs.getRoot Sample.three_leaf_tree)
    MerkleService.tree_options = Return false /\
  MerkleTreeJs.MerkleTree_verify Sample.fnv1a32
    (MerkleTreeJs.getProof Sample.three_leaf_tree (Buffer.from_hex Sample.h1))
    (Buffer.from_hex Sample.h1)
    (MerkleTreeJs.getRoot Sample.three_leaf_tree)
    MerkleService.tree_options = Return true.
Proof. split; vm_compute; reflexivity. Qed.

(** C7 at the batch of three sample certificates. *)
Lemma three_leaf_proof_length_witness :
  MerkleService.buildMerkleTree Sample.fnv1a32 Sample.three_certificates
  = Return Sample.three_leaf_tree /\
  List.length
    (MerkleService.generateMerkleProof Sample.three_leaf_tree Sample.h3) = 1 /\
  MerkleService.treeDepth (MerkleService.getTreeStats Sample.three_leaf_tree)
  = 2.
Proof.
  assert (Hbuild : MerkleService.buildMerkleTree Sample.fnv1a32
                     Sample.three_certificates = Return Sample.three_leaf_tree)
    by (vm_compute; reflexivity).
  split; [exact Hbuild|].
  exact (three_leaf_proof_length Sample.fnv1a32
           (Sample.cert "STU001" Sample.h1) (Sample.cert "STU002" Sample.h2)
           (Sample.cert "STU003" Sample.h3) Sample.h3 Sample.three_leaf_tree
           Hbuild eq_refl).
Defined.

(* ================================================================== *)
(** ** Commitments and field elements *)
(* ================================================================== *)

Lemma hex_digits_value_byte (b : byte) (s : string) (acc : Z) :
  hex_digits_value (Buffer.byte_toString_hex b ++ s)%string acc
  = hex_digits_value s (256 * acc + Z.of_N (Byte.to_N b))%Z.
Proof.
  destruct b; cbn -[Z.mul Z.add hex_digits_value];
    cbn [hex_digits_value]; unfold hex_digit_value;
    cbn -[Z.mul Z.add hex_digits_value]; f_equal; lia.
Qed.

(** The digits [toString('hex')] prints always read back as a number, and
    that number is not negative. *)
Lemma hex_digits_value_toString_hex (buf : Buffer.t) (acc : Z) :
  (0 <= acc)%Z ->
  exists n, hex_digits_value (Buffer.toString_hex buf) acc = Some n /\ (0 <= n)%Z.
Proof.
  revert acc. induction buf as [|b buf IH]; intros acc Hacc.
  - cbn. eauto.
  - cbn [Buffer.toString_hex]. rewrite hex_digits_value_byte.
    apply IH. pose proof (N2Z.is_nonneg (Byte.to_N b)). lia.
Qed.

Lemma toString_hex_length (buf : Buffer.t) :
  String.length (Buffer.toString_hex buf) = 2 * List.length buf.
Proof.
  induction buf as [|b buf IH]; [reflexivity|].
  cbn [Buffer.toString_hex Buffer.byte_toString_hex append String.length List.length].
  rewrite IH. lia.
Qed.

Lemma BigInt_0x_toString_hex (buf : Buffer.t) :
  buf <> [] ->
  exists n, BigInt ("0x" ++ Buffer.toString_hex buf)%string = Return n
            /\ (0 <= n)%Z.
Proof.
  intros Hne. destruct buf as [|b buf]; [congruence|].
  destruct (hex_digits_value_toString_hex (b :: buf) 0 ltac:(lia))
    as (n & Hn & Hpos).
  exists n. split; [|assumption].
  cbn [append BigInt]. rewrite Hn.
  cbn [Buffer.toString_hex Buffer.byte_toString_hex append]. reflexivity.
Qed.

(** [toString()] prints a numeral that reads back as the number. *)
Lemma parse_decimal_Z_toString (n : Z) : parse_decimal (Z_toString n) = Some n.
Proof.
  unfold parse_decimal, Z_toString.
  rewrite NilZero.isi.
  - cbn. now rewrite DecimalZ.of_to.
  - destruct n; cbn; try discriminate.
    intros H. inversion H as [H']. now apply Unsigned.to_uint_nonnil in H'.
  - destruct n; cbn; try discriminate.
    intros H. inversion H as [H']. now apply Unsigned.to_uint_nonnil in H'.
Qed.

Section CommitmentFacts.

Variable sha256 : string -> Buffer.t.
Hypothesis sha256_length : forall data, List.length (sha256 data) = 32.

Lemma stringToFieldElement_returns (str : string) :
  exists n : Z,
    (0 <= n < BN254_modulus)%Z /\
    CertificateUtils.stringToFieldElement sha256 str = Return (Z_toString n) /\
    ZKProofService.stringToFieldElement sha256 str = Return (Z_toString n).
Proof.
  assert (Hne : sha256 str <> []).
  { intros H. pose proof (sha256_length str) as Hlen. rewrite H in Hlen.
    discriminate. }
  destruct (BigInt_0x_toString_hex (sha256 str) Hne) as (n & Hn & Hpos).
  exists (Z.rem n BN254_modulus).
  split; [|split].
  - apply Z.rem_bound_pos; [assumption|reflexivity].
  - unfold CertificateUtils.stringToFieldElement. now rewrite Hn.
  - unfold ZKProofService.stringToFieldElement. now rewrite Hn.
Qed.

(** C8. Both [stringToFieldElement] functions return, for every input
    string, the decimal numeral of an integer n with 0 <= n < the BN254
    scalar field modulus; and the [studentId] and [salt] that
    [prepareCircuitInputs] hands to the circuit are such numerals. *)
Theorem stringToFieldElement_in_field :
  (forall str : string,
      exists n : Z,
        (0 <= n < 21888242871839275222246405745257275088548364400416034343698204186575808495617)%Z /\
        CertificateUtils.stringToFieldElement sha256 str
        = Return (Z_toString n) /\
        ZKProofService.stringToFieldElement sha256 str
        = Return (Z_toString n) /\
        parse_decimal (Z_toString n) = Some n) /\
  (forall rawInput : ZKProofService.Input,
      exists (inputs : ZKProofService.CircuitInputs) (id slt : Z),
        ZKProofService.prepareCircuitInputs sha256 rawInput = Return inputs /\
        ZKProofService.circuit_studentId inputs = Z_toString id /\
        ZKProofService.circuit_salt inputs = Z_toString slt /\
        (0 <= id < 21888242871839275222246405745257275088548364400416034343698204186575808495617)%Z /\
        (0 <= slt < 21888242871839275222246405745257275088548364400416034343698204186575808495617)%Z).
Proof.
  split.
  - intros str.
    destruct (stringToFieldElement_returns str) as (n & Hn & Hcu & Hzk).
    exists n. repeat split; try assumption; try apply Hn.
    apply parse_decimal_Z_toString.
  - intros rawInput.
    destruct (stringToFieldElement_returns (ZKProofService.studentId rawInput))
      as (id & Hid & _ & Hzk_id).
    destruct (stringToFieldElement_returns (ZKProofService.salt rawInput))
      as (slt & Hslt & _ & Hzk_slt).
    unfold ZKProofService.prepareCircuitInputs.
    cbn [ZKProofService.calculateCommitment bind].
    rewrite Hzk_id, Hzk_slt. cbn [bind].
    eexists. exists id, slt. split; [reflexivity|].
    cbn [ZKProofService.circuit_studentId ZKProofService.circuit_salt].
    repeat split; try reflexivity; try apply Hid; apply Hslt.
Qed.

(** C3, as the code has it.  The commitment functions check nothing: for
    every record, whatever its grades, both return the hex SHA-256 digest (64
    characters) of the fields joined by a bar. *)
Theorem commitment_computed_for_any_grades (input : ZKProofService.Input) :
  let data :=
    join "|" (ZKProofService.studentId input :: ZKProofService.salt input
              :: map Z_toString (ZKProofService.subjects input)) in
  ZKProofService.calculateCommitment sha256 input
  = Return (Buffer.toString_hex (sha256 data)) /\
  CertificateUtils.hashStudentData sha256
    {| CertificateUtils.studentId := ZKProofService.studentId input;
       CertificateUtils.subjects := ZKProofService.subjects input |}
    (ZKProofService.salt input)
  = Return (Buffer.toString_hex (sha256 data)) /\
  String.length (Buffer.toString_hex (sha256 data)) = 64.
Proof.
  cbv zeta. split; [reflexivity|]. split; [reflexivity|].
  now rewrite toString_hex_length, sha256_length.
Qed.

End CommitmentFacts.

Lemma digest32_length (data : string) :
  List.length (Sample.digest32 data) = 32.
Proof. reflexivity. Qed.

(** C8 at the sample digest: the field element of the student id "STU001". *)
Lemma stringToFieldElement_in_field_witness :
  exists n : Z,
    (0 <= n < 21888242871839275222246405745257275088548364400416034343698204186575808495617)%Z /\
    CertificateUtils.stringToFieldElement Sample.digest32 "STU001"
    = Return (Z_toString n) /\
    ZKProofService.stringToFieldElement Sample.digest32 "STU001"
    = Return (Z_toString n) /\
    parse_decimal (Z_toString n) = Some n.
Proof.
  exact (proj1 (stringToFieldElement_in_field Sample.digest32 digest32_length)
           "STU001").
Defined.

(** C3 at the sample digest: the record with a grade of 150 is committed. *)
Lemma commitment_computed_for_any_grades_witness :
  ZKProofService.calculateCommitment Sample.digest32
    Sample.overgraded_input
  = Return (Buffer.toString_hex
              (Sample.digest32 "STU001|5a17|150|92|85|90|87")) /\
  CertificateUtils.hashStudentData Sample.digest32
    Sample.overgraded_student "5a17"
  = Return (Buffer.toString_hex
              (Sample.digest32 "STU001|5a17|150|92|85|90|87")) /\
  String.length (Buffer.toString_hex
                   (Sample.digest32 "STU001|5a17|150|92|85|90|87")) = 64.
Proof.
  exact (commitment_computed_for_any_grades Sample.digest32
           digest32_length Sample.overgraded_input).
Defined.

(** C3, as stated, fails: the record [overgraded_input] has a grade of 150,
    and for no hash function does its commitment computation throw. *)
Lemma out_of_range_grade_is_committed :
  (exists g, In g (ZKProofService.subjects Sample.overgraded_input)
             /\ (g < 0 \/ 100 < g)%Z) /\
  ~ (exists sha256 e,
        ZKProofService.calculateCommitment sha256
          Sample.overgraded_input = Throw e) /\
  ~ (exists sha256 e,
        CertificateUtils.hashStudentData sha256
          Sample.overgraded_student "5a17" = Throw e).
Proof.
  split; [|split].
  - exists 150%Z. cbn. split; [auto | lia].
  - intros (sha256 & e & H). discriminate H.
  - intros (sha256 & e & H). discriminate H.
Qed.

(* ================================================================== *)
(** ** ZKProofService: proof formats and verification *)
(* ================================================================== *)

Section VerificationFacts.

Import ZKProofService.

Variable KEYS_PATH : string.
Variable existsSync : string -> bool.
Variable readFileSync : string -> completion string.
Variable JSON_parse : string -> completion value.
Variable groth16_verify : value -> value -> value -> completion bool.

(** C4. [ZKProofService.verifyProof] fails closed: for every proof and every
    vector of public signals it returns a boolean; whenever its [try] block
    throws (the key file is missing or unreadable, the proof has not the
    shape [formatProofFromSolidity] reads, snarkjs throws while decoding),
    that boolean is [false]. No exception reaches the caller. *)
Theorem zk_verifyProof_fails_closed (proof publicSignals : value) :
  (exists b : bool,
      verifyProof KEYS_PATH existsSync readFileSync JSON_parse groth16_verify
        proof publicSignals = Return b) /\
  (forall e,
      verifyProof_try KEYS_PATH existsSync readFileSync JSON_parse
        groth16_verify proof publicSignals = Throw e ->
      verifyProof KEYS_PATH existsSync readFileSync JSON_parse groth16_verify
        proof publicSignals = Return false) /\
  (forall e,
      formatProofFromSolidity proof = Throw e ->
      verifyProof KEYS_PATH existsSync readFileSync JSON_parse groth16_verify
        proof publicSignals = Return false) /\
  (forall text verificationKey formattedProof e,
      readFileSync (path_join KEYS_PATH "verification_key.json")
      = Return text ->
      JSON_parse text = Return verificationKey ->
      formatProofFromSolidity proof = Return formattedProof ->
      groth16_verify verificationKey publicSignals formattedProof = Throw e ->
      verifyProof KEYS_PATH existsSync readFileSync JSON_parse groth16_verify
        proof publicSignals = Return false).
Proof.
  unfold verifyProof.
  split; [|split; [|split]].
  - destruct (verifyProof_try _ _ _ _ _ proof publicSignals) as [b|e];
      cbn [try_catch]; eauto.
  - now intros e ->.
  - intros e He. unfold verifyProof_try.
    destruct (existsSync _); cbn [negb]; [|reflexivity].
    destruct (readFileSync _) as [text|]; cbn [bind try_catch]; [|reflexivity].
    destruct (JSON_parse text); cbn [bind try_catch]; [|reflexivity].
    now rewrite He.
  - intros text verificationKey formattedProof e Hread Hparse Hfmt He.
    unfold verifyProof_try.
    destruct (existsSync _); cbn [negb]; [|reflexivity].
    rewrite Hread. cbn [bind]. rewrite Hparse. cbn [bind].
    rewrite Hfmt. cbn [bind]. now rewrite He.
Qed.

(** When nothing throws, the answer is snarkjs's. *)
Lemma zk_verifyProof_answer (proof publicSignals : value) (text : string)
  (verificationKey formattedProof : value) (isValid : bool) :
  existsSync (path_join KEYS_PATH "verification_key.json") = true ->
  readFileSync (path_join KEYS_PATH "verification_key.json") = Return text ->
  JSON_parse text = Return verificationKey ->
  formatProofFromSolidity proof = Return formattedProof ->
  groth16_verify verificationKey publicSignals formattedProof
  = Return isValid ->
  verifyProof KEYS_PATH existsSync readFileSync JSON_parse groth16_verify
    proof publicSignals = Return isValid.
Proof.
  intros Hexists Hread Hparse Hfmt Hverify.
  unfold verifyProof, verifyProof_try.
  rewrite Hexists. cbn [negb]. rewrite Hread. cbn [bind].
  rewrite Hparse. cbn [bind]. rewrite Hfmt. cbn [bind].
  now rewrite Hverify.
Qed.

End VerificationFacts.

(** A proof in snarkjs's own format, which is what the verify route passes
    on, has no [a]: [formatProofFromSolidity] throws on it. *)
Lemma formatProofFromSolidity_snarkjs_format :
  exists e,
    ZKProofService.formatProofFromSolidity Sample.snarkjs_proof
    = Throw e.
Proof. cbn. eauto. Qed.

Section FormatFacts.

Import ZKProofService.

(** The two formatters for the contract are the same function. *)
Lemma formatProofForContract_eq (proof : value) :
  CertificateUtils.formatProofForContract proof = formatProofForSolidity proof.
Proof. reflexivity. Qed.

Lemma is_array_of_3 (v : value) :
  is_array_of 3 v = true -> exists x y z, v = VArr [x; y; z].
Proof.
  destruct v as [| | | | |elems|]; try discriminate.
  destruct elems as [|x [|y [|z [|w elems]]]]; try discriminate. eauto.
Qed.

Lemma is_array_of_2 (v : value) :
  is_array_of 2 v = true -> exists x y, v = VArr [x; y].
Proof.
  destruct v as [| | | | |elems|]; try discriminate.
  destruct elems as [|x [|y [|z elems]]]; try discriminate. eauto.
Qed.

(** C10. For every proof of snarkjs's shape, formatting it for Solidity and
    back succeeds; the result has the first two coordinates of [pi_a] and of
    [pi_c] unchanged, and its first two [pi_b] rows are those of the
    original (the swap inside each row is undone by the second one).
    [formatProofForContract] computes the same Solidity form. *)
Theorem solidity_format_round_trip (proof : value) :
  snarkjs_proof_shape proof = true ->
  exists solidityProof back,
    formatProofForSolidity proof = Return solidityProof /\
    CertificateUtils.formatProofForContract proof = Return solidityProof /\
    formatProofFromSolidity solidityProof = Return back /\
    coordinate back "pi_a" 0 = coordinate proof "pi_a" 0 /\
    coordinate back "pi_a" 1 = coordinate proof "pi_a" 1 /\
    coordinate back "pi_c" 0 = coordinate proof "pi_c" 0 /\
    coordinate back "pi_c" 1 = coordinate proof "pi_c" 1 /\
    coordinate back "pi_b" 0 = coordinate proof "pi_b" 0 /\
    coordinate back "pi_b" 1 = coordinate proof "pi_b" 1.
Proof.
  intros Hshape.
  destruct proof as [| | | | | |fields]; try discriminate.
  cbn [snarkjs_proof_shape] in Hshape.
  apply andb_true_iff in Hshape as [Hshape Hc].
  apply andb_true_iff in Hshape as [Ha Hb].
  apply is_array_of_3 in Ha as (a0 & a1 & a2 & Ha).
  apply is_array_of_3 in Hc as (c0 & c1 & c2 & Hc).
  destruct (assoc "pi_b" fields) as [| | | | |rows|] eqn:Hrows;
    try discriminate.
  apply andb_true_iff in Hb as [Hlen Hpairs].
  destruct rows as [|r0 [|r1 [|r2 [|r3 rows]]]]; try discriminate.
  cbn [forallb] in Hpairs.
  apply andb_true_iff in Hpairs as [Hr0 Hpairs].
  apply andb_true_iff in Hpairs as [Hr1 _].
  apply is_array_of_2 in Hr0 as (b00 & b01 & ->).
  apply is_array_of_2 in Hr1 as (b10 & b11 & ->).
  unfold CertificateUtils.formatProofForContract, formatProofForSolidity,
    coordinate.
  cbn [get]. rewrite Ha, Hc, Hrows. cbn [get_index nth bind].
  do 2 eexists. split; [reflexivity|]. split; [reflexivity|].
  split; [reflexivity|]. cbn. repeat split; reflexivity.
Qed.

End FormatFacts.

(** C10 at the sample proof. *)
Lemma solidity_format_round_trip_witness :
  exists solidityProof back,
    ZKProofService.formatProofForSolidity Sample.snarkjs_proof
    = Return solidityProof /\
    CertificateUtils.formatProofForContract Sample.snarkjs_proof
    = Return solidityProof /\
    ZKProofService.formatProofFromSolidity solidityProof = Return back /\
    ZKProofService.coordinate back "pi_a" 0
    = ZKProofService.coordinate Sample.snarkjs_proof "pi_a" 0 /\
    ZKProofService.coordinate back "pi_a" 1
    = ZKProofService.coordinate Sample.snarkjs_proof "pi_a" 1 /\
    ZKProofService.coordinate back "pi_c" 0
    = ZKProofService.coordinate Sample.snarkjs_proof "pi_c" 0 /\
    ZKProofService.coordinate back "pi_c" 1
    = ZKProofService.coordinate Sample.snarkjs_proof "pi_c" 1 /\
    ZKProofService.coordinate back "pi_b" 0
    = ZKProofService.coordinate Sample.snarkjs_proof "pi_b" 0 /\
    ZKProofService.coordinate back "pi_b" 1
    = ZKProofService.coordinate Sample.snarkjs_proof "pi_b" 1.
Proof.
  exact (solidity_format_round_trip Sample.snarkjs_proof eq_refl).
Defined.

(* ================================================================== *)
(** ** Comparators over the field *)
(* ================================================================== *)

Section ComparatorFacts.

Import Circomlib.

Local Open Scope Z_scope.

Lemma p_value :
  p = 21888242871839275222246405745257275088548364400416034343698204186575808495617.
Proof. reflexivity. Qed.

Lemma F_range (x : Z) : 0 <= F x < p.
Proof. unfold F. apply Z.mod_pos_bound. now rewrite p_value. Qed.

Lemma F_small (x : Z) : 0 <= x < p -> F x = x.
Proof. unfold F. apply Z.mod_small. Qed.

(** The bits from position [i] on, weighted, add up to the number they are
    the bits of. *)
Lemma lc1_Num2Bits_out (n : nat) (x i : Z) :
  0 <= x -> 0 <= i ->
  lc1 (Num2Bits_out n x i) (2 ^ i) = 2 ^ i * ((x / 2 ^ i) mod 2 ^ Z.of_nat n).
Proof.
  intros Hx. revert i. induction n as [|n IH]; intros i Hi.
  - cbn [Num2Bits_out lc1]. change (2 ^ Z.of_nat 0) with 1.
    rewrite Z.mod_1_r. lia.
  - cbn [Num2Bits_out lc1].
    replace (2 ^ i + 2 ^ i) with (2 ^ (i + 1)) by (rewrite Z.pow_add_r; lia).
    rewrite IH by lia.
    rewrite Z.shiftr_div_pow2 by lia.
    change 1 with (Z.ones 1) at 1. rewrite Z.land_ones by lia.
    change (2 ^ 1) with 2.
    rewrite Nat2Z.inj_succ, Z.pow_succ_r by lia.
    rewrite (Z.rem_mul_r (x / 2 ^ i) 2 (2 ^ Z.of_nat n)) by lia.
    rewrite Z.pow_add_r, Z.div_div by lia.
    change (2 ^ 1) with 2. ring.
Qed.

(** [Num2Bits(9)] accepts exactly the field elements below 512. *)
Lemma Num2Bits_9 (x : Z) :
  0 <= x < p ->
  Num2Bits 9 x = if x <? 512 then Some (Num2Bits_out 9 x 0) else None.
Proof.
  intros Hx. unfold Num2Bits. rewrite (F_small x Hx).
  pose proof (lc1_Num2Bits_out 9 x 0 ltac:(lia) ltac:(lia)) as Hlc.
  change (2 ^ 0) with 1 in Hlc. rewrite Z.div_1_r, Z.mul_1_l in Hlc.
  rewrite Hlc. change (2 ^ Z.of_nat 9) with 512.
  pose proof (Z.mod_pos_bound x 512 ltac:(lia)) as Hm.
  rewrite F_small by (rewrite p_value in *; lia).
  destruct (x <? 512) eqn:Hlt.
  - apply Z.ltb_lt in Hlt. rewrite Z.mod_small by lia.
    now rewrite Z.eqb_refl.
  - apply Z.ltb_ge in Hlt.
    destruct (x mod 512 =? x) eqn:Heq; [|reflexivity].
    apply Z.eqb_eq in Heq. lia.
Qed.

(** Below 512, bit 8 tells whether the number has reached 256. *)
Lemma Num2Bits_out_bit8 (x : Z) :
  0 <= x < 512 ->
  nth 8 (Num2Bits_out 9 x 0) 0 = if 256 <=? x then 1 else 0.
Proof.
  intros Hx. cbn [Num2Bits_out nth Z.add Pos.add Pos.succ].
  rewrite Z.shiftr_div_pow2 by lia.
  change 1 with (Z.ones 1) at 1. rewrite Z.land_ones by lia.
  change (2 ^ 1) with 2. change (2 ^ 8) with 256.
  destruct (256 <=? x) eqn:Hle.
  - apply Z.leb_le in Hle.
    assert (x / 256 = 1) as ->
        by (symmetry; apply Z.div_unique with (x - 256); lia).
    reflexivity.
  - apply Z.leb_gt in Hle. now rewrite Z.div_small by lia.
Qed.

(** [LessThan(8)] in closed form: with y = in0 + 256 - in1 in the field, the
    witness is accepted when y < 512, and the output says whether
    y < 256. *)
Lemma LessThan_8 (in0 in1 : Z) :
  LessThan 8 in0 in1
  = let y := F (in0 + 256 - in1) in
    if y <? 512 then Some (if 256 <=? y then 0 else 1) else None.
Proof.
  unfold LessThan. change (2 ^ Z.of_nat 8) with 256. cbv zeta.
  pose proof (F_range (in0 + 256 - in1)) as Hy.
  rewrite Num2Bits_9 by assumption.
  destruct (F (in0 + 256 - in1) <? 512) eqn:Hlt; [|reflexivity].
  apply Z.ltb_lt in Hlt.
  rewrite Num2Bits_out_bit8 by lia.
  destruct (256 <=? F (in0 + 256 - in1)); reflexivity.
Qed.

End ComparatorFacts.

(* ================================================================== *)
(** ** The grade checks of CertificateVerifier *)
(* ================================================================== *)

Ltac field_arith :=
  unfold Circomlib.F in *; rewrite ?p_value in *;
  Z.div_mod_to_equations; lia.

Section GradeCheckFacts.

Import Circomlib Circuit.

Local Open Scope Z_scope.

(** One turn of the subject loop in closed form. *)
Lemma gradeCheck_closed (minPassingGrade subject : Z) :
  gradeCheck minPassingGrade subject
  = let y := F (minPassingGrade + 256 - F (subject + 1)) in
    let range := F (subject + 256 - F (100 + 1)) in
    if (y <? 512) && (range <? 256)
    then Some (if 256 <=? y then 0 else 1)
    else None.
Proof.
  unfold gradeCheck, GreaterEqThan, LessEqThan. rewrite !LessThan_8. cbv zeta.
  destruct (F (minPassingGrade + 256 - F (subject + 1)) <? 512);
    cbn [andb]; [|reflexivity].
  destruct (F (subject + 256 - F (100 + 1)) <? 512) eqn:H512.
  - destruct (256 <=? F (subject + 256 - F (100 + 1))) eqn:H256.
    + apply Z.leb_le in H256.
      destruct (F (subject + 256 - F (100 + 1)) <? 256) eqn:Hlt;
        [apply Z.ltb_lt in Hlt; lia | reflexivity].
    + apply Z.leb_gt in H256.
      destruct (F (subject + 256 - F (100 + 1)) <? 256) eqn:Hlt;
        [reflexivity | apply Z.ltb_ge in Hlt; lia].
  - apply Z.ltb_ge in H512.
    destruct (F (subject + 256 - F (100 + 1)) <? 256) eqn:Hlt;
      [apply Z.ltb_lt in Hlt; lia | reflexivity].
Qed.

(** Which subjects the check accepts, and what it answers, for a minimum
    grade of at most 255.  Besides the grades 0 to 100 the range check lets
    through the 155 field elements just below p; for those the comparison
    answers 0. *)
Lemma gradeCheck_cases (minPassingGrade subject out : Z) :
  0 <= subject < p -> 0 <= minPassingGrade <= 255 ->
  (gradeCheck minPassingGrade subject = Some out <->
   (subject <= 100 /\ out = (if minPassingGrade <=? subject then 1 else 0)) \/
   (p - 155 <= subject /\ minPassingGrade + (p - subject) <= 256 /\ out = 0)).
Proof.
  intros Hs HT. rewrite gradeCheck_closed. cbv zeta.
  assert (H101 : F (100 + 1) = 101) by reflexivity. rewrite H101.
  assert (Hrange : F (subject + 256 - 101)
                   = if subject <? p - 155 then subject + 155
                     else subject + 155 - p).
  { destruct (subject <? p - 155) eqn:Hlt;
      [apply Z.ltb_lt in Hlt | apply Z.ltb_ge in Hlt]; field_arith. }
  assert (Hsucc : F (subject + 1)
                  = if subject <? p - 1 then subject + 1 else 0).
  { destruct (subject <? p - 1) eqn:Hlt;
      [apply Z.ltb_lt in Hlt | apply Z.ltb_ge in Hlt]; field_arith. }
  rewrite Hrange, Hsucc.
  destruct (subject <? p - 155) eqn:Hlow;
    [apply Z.ltb_lt in Hlow | apply Z.ltb_ge in Hlow].
  - (* no wrap in the range check *)
    assert (Hlt1 : (subject <? p - 1) = true)
      by (apply Z.ltb_lt; rewrite p_value in *; lia).
    rewrite Hlt1.
    destruct (subject + 155 <? 256) eqn:Hr;
      [apply Z.ltb_lt in Hr | apply Z.ltb_ge in Hr].
    + assert (Hy : F (minPassingGrade + 256 - (subject + 1))
                   = minPassingGrade + 255 - subject) by field_arith.
      rewrite Hy.
      assert (Hacc : (minPassingGrade + 255 - subject <? 512) = true)
        by (apply Z.ltb_lt; lia).
      rewrite Hacc. cbn [andb].
      destruct (256 <=? minPassingGrade + 255 - subject) eqn:H256;
        [apply Z.leb_le in H256 | apply Z.leb_gt in H256];
        destruct (minPassingGrade <=? subject) eqn:Hcmp;
        try (apply Z.leb_le in Hcmp); try (apply Z.leb_gt in Hcmp);
        try lia.
      * split; [intros [= <-]; left; split; [lia | reflexivity]|].
        intros [[_ ->]|[H _]]; [reflexivity | rewrite p_value in *; lia].
      * split; [intros [= <-]; left; split; [lia | reflexivity]|].
        intros [[_ ->]|[H _]]; [reflexivity | rewrite p_value in *; lia].
    + rewrite andb_false_r. split; [discriminate|].
      intros [[H _]|[H _]]; rewrite p_value in *; lia.
  - (* the subject is one of the 155 elements below p *)
    assert (Hr : (subject + 155 - p <? 256) = true)
      by (apply Z.ltb_lt; lia).
    rewrite Hr, andb_true_r.
    assert (Hy : F (minPassingGrade + 256
                    - (if subject <? p - 1 then subject + 1 else 0))
                 = minPassingGrade + 255 + (p - subject)).
    { destruct (subject <? p - 1) eqn:Hlt;
        [apply Z.ltb_lt in Hlt | apply Z.ltb_ge in Hlt]; field_arith. }
    rewrite Hy.
    destruct (minPassingGrade + 255 + (p - subject) <? 512) eqn:Hacc;
      [apply Z.ltb_lt in Hacc | apply Z.ltb_ge in Hacc].
    + assert (H256 : (256 <=? minPassingGrade + 255 + (p - subject)) = true)
        by (apply Z.leb_le; lia).
      rewrite H256.
      split; [intros [= <-]; right; repeat split; lia|].
      intros [[H _]|[_ [_ ->]]]; [rewrite p_value in *; lia | reflexivity].
    + split; [discriminate|].
      intros [[H _]|[_ [H _]]]; rewrite p_value in *; lia.
Qed.

End GradeCheckFacts.

Section ThresholdFacts.

Import Circomlib Circuit.

Local Open Scope Z_scope.

(** Lowering the minimum grade keeps a subject accepted and keeps a passed
    subject passed. *)
Lemma gradeCheck_monotone (T T' subject out : Z) :
  0 <= subject < p -> 0 <= T' <= T -> T <= 255 ->
  gradeCheck T subject = Some out ->
  exists out', gradeCheck T' subject = Some out' /\ bit out'
               /\ (out = 1 -> out' = 1).
Proof.
  intros Hs HT' HT H.
  apply gradeCheck_cases in H; [|assumption || lia ..].
  destruct H as [[Hle ->]|[Hhigh [Hacc ->]]].
  - exists (if T' <=? subject then 1 else 0). split; [|split].
    + apply gradeCheck_cases; [assumption | lia |]. left. now split.
    + destruct (T' <=? subject); [now right | now left].
    + destruct (T <=? subject) eqn:Hcmp; [|discriminate].
      apply Z.leb_le in Hcmp. intros _.
      destruct (T' <=? subject) eqn:Hcmp'; [reflexivity|].
      apply Z.leb_gt in Hcmp'. lia.
  - exists 0. split; [|split].
    + apply gradeCheck_cases; [assumption | lia |]. right. repeat split; lia.
    + now left.
    + discriminate.
Qed.

(** The same, for the whole loop over the subjects. *)
Lemma gradeChecks_monotone (T T' : Z) (subjects outs : list Z) :
  Forall (fun s => 0 <= s < p) subjects -> 0 <= T' <= T -> T <= 255 ->
  gradeChecks T subjects = Some outs ->
  exists outs',
    gradeChecks T' subjects = Some outs' /\
    Forall2 (fun out out' => bit out' /\ (out = 1 -> out' = 1)) outs outs'.
Proof.
  intros Hs HT' HT. revert outs.
  induction Hs as [|s subjects Hs0 Hs IH]; intros outs H.
  - inversion H. exists []. split; [reflexivity | constructor].
  - cbn [gradeChecks] in H.
    destruct (gradeCheck T s) as [out|] eqn:Hout; [|discriminate].
    destruct (gradeChecks T subjects) as [rest|] eqn:Hrest; [|discriminate].
    inversion H; subst outs.
    destruct (gradeCheck_monotone T T' s out Hs0 HT' HT Hout)
      as (out' & Hout' & Hbit & Hmono).
    destruct (IH rest eq_refl) as (rest' & Hrest' & Hall).
    exists (out' :: rest'). split.
    + cbn [gradeChecks]. now rewrite Hout', Hrest'.
    + constructor; [now split | assumption].
Qed.

Lemma AND_bits (a b : Z) :
  bit a -> bit b -> AND a b = (if (a =? 1) && (b =? 1) then 1 else 0).
Proof. intros [-> | ->] [-> | ->]; reflexivity. Qed.

(** The chain of AND gates over bits is their conjunction. *)
Lemma fold_AND_bits (outs : list Z) (acc : Z) :
  bit acc -> Forall bit outs ->
  fold_left AND outs acc
  = if (acc =? 1) && forallb (Z.eqb 1) outs then 1 else 0.
Proof.
  intros Hacc Houts. revert acc Hacc.
  induction Houts as [|out outs Hout Houts IH]; intros acc Hacc.
  - cbn. destruct Hacc as [-> | ->]; reflexivity.
  - cbn [fold_left forallb]. rewrite IH.
    + rewrite (AND_bits acc out Hacc Hout).
      destruct Hacc as [-> | ->], Hout as [-> | ->]; cbn;
        try reflexivity; now destruct (forallb (Z.eqb 1) outs).
    + rewrite (AND_bits acc out Hacc Hout).
      destruct ((acc =? 1) && (out =? 1)); [now right | now left].
Qed.

Lemma allPassedSignal_bits (outs : list Z) (allPassed : Z) :
  Forall bit outs -> allPassedSignal outs = Some allPassed ->
  allPassed = if forallb (Z.eqb 1) outs then 1 else 0.
Proof.
  intros Houts H.
  destruct outs as [|first [|second rest]]; cbn [allPassedSignal] in H.
  - discriminate.
  - inversion H; subst. inversion Houts as [|? ? [-> | ->] _]; reflexivity.
  - inversion H; subst.
    inversion Houts as [|? ? Hfirst Houts']; subst.
    inversion Houts' as [|? ? Hsecond Hrest]; subst.
    rewrite fold_AND_bits; [|rewrite AND_bits by assumption;
                              destruct ((first =? 1) && (second =? 1));
                              [now right | now left] | assumption].
    rewrite AND_bits by assumption.
    destruct Hfirst as [-> | ->], Hsecond as [-> | ->]; cbn;
      try reflexivity; now destruct (forallb (Z.eqb 1) rest).
Qed.

(** [finalCheck] when nothing is required, when everything is, and when
    not every subject passed. *)
Lemma finalCheck_not_required (allPassed : Z) : finalCheck 0 allPassed = 1.
Proof. reflexivity. Qed.

Lemma finalCheck_required (allPassed : Z) :
  bit allPassed -> finalCheck 1 allPassed = allPassed.
Proof. intros [-> | ->]; reflexivity. Qed.

Lemma finalCheck_failed (requireAllPassed : Z) :
  0 <= requireAllPassed < p ->
  finalCheck requireAllPassed 0 = 1 -> requireAllPassed = 0.
Proof.
  intros Hr. unfold finalCheck, OR, NOT, AND.
  rewrite Z.mul_0_r. change (F 0) with 0.
  rewrite Z.mul_0_r, Z.sub_0_r, Z.add_0_r.
  intros H. field_arith.
Qed.

End ThresholdFacts.

(* ================================================================== *)
(** ** CertificateVerifier: the constraints of the template *)
(* ================================================================== *)

Section CircuitFacts.

Import Circomlib Circuit.

Local Open Scope Z_scope.

Variable Poseidon : list Z -> Z.

Lemma gradeCheck_is_bit (minPassingGrade subject out : Z) :
  gradeCheck minPassingGrade subject = Some out -> bit out.
Proof.
  rewrite gradeCheck_closed. cbv zeta.
  destruct (_ && _); [|discriminate].
  destruct (256 <=? _); intros [= <-]; [now left | now right].
Qed.

Lemma gradeChecks_are_bits (minPassingGrade : Z) (subjects outs : list Z) :
  gradeChecks minPassingGrade subjects = Some outs -> Forall bit outs.
Proof.
  revert outs. induction subjects as [|s subjects IH]; intros outs H.
  - inversion H. constructor.
  - cbn [gradeChecks] in H.
    destruct (gradeCheck minPassingGrade s) as [out|] eqn:Hout;
      [|discriminate].
    destruct (gradeChecks minPassingGrade subjects) as [rest|];
      [|discriminate].
    inversion H; subst outs. constructor.
    + now apply (gradeCheck_is_bit minPassingGrade s).
    + now apply IH.
Qed.

(** For grades between 0 and 100 and a minimum grade of at most 255, the
    checks accept and compare as integers do. *)
Lemma gradeChecks_honest (minPassingGrade : Z) (subjects : list Z) :
  0 <= minPassingGrade <= 255 ->
  Forall (fun s => 0 <= s <= 100) subjects ->
  gradeChecks minPassingGrade subjects
  = Some (map (fun s => if minPassingGrade <=? s then 1 else 0) subjects).
Proof.
  intros HT Hs. induction Hs as [|s subjects Hs0 Hs IH]; [reflexivity|].
  cbn [gradeChecks map]. rewrite IH.
  assert (Hcheck : gradeCheck minPassingGrade s
                   = Some (if minPassingGrade <=? s then 1 else 0)).
  { apply gradeCheck_cases; [rewrite p_value; lia | assumption |].
    left. split; [lia | reflexivity]. }
  now rewrite Hcheck.
Qed.

Lemma map_F_grades (subjects : list Z) :
  Forall (fun s => 0 <= s <= 100) subjects -> map F subjects = subjects.
Proof.
  induction 1 as [|s subjects Hs _ IH]; [reflexivity|].
  cbn [map]. rewrite IH, F_small by (rewrite p_value; lia). reflexivity.
Qed.

(** Whenever the constraints of the template are satisfied with
    [requireAllPassed] 0 or 1, [isValid] is the grade policy: 1 when
    nothing is required, and otherwise 1 exactly when every grade check
    answered 1 (for grades from 0 to 100 and a minimum grade of at most 255:
    when every grade reaches the minimum grade).  The second output is the
    Poseidon hash of studentId, salt and the grades. *)
Lemma constraints_isValid (studentId : Z) (subjects : list Z)
  (salt minPassingGrade requireAllPassed : Z) (out : Outputs) :
  constraints Poseidon studentId subjects salt minPassingGrade
    requireAllPassed = Some out ->
  requireAllPassed = 0 \/ requireAllPassed = 1 ->
  exists passed,
    gradeChecks (F minPassingGrade) (map F subjects) = Some passed /\
    Forall bit passed /\
    isValid out
    = Z.b2z (ThresholdSpec.gatePolicy (requireAllPassed =? 1)
               (forallb (Z.eqb 1) passed)) /\
    commitment out = Poseidon (F studentId :: F salt :: map F subjects) /\
    (0 <= minPassingGrade <= 255 ->
     Forall (fun s => 0 <= s <= 100) subjects ->
     passed = map (fun s => if minPassingGrade <=? s then 1 else 0) subjects).
Proof.
  unfold constraints. intros H Hr.
  destruct (gradeChecks (F minPassingGrade) (map F subjects))
    as [passed|] eqn:Hpassed; [|discriminate].
  destruct (allPassedSignal passed) as [allPassed|] eqn:Hall; [|discriminate].
  inversion H; subst out. cbn [isValid commitment].
  pose proof (gradeChecks_are_bits _ _ _ Hpassed) as Hbits.
  pose proof (allPassedSignal_bits _ _ Hbits Hall) as ->.
  exists passed. split; [reflexivity|]. split; [assumption|].
  split; [|split; [reflexivity|]].
  - destruct Hr as [-> | ->].
    + reflexivity.
    + change (F 1) with 1. cbn [Z.eqb Pos.eqb ThresholdSpec.gatePolicy].
      rewrite finalCheck_required
        by (destruct (forallb (Z.eqb 1) passed); [now right | now left]).
      now destruct (forallb (Z.eqb 1) passed).
  - intros HT Hgrades.
    rewrite (map_F_grades subjects Hgrades) in Hpassed.
    rewrite F_small in Hpassed by (rewrite p_value; lia).
    rewrite (gradeChecks_honest minPassingGrade subjects HT Hgrades)
      in Hpassed.
    now inversion Hpassed.
Qed.

Lemma Forall2_all_passed (outs outs' : list Z) :
  Forall2 (fun out out' => bit out' /\ (out = 1 -> out' = 1)) outs outs' ->
  Forall bit outs' /\
  (forallb (Z.eqb 1) outs = true -> forallb (Z.eqb 1) outs' = true).
Proof.
  induction 1 as [|out out' outs outs' [Hbit Hmono] _ [IHbits IHall]].
  - split; [constructor | reflexivity].
  - split; [now constructor|].
    cbn [forallb]. intros Hall. apply andb_true_iff in Hall as [Hout Hall].
    apply Z.eqb_eq in Hout. symmetry in Hout.
    rewrite (Hmono Hout), (IHall Hall). reflexivity.
Qed.

(** With the minimum grade inside the range of the 8-bit comparators (at
    most 255): if the constraints of the template are satisfied at minimum
    grade T with [isValid] 1, then for every T' with 0 <= T' <= T and the
    same other signals they are satisfied and [isValid] is 1 again. *)
Lemma constraints_threshold_monotone (studentId : Z) (subjects : list Z)
  (salt T T' requireAllPassed : Z) (out : Outputs) :
  constraints Poseidon studentId subjects salt T requireAllPassed
  = Some out ->
  isValid out = 1 ->
  0 <= T' <= T -> T <= 255 ->
  exists out',
    constraints Poseidon studentId subjects salt T' requireAllPassed
    = Some out' /\ isValid out' = 1.
Proof.
  unfold constraints. intros H Hvalid HT' HT.
  rewrite (F_small T) in H by (rewrite p_value; lia).
  rewrite (F_small T') by (rewrite p_value; lia).
  destruct (gradeChecks T (map F subjects)) as [outs|] eqn:Houts;
    [|discriminate].
  destruct (allPassedSignal outs) as [allPassed|] eqn:Hall; [|discriminate].
  inversion H; subst out. cbn [isValid] in Hvalid. clear H.
  assert (Hrange : Forall (fun s => 0 <= s < p) (map F subjects)).
  { apply Forall_forall. intros s Hs. apply in_map_iff in Hs as (x & <- & _).
    apply F_range. }
  destruct (gradeChecks_monotone T T' _ outs Hrange HT' HT Houts)
    as (outs' & Houts' & Hrel).
  rewrite Houts'.
  destruct (Forall2_all_passed outs outs' Hrel) as [Hbits' Hpass].
  pose proof (gradeChecks_are_bits _ _ _ Houts) as Hbits.
  pose proof (allPassedSignal_bits _ _ Hbits Hall) as HallPassed.
  assert (Hall' : exists allPassed', allPassedSignal outs' = Some allPassed').
  { destruct Hrel as [|? ? ? ? _ [|? ? ? ? _ _]]; cbn; eauto. }
  destruct Hall' as [allPassed' Hall']. rewrite Hall'.
  pose proof (allPassedSignal_bits _ _ Hbits' Hall') as HallPassed'.
  eexists. split; [reflexivity|]. cbn [isValid].
  destruct (forallb (Z.eqb 1) outs) eqn:Hforall.
  - rewrite (Hpass eq_refl) in HallPassed'. now subst.
  - subst allPassed.
    apply finalCheck_failed in Hvalid; [|apply F_range].
    rewrite Hvalid. apply finalCheck_not_required.
Qed.

End CircuitFacts.

(** On bits, [FinalValidation], the last template of
    [CertificateVerification], is the specification's formula. *)
Lemma FinalValidation_bits (merkleValid allPassed requireAllPassed : bool) :
  Circuit.FinalValidation (Z.b2z merkleValid) (Z.b2z allPassed)
    (Z.b2z requireAllPassed)
  = Z.b2z (ThresholdSpec.isValid merkleValid
             (ThresholdSpec.gatePolicy requireAllPassed allPassed)).
Proof. destruct merkleValid, allPassed, requireAllPassed; reflexivity. Qed.

(** The constraints at the grades of the specification's scenario: every
    grade reaches a minimum grade of 85, two of the five reach 90. *)
Example constraints_at_the_scenario :
  Circuit.constraints Sample.checksum Sample.studentId Sample.grades
    Sample.salt 85 1
  = Some {| Circuit.isValid := 1;
            Circuit.commitment :=
              Sample.checksum
                (Sample.studentId :: Sample.salt :: Sample.grades) |} /\
  Circuit.constraints Sample.checksum Sample.studentId Sample.grades
    Sample.salt 90 1
  = Some {| Circuit.isValid := 0;
            Circuit.commitment :=
              Sample.checksum
                (Sample.studentId :: Sample.salt :: Sample.grades) |}.
Proof. split; vm_compute; reflexivity. Qed.

(* ================================================================== *)
(** ** CertificateVerifier: no membership, and no circuit *)
(* ================================================================== *)

Section TemplateFacts.

Import Circomlib Circuit.

Local Open Scope Z_scope.

Lemma F_idempotent (x : Z) : F (F x) = F x.
Proof. unfold F. apply Z.mod_mod. rewrite p_value. lia. Qed.

(** C2.  The last gates of [CertificateVerifier] (lines 218 to 230) are
    those of [FinalValidation], the sibling template of the same file
    (lines 120 to 145), with the membership signal [merkleValid] held at 1:
    on bits, [isValid <== finalCheck.out] is the grade policy alone, where
    [FinalValidation] answers the specification's
    [merkleValid AND gatePolicy].  The template has no signal through which
    a root, a sibling or a path index could enter: its inputs are
    studentId, subjects, salt, minPassingGrade and requireAllPassed.  So
    for a certificate that is in no tree and grades that all pass, the
    gates of [CertificateVerifier] say 1 where the specification and
    [FinalValidation] say 0. *)
Theorem isValid_has_no_membership_factor :
  (forall requireAllPassed allPassed : Z,
      finalCheck requireAllPassed allPassed
      = FinalValidation 1 allPassed requireAllPassed) /\
  (forall requireAll allPassed : bool,
      finalCheck (Z.b2z requireAll) (Z.b2z allPassed)
      = Z.b2z (ThresholdSpec.gatePolicy requireAll allPassed)) /\
  (forall merkleValid requireAll allPassed : bool,
      FinalValidation (Z.b2z merkleValid) (Z.b2z allPassed)
        (Z.b2z requireAll)
      = Z.b2z (ThresholdSpec.isValid merkleValid
                 (ThresholdSpec.gatePolicy requireAll allPassed))) /\
  map name (filter is_input (declarations certificate_simple))
  = ["studentId"; "subjects"; "salt"; "minPassingGrade";
     "requireAllPassed"]%string /\
  finalCheck 1 1 = 1 /\
  FinalValidation 0 1 1 = 0 /\
  ThresholdSpec.isValid false (ThresholdSpec.gatePolicy true true) = false.
Proof.
  split; [|split; [|split; [|split; [|split; [|split]]]]].
  - intros requireAllPassed allPassed.
    unfold FinalValidation, finalCheck. cbv zeta.
    set (policy := NOT requireAllPassed + AND requireAllPassed allPassed
                   - NOT requireAllPassed * AND requireAllPassed allPassed).
    unfold OR. fold policy. unfold AND.
    replace (1 * F policy) with (F policy) by lia.
    symmetry. apply F_idempotent.
  - intros [|] [|]; reflexivity.
  - intros [|] [|] [|]; reflexivity.
  - reflexivity.
  - reflexivity.
  - reflexivity.
  - reflexivity.
Qed.


(** At the grades of the specification's scenario, with the thresholds 85
    and 40 of its example: there is no witness at either. *)
Example no_witness_at_the_scenario :
  Circuit.main Sample.checksum Sample.studentId Sample.grades Sample.salt
    85 1
  = Circuit.NotCompiled (Circuit.UnrecognizedToken "private") /\
  Circuit.main Sample.checksum Sample.studentId Sample.grades Sample.salt
    40 1
  = Circuit.NotCompiled (Circuit.UnrecognizedToken "private").
Proof. split; reflexivity. Qed.

End TemplateFacts.

(* ================================================================== *)
(** ** MerkleService: what the builder refuses and what it returns *)
(* ================================================================== *)

Lemma compare_eq (a b : Buffer.t) : Buffer.compare a b = Eq -> a = b.
Proof.
  revert b. induction a as [|x a IH]; intros [|y b] H; cbn in H;
    try discriminate; [reflexivity|].
  destruct (N.compare (Byte.to_N x) (Byte.to_N y)) eqn:Hxy; try discriminate.
  apply N.compare_eq in Hxy.
  assert (Some x = Some y) as [= ->]
      by (rewrite <- (Byte.of_to_N x), <- (Byte.of_to_N y); now f_equal).
  f_equal. now apply IH.
Qed.

Lemma equals_true (a b : Buffer.t) : Buffer.equals a b = true <-> a = b.
Proof.
  split.
  - unfold Buffer.equals. intros H. apply compare_eq.
    now destruct (Buffer.compare a b).
  - intros ->. apply equals_refl.
Qed.

Lemma mapM_app {A B : Type} (f : A -> completion B) (xs xs' : list A) :
  mapM f (xs ++ xs') = (ys <- mapM f xs ;; ys' <- mapM f xs' ;; Return (ys ++ ys')).
Proof.
  induction xs as [|x xs IH]; cbn [mapM app bind].
  - destruct (mapM f xs'); reflexivity.
  - destruct (f x) as [y|e]; cbn [bind]; [|reflexivity].
    rewrite IH. destruct (mapM f xs) as [ys|e]; cbn [bind]; [|reflexivity].
    destruct (mapM f xs'); reflexivity.
Qed.

Section BuildFacts.

Import MerkleTreeJs MerkleService.

Variable createHash : Buffer.t -> completion Buffer.t.

(** The conversion of the batch into leaves stops at the first certificate
    without a commitment. *)
Lemma commitments_missing (certs : list Certificate) :
  (exists cert, In cert certs /\
                (commitment cert = None \/ commitment cert = Some EmptyString)) ->
  mapM (fun cert =>
          match commitment cert with
          | None | Some EmptyString =>
              Throw (Error "Certificate missing commitment hash")
          | Some c => Return (Buffer.from_hex c)
          end) certs
  = Throw (Error "Certificate missing commitment hash").
Proof.
  induction certs as [|c certs IH]; intros (cert & Hin & Hmissing).
  - destruct Hin.
  - cbn [mapM].
    destruct (commitment c) as [[|ch rest]|] eqn:Hc; try reflexivity.
    cbn [bind]. rewrite IH; [reflexivity|].
    destruct Hin as [->|Hin]; [|eauto].
    rewrite Hc in Hmissing. destruct Hmissing; discriminate.
Qed.

Lemma commitments_present (certs : list Certificate) (lvs : list Buffer.t) :
  mapM (fun cert =>
          match commitment cert with
          | None | Some EmptyString =>
              Throw (Error "Certificate missing commitment hash")
          | Some c => Return (Buffer.from_hex c)
          end) certs = Return lvs ->
  Forall (fun cert => exists c, commitment cert = Some c /\ c <> EmptyString)
         certs /\
  map Some lvs
  = map (fun cert => option_map Buffer.from_hex (commitment cert)) certs.
Proof.
  revert lvs. induction certs as [|c certs IH]; intros lvs H; cbn [mapM] in H.
  - inversion H. split; [constructor | reflexivity].
  - apply bind_Return in H as (x & Hx & H).
    apply bind_Return in H as (xs & Hxs & H).
    injection H as <-. destruct (IH xs Hxs) as [Hall Hmap].
    destruct (commitment c) as [[|ch rest]|] eqn:Hc; try discriminate.
    injection Hx as <-. split.
    + constructor; [|assumption].
      exists (String ch rest). split; [exact Hc | discriminate].
    + cbn [map]. rewrite Hc, Hmap. reflexivity.
Qed.

(** X1. [buildMerkleTree] refuses an empty batch and any batch in which a
    certificate has no commitment or an empty one, with the error of the
    source and before anything is hashed; what it accepts is a non-empty
    batch in which every certificate carries a non-empty commitment. *)
Theorem buildMerkleTree_refuses :
  buildMerkleTree createHash []
  = Throw (Error "Cannot build Merkle tree from empty certificates array") /\
  (forall (certs : list Certificate) (cert : Certificate),
      In cert certs ->
      commitment cert = None \/ commitment cert = Some EmptyString ->
      buildMerkleTree createHash certs
      = Throw (Error "Certificate missing commitment hash")) /\
  (forall (certs : list Certificate) (tree : MerkleTree),
      buildMerkleTree createHash certs = Return tree ->
      certs <> [] /\
      Forall (fun cert => exists c, commitment cert = Some c /\ c <> EmptyString)
             certs).
Proof.
  split; [reflexivity|]. split.
  - intros certs cert Hin Hmissing. unfold buildMerkleTree.
    destruct certs as [|c certs]; [destruct Hin|].
    cbn [List.length Nat.eqb].
    rewrite commitments_missing by eauto. reflexivity.
  - intros certs tree H. split.
    + intros ->. discriminate H.
    + apply buildMerkleTree_inv in H as (lvs & above & Hlvs & _ & _).
      now apply commitments_present in Hlvs.
Qed.

End BuildFacts.

(* ================================================================== *)
(** ** MerkleService.verifyProof: empty proofs and 0x prefixes *)
(* ================================================================== *)

Section VerifyEdgeFacts.

Import MerkleTreeJs MerkleService.

Variable createHash : Buffer.t -> completion Buffer.t.

Lemma replace_0x_prefixed (s : string) :
  replace_first "0x" "" ("0x" ++ s)%string = s.
Proof.
  cbn. destruct s as [|c s]; [reflexivity|].
  cbn. f_equal.
  assert (H : forall t, String.substring 0 (String.length t) t = t).
  { induction t as [|d t IHt]; [reflexivity|]. cbn. now rewrite IHt. }
  apply H.
Qed.

(** X6. With an empty proof, [verifyProof] answers whether the commitment and
    the root decode to the same bytes, whatever the hash function is.
    [Buffer.from(s, 'hex')] stops at the first pair that is not hex, and the
    0x prefix is removed from the root only: a commitment written with the
    prefix decodes to no byte at all and is accepted against the empty
    root. *)
Theorem verifyProof_empty_proof :
  (forall commitmentHash merkleRoot : string,
      verifyProof createHash commitmentHash [] merkleRoot = Return true <->
      Buffer.from_hex commitmentHash
      = Buffer.from_hex (replace_first "0x" "" merkleRoot)) /\
  (forall commitmentHash merkleRoot : string,
      verifyProof createHash commitmentHash [] merkleRoot = Return false <->
      Buffer.from_hex commitmentHash
      <> Buffer.from_hex (replace_first "0x" "" merkleRoot)) /\
  (forall digits : string,
      verifyProof createHash ("0x" ++ digits)%string [] "" = Return true).
Proof.
  assert (Hrun : forall c r,
             verifyProof createHash c [] r
             = Return (Buffer.equals (Buffer.from_hex c)
                         (Buffer.from_hex (replace_first "0x" "" r))))
    by reflexivity.
  split; [|split].
  - intros c r. rewrite Hrun, <- equals_true.
    split; [now intros [= ->] | now intros ->].
  - intros c r. rewrite Hrun, <- equals_true.
    destruct (Buffer.equals _ _); split; congruence.
  - intros digits. rewrite Hrun. reflexivity.
Qed.

Lemma prefixed_siblings (sibs : list string) :
  Forall (fun s => Buffer.is_lower_hex s = true) sibs ->
  mapM (fun element =>
          s <- call_replace element "0x" "" ;;
          Return {| data := Buffer.from_hex s; position := left |})
       (map (fun s => VStr ("0x" ++ s)) sibs)
  = mapM (fun element =>
            s <- call_replace element "0x" "" ;;
            Return {| data := Buffer.from_hex s; position := left |})
         (map VStr sibs).
Proof.
  induction 1 as [|s sibs Hs _ IH]; [reflexivity|].
  cbn [map mapM call_replace bind].
  rewrite IH, replace_0x_prefixed, (replace_0x_lower_hex s Hs). reflexivity.
Qed.

(** X7. The root and the siblings may be written with or without a 0x prefix:
    for hex strings the answer of [verifyProof] is the same. *)
Theorem verifyProof_0x_prefix (commitmentHash merkleRoot : string)
  (siblings : list string) :
  Buffer.is_lower_hex merkleRoot = true ->
  Forall (fun s => Buffer.is_lower_hex s = true) siblings ->
  verifyProof createHash commitmentHash
    (map (fun s => VStr ("0x" ++ s)) siblings) ("0x" ++ merkleRoot)
  = verifyProof createHash commitmentHash (map VStr siblings) merkleRoot.
Proof.
  intros Hroot Hsibs. unfold verifyProof, verifyProof_try.
  now rewrite prefixed_siblings, replace_0x_prefixed,
    (replace_0x_lower_hex merkleRoot Hroot).
Qed.

End VerifyEdgeFacts.

(** A root and a sibling with and without the prefix. *)
Lemma verifyProof_0x_prefix_witness :
  MerkleService.verifyProof Sample.fnv1a32 Sample.h2
    (map (fun s => VStr ("0x" ++ s)) [Sample.h1]) ("0x" ++ Sample.h3)
  = MerkleService.verifyProof Sample.fnv1a32 Sample.h2
      (map VStr [Sample.h1]) Sample.h3.
Proof.
  apply (verifyProof_0x_prefix Sample.fnv1a32 Sample.h2 Sample.h3 [Sample.h1]).
  - reflexivity.
  - constructor; [reflexivity | constructor].
Defined.

(* ================================================================== *)
(** ** MerkleService: extending, exporting and restoring a tree *)
(* ================================================================== *)

Section ExtendFacts.

Import MerkleTreeJs MerkleService.

Variable createHash : Buffer.t -> completion Buffer.t.

(** X9. [exportTreeData] returns exactly when every certificate has a
    [commitment] property; the export lists the leaves of the tree in hex
    and the certificates in the order given, each with its identifier, its
    commitment and the proof [generateMerkleProof] gives for it. *)
Theorem exportTreeData_contents (tree : MerkleTree) (certs : list Certificate)
  (now : string) :
  ((exists treeData, exportTreeData tree certs now = Return treeData) <->
   Forall (fun cert => commitment cert <> None) certs) /\
  (forall treeData,
      exportTreeData tree certs now = Return treeData ->
      merkleRoot treeData = Buffer.toString_hex (getRoot tree) /\
      leaves treeData = Some (map Buffer.toString_hex (getLeaves tree)) /\
      map (fun exported => (exported_studentId exported,
                            Some (exported_commitment exported)))
          (certificates treeData)
      = map (fun cert => (studentId cert, commitment cert)) certs /\
      Forall (fun exported =>
                exported_proof exported
                = generateMerkleProof tree (exported_commitment exported))
             (certificates treeData) /\
      totalCertificates (metadata treeData) = List.length certs).
Proof.
  unfold exportTreeData.
  set (f := fun cert =>
              match commitment cert with
              | None =>
                  Throw (TypeError "The first argument must be of type string")
              | Some c =>
                  Return {| exported_studentId := studentId cert;
                            exported_commitment := c;
                            exported_proof := generateMerkleProof tree c |}
              end).
  assert (Hmap : forall exported,
             mapM f certs = Return exported ->
             Forall (fun cert => commitment cert <> None) certs /\
             map (fun x => (exported_studentId x, Some (exported_commitment x)))
                 exported
             = map (fun cert => (studentId cert, commitment cert)) certs /\
             Forall (fun x => exported_proof x
                              = generateMerkleProof tree (exported_commitment x))
                    exported).
  { induction certs as [|c certs IH]; intros exported H.
    - inversion H. repeat split; constructor.
    - cbn [mapM] in H.
      apply bind_Return in H as (x & Hx & H).
      apply bind_Return in H as (xs & Hxs & H).
      injection H as <-. destruct (IH xs Hxs) as (Hall & Hpairs & Hproofs).
      unfold f in Hx. destruct (commitment c) as [h|] eqn:Hc; [|discriminate].
      injection Hx as <-. split; [|split].
      + constructor; [congruence | assumption].
      + cbn [map exported_studentId exported_commitment].
        now rewrite Hc, Hpairs.
      + constructor; [reflexivity | assumption]. }
  split.
  - split.
    + intros [treeData H].
      apply bind_Return in H as (exported & Hexp & _).
      now apply Hmap in Hexp.
    + intros Hall.
      assert (Hret : exists exported, mapM f certs = Return exported).
      { clear Hmap. induction Hall as [|c certs Hc _ [xs IH]].
        - now exists [].
        - cbn [mapM]. unfold f at 1.
          destruct (commitment c) as [h|]; [|congruence].
          cbn [bind]. rewrite IH. cbn [bind]. eauto. }
      destruct Hret as [exported ->]. cbn [bind]. eauto.
  - intros treeData H.
    apply bind_Return in H as (exported & Hexp & H).
    injection H as <-.
    destruct (Hmap exported Hexp) as (_ & Hpairs & Hproofs).
    cbn [merkleRoot leaves certificates metadata totalCertificates].
    repeat split; assumption.
Qed.

(** X10. What a successful import guarantees: the data had a leaves array, the
    leaves of the returned tree are its decoded entries, and the stored root
    is, character by character, the lower-case hex form of the root of the
    returned tree (a root stored in upper case or with a 0x prefix is
    refused).  A backup without any leaf is restored, into a tree without
    nodes, exactly when its stored root is the empty string, although
    [buildMerkleTree] never builds such a tree. *)
Theorem importTreeData_accepts :
  (forall (treeData : TreeData) (tree : MerkleTree),
      importTreeData createHash treeData = Return tree ->
      exists leafHexes,
        leaves treeData = Some leafHexes /\
        getLeaves tree = map Buffer.from_hex leafHexes /\
        totalLeaves (getTreeStats tree) = List.length leafHexes /\
        merkleRoot treeData = Buffer.toString_hex (getRoot tree) /\
        Buffer.is_lower_hex (merkleRoot treeData) = true) /\
  (forall (root : string) (exported : list ExportedCertificate)
          (meta : Metadata),
      importTreeData createHash
        {| merkleRoot := root; leaves := Some []; certificates := exported;
           metadata := meta |}
      = if String.eqb root EmptyString
        then Return {| MerkleTreeJs.leaves := []; layers := [[]];
                       options := tree_options |}
        else Throw (Error "Tree reconstruction failed: root mismatch")).
Proof.
  split.
  - intros treeData tree H. unfold importTreeData in H.
    destruct (leaves treeData) as [leafHexes|]; [|discriminate H].
    apply bind_Return in H as (rebuilt & Hrebuilt & H).
    destruct (String.eqb (Buffer.toString_hex (getRoot rebuilt))
                         (merkleRoot treeData)) eqn:Hroot;
      cbn [negb] in H; [|discriminate H].
    injection H as <-. apply String.eqb_eq in Hroot.
    apply new_MerkleTree_inv in Hrebuilt as (above & _ & Htree).
    exists leafHexes. split; [reflexivity|].
    rewrite <- Hroot. subst rebuilt.
    unfold getLeaves, getTreeStats.
    cbn [MerkleTreeJs.leaves totalLeaves getLeaves].
    split; [reflexivity|]. split; [apply length_map|].
    split; [reflexivity | apply is_lower_hex_toString_hex].
  - intros root exported meta. unfold importTreeData. cbn.
    destruct root; reflexivity.
Qed.

End ExtendFacts.

(* ================================================================== *)
(** ** MerkleService with node's createHash: what the program builds *)
(* ================================================================== *)

Section NodeFacts.

Import MerkleTreeJs MerkleService.

(** The conversion of a batch into leaves either decodes every commitment or
    stops with the error of the first certificate that has none. *)
Lemma commitments_decided (certs : list Certificate) :
  mapM (fun cert =>
          match commitment cert with
          | None | Some EmptyString =>
              Throw (Error "Certificate missing commitment hash")
          | Some c => Return (Buffer.from_hex c)
          end) certs
  = if forallb (fun cert =>
                  match commitment cert with
                  | None | Some EmptyString => false
                  | Some _ => true
                  end) certs
    then Return (map (fun cert =>
                        match commitment cert with
                        | Some c => Buffer.from_hex c
                        | None => []
                        end) certs)
    else Throw (Error "Certificate missing commitment hash").
Proof.
  induction certs as [|c certs IH]; [reflexivity|].
  cbn [mapM forallb map]. rewrite IH.
  destruct (commitment c) as [[|ch rest]|]; try reflexivity.
  cbn [andb bind]. destruct (forallb _ certs); reflexivity.
Qed.

(** The outcomes of [buildMerkleTree] when the hash function is node's
    [crypto.createHash]. *)
Lemma buildMerkleTree_node_cases (certs : list Certificate) :
  buildMerkleTree Crypto.createHash certs
  = match certs with
    | [] =>
        Throw (Error "Cannot build Merkle tree from empty certificates array")
    | [cert] =>
        match commitment cert with
        | None | Some EmptyString =>
            Throw (Error "Certificate missing commitment hash")
        | Some c =>
            Return {| MerkleTreeJs.leaves := [Buffer.from_hex c];
                      layers := [[Buffer.from_hex c]];
                      options := tree_options |}
        end
    | _ :: _ :: _ =>
        if forallb (fun cert =>
                      match commitment cert with
                      | None | Some EmptyString => false
                      | Some _ => true
                      end) certs
        then Throw (TypeError "The algorithm argument must be of type string")
        else Throw (Error "Certificate missing commitment hash")
    end.
Proof.
  unfold buildMerkleTree. rewrite commitments_decided.
  destruct certs as [|c1 [|c2 rest]]; [reflexivity| |].
  - cbn [List.length Nat.eqb forallb map].
    destruct (commitment c1) as [[|ch s]|]; reflexivity.
  - cbn [List.length Nat.eqb].
    destruct (forallb _ (c1 :: c2 :: rest)); [|reflexivity].
    cbn [bind map]. now rewrite new_MerkleTree_node_createHash.
Qed.

(** A tree the program has built is the tree of one certificate. *)
Lemma buildMerkleTree_node_inv (certs : list Certificate) (tree : MerkleTree) :
  buildMerkleTree Crypto.createHash certs = Return tree ->
  exists cert c,
    certs = [cert] /\ commitment cert = Some c /\ c <> EmptyString /\
    tree = {| MerkleTreeJs.leaves := [Buffer.from_hex c];
              layers := [[Buffer.from_hex c]];
              options := tree_options |}.
Proof.
  rewrite buildMerkleTree_node_cases. intros H.
  destruct certs as [|c1 [|c2 rest]]; [discriminate H| |].
  - destruct (commitment c1) as [[|ch s]|] eqn:Hc; try discriminate H.
    injection H as <-. exists c1, (String ch s).
    repeat split; [assumption | discriminate].
  - destruct (forallb _ _); discriminate H.
Qed.

(** X2. The outcomes of [buildMerkleTree] in the program, where
    [crypto.createHash] is the hash function handed to merkletreejs: the
    errors of the two guards; for a batch of one certificate the tree whose
    only node is the decoded commitment, leaf and root at once (one leaf,
    depth 0, one node); and for every batch of two or more certificates
    that passes the guards the TypeError of [crypto.createHash], thrown at
    the first pair to be hashed. *)
Theorem buildMerkleTree_on_node (certs : list Certificate) :
  buildMerkleTree Crypto.createHash certs
  = match certs with
    | [] =>
        Throw (Error "Cannot build Merkle tree from empty certificates array")
    | [cert] =>
        match commitment cert with
        | None | Some EmptyString =>
            Throw (Error "Certificate missing commitment hash")
        | Some c =>
            Return {| MerkleTreeJs.leaves := [Buffer.from_hex c];
                      layers := [[Buffer.from_hex c]];
                      options := tree_options |}
        end
    | _ :: _ :: _ =>
        if forallb (fun cert =>
                      match commitment cert with
                      | None | Some EmptyString => false
                      | Some _ => true
                      end) certs
        then Throw (TypeError "The algorithm argument must be of type string")
        else Throw (Error "Certificate missing commitment hash")
    end /\
  (forall tree,
      buildMerkleTree Crypto.createHash certs = Return tree ->
      getTreeStats tree
      = {| totalLeaves := 1; treeDepth := 0;
           stats_merkleRoot := Buffer.toString_hex (getRoot tree);
           totalNodes := 1 |} /\
      getLeaves tree = [getRoot tree] /\
      map Some (getLeaves tree)
      = map (fun cert => option_map Buffer.from_hex (commitment cert)) certs).
Proof.
  split; [apply buildMerkleTree_node_cases|].
  intros tree H.
  apply buildMerkleTree_node_inv in H as (cert & c & -> & Hc & _ & ->).
  cbn [map option_map]. rewrite Hc. repeat split.
Qed.

(** X5. In a tree the program has built, [generateMerkleProof] returns the
    empty array for every commitment, that of the certificate and any
    other; and [verifyProof] on that proof and the root of the tree
    compares the decoded commitment with the root, without hashing. *)
Theorem generateMerkleProof_on_node (certs : list Certificate)
  (tree : MerkleTree) (commitmentHash : string) :
  buildMerkleTree Crypto.createHash certs = Return tree ->
  generateMerkleProof tree commitmentHash = [] /\
  verifyProof Crypto.createHash commitmentHash
    (generateMerkleProof tree commitmentHash)
    (Buffer.toString_hex (getRoot tree))
  = Return (Buffer.equals (Buffer.from_hex commitmentHash) (getRoot tree)).
Proof.
  intros H.
  apply buildMerkleTree_node_inv in H as (cert & c & _ & _ & _ & ->).
  assert (Hempty : generateMerkleProof
                     {| MerkleTreeJs.leaves := [Buffer.from_hex c];
                        layers := [[Buffer.from_hex c]];
                        options := tree_options |} commitmentHash = []).
  { unfold generateMerkleProof, getProof. cbn [MerkleTreeJs.leaves find_leaf].
    destruct (Buffer.equals _ _); reflexivity. }
  split; [exact Hempty|]. rewrite Hempty.
  unfold verifyProof, verifyProof_try. cbn [mapM bind].
  rewrite replace_0x_lower_hex by apply is_lower_hex_toString_hex.
  rewrite from_hex_toString_hex. reflexivity.
Qed.

(** X8. Adding certificates to a tree the program has built: with no new
    certificate the tree comes back as it is; with one or more,
    [addCertificatesToTree] throws a TypeError, that of [Buffer.from] for
    a certificate without commitment or that of [crypto.createHash] at the
    first pair to be hashed. *)
Theorem addCertificatesToTree_on_node (certs newCertificates : list Certificate)
  (tree : MerkleTree) :
  buildMerkleTree Crypto.createHash certs = Return tree ->
  addCertificatesToTree Crypto.createHash tree newCertificates
  = match newCertificates with
    | [] => Return tree
    | _ :: _ =>
        if forallb (fun cert =>
                      match commitment cert with
                      | None => false
                      | Some _ => true
                      end) newCertificates
        then Throw (TypeError "The algorithm argument must be of type string")
        else Throw (TypeError "The first argument must be of type string")
    end.
Proof.
  intros H.
  apply buildMerkleTree_node_inv in H as (cert & c & _ & _ & _ & ->).
  unfold addCertificatesToTree, getLeaves. cbn [MerkleTreeJs.leaves].
  assert (Hnew : mapM (fun cert =>
            match commitment cert with
            | None =>
                Throw (TypeError "The first argument must be of type string")
            | Some c => Return (Buffer.from_hex c)
            end) newCertificates
          = if forallb (fun cert =>
                          match commitment cert with
                          | None => false
                          | Some _ => true
                          end) newCertificates
            then Return (map (fun cert =>
                                match commitment cert with
                                | Some c => Buffer.from_hex c
                                | None => []
                                end) newCertificates)
            else Throw (TypeError "The first argument must be of type string")).
  { induction newCertificates as [|n rest IH]; [reflexivity|].
    cbn [mapM forallb map]. rewrite IH.
    destruct (commitment n); [|reflexivity].
    cbn [andb bind]. destruct (forallb _ rest); reflexivity. }
  rewrite Hnew.
  destruct newCertificates as [|n rest]; [reflexivity|].
  destruct (forallb _ (n :: rest)); [|reflexivity].
  cbn [bind map app]. now rewrite new_MerkleTree_node_createHash.
Qed.

End NodeFacts.

(** The batch of one sample certificate: its tree has one node, and a
    commitment that is not in the batch gets the empty proof. *)
Lemma generateMerkleProof_on_node_witness :
  MerkleService.buildMerkleTree Crypto.createHash Sample.one_certificate
  = Return Sample.one_leaf_tree /\
  MerkleService.generateMerkleProof Sample.one_leaf_tree Sample.h4 = [] /\
  MerkleService.verifyProof Crypto.createHash Sample.h4
    (MerkleService.generateMerkleProof Sample.one_leaf_tree Sample.h4)
    (Buffer.toString_hex (MerkleTreeJs.getRoot Sample.one_leaf_tree))
  = Return (Buffer.equals (Buffer.from_hex Sample.h4)
              (MerkleTreeJs.getRoot Sample.one_leaf_tree)).
Proof.
  assert (Hbuild : MerkleService.buildMerkleTree Crypto.createHash
                     Sample.one_certificate = Return Sample.one_leaf_tree)
    by (vm_compute; reflexivity).
  split; [exact Hbuild|].
  exact (generateMerkleProof_on_node Sample.one_certificate
           Sample.one_leaf_tree Sample.h4 Hbuild).
Defined.

(** Adding the second sample certificate to the tree of the first throws. *)
Lemma addCertificatesToTree_on_node_witness :
  MerkleService.buildMerkleTree Crypto.createHash Sample.one_certificate
  = Return Sample.one_leaf_tree /\
  MerkleService.addCertificatesToTree Crypto.createHash Sample.one_leaf_tree
    [Sample.cert "STU002" Sample.h2]
  = Throw (TypeError "The algorithm argument must be of type string").
Proof.
  assert (Hbuild : MerkleService.buildMerkleTree Crypto.createHash
                     Sample.one_certificate = Return Sample.one_leaf_tree)
    by (vm_compute; reflexivity).
  split; [exact Hbuild|].
  exact (addCertificatesToTree_on_node Sample.one_certificate
           [Sample.cert "STU002" Sample.h2] Sample.one_leaf_tree Hbuild).
Defined.

(* ================================================================== *)
(** ** The validators of the Solidity proof format *)
(* ================================================================== *)

Section ValidateFacts.

Import ZKProofService.

(** A truthy answer of an [&&] chain is the value of its last operand, and
    every operand before it was truthy. *)
Lemma and_chain_truthy (first : value) (rest : list (completion value))
  (answer : value) :
  and_chain first rest = Return answer -> truthy answer = true ->
  truthy first = true /\
  Forall (fun operand => exists v, operand = Return v /\ truthy v = true) rest.
Proof.
  revert first. induction rest as [|next rest IH]; intros first H Hanswer.
  - injection H as ->. split; [assumption | constructor].
  - cbn [and_chain] in H. destruct (truthy first) eqn:Hfirst.
    + apply bind_Return in H as (v & Hnext & H).
      destruct (IH v H Hanswer) as [Hv Hrest].
      split; [reflexivity|]. constructor; [eauto | assumption].
    + injection H as ->. congruence.
Qed.

Lemma isArray_at_true (proof : value) (name : string) (v : value) :
  isArray_at proof name = Return v -> truthy v = true ->
  exists fields elems, proof = VObj fields /\ assoc name fields = VArr elems.
Proof.
  unfold isArray_at. intros H Hv.
  apply bind_Return in H as (x & Hx & H). injection H as <-.
  destruct x; try discriminate Hv.
  destruct proof; try discriminate Hx. injection Hx as Hx. eauto.
Qed.

Lemma length_2_at_true (fields : list (string * value)) (name : string)
  (elems : list value) (v : value) :
  assoc name fields = VArr elems ->
  length_2_at (VObj fields) name = Return v -> truthy v = true ->
  exists x y, elems = [x; y].
Proof.
  unfold length_2_at. cbn [get bind]. intros -> H Hv.
  cbn [get_length bind] in H. injection H as <-.
  cbn [truthy strict_equals_num] in Hv. apply Z.eqb_eq in Hv.
  destruct elems as [|x [|y [|z elems]]]; cbn [List.length] in Hv; try lia.
  eauto.
Qed.

Lemma isArray_row_true (fields : list (string * value)) (rows : list value)
  (i : nat) (v : value) :
  assoc "b" fields = VArr rows ->
  isArray_row (VObj fields) i = Return v -> truthy v = true ->
  exists elems, nth i rows VUndefined = VArr elems.
Proof.
  unfold isArray_row. cbn [get bind]. intros -> H Hv.
  cbn [get_index bind] in H. injection H as <-.
  destruct (nth i rows VUndefined); try discriminate Hv. eauto.
Qed.

Lemma length_2_row_true (fields : list (string * value)) (rows : list value)
  (i : nat) (elems : list value) (v : value) :
  assoc "b" fields = VArr rows -> nth i rows VUndefined = VArr elems ->
  length_2_row (VObj fields) i = Return v -> truthy v = true ->
  exists x y, elems = [x; y].
Proof.
  unfold length_2_row. cbn [get bind]. intros -> Hrow H Hv.
  cbn [get_index bind] in H. rewrite Hrow in H.
  cbn [get_length bind] in H. injection H as <-.
  cbn [truthy strict_equals_num] in Hv. apply Z.eqb_eq in Hv.
  destruct elems as [|x [|y [|z elems]]]; cbn [List.length] in Hv; try lia.
  eauto.
Qed.

(** The shape both validators ask for. *)
Lemma shape_conjuncts_true (proof : value)
  (more : list (completion value)) :
  Forall (fun operand => exists v, operand = Return v /\ truthy v = true)
    ([isArray_at proof "a"; length_2_at proof "a";
      isArray_at proof "b"; length_2_at proof "b";
      isArray_at proof "c"; length_2_at proof "c";
      isArray_row proof 0; length_2_row proof 0;
      isArray_row proof 1; length_2_row proof 1] ++ more) ->
  exists fields a0 a1 b00 b01 b10 b11 c0 c1,
    proof = VObj fields /\
    assoc "a" fields = VArr [a0; a1] /\
    assoc "b" fields = VArr [VArr [b00; b01]; VArr [b10; b11]] /\
    assoc "c" fields = VArr [c0; c1].
Proof.
  cbn [app]. intros H.
  repeat match goal with
         | H : Forall _ (_ :: _) |- _ =>
             let v := fresh "v" in
             let Hop := fresh "Hop" in
             let Hv := fresh "Hv" in
             inversion H as [|? ? (v & Hop & Hv) ?]; subst; clear H
         end.
  destruct (isArray_at_true _ _ _ Hop Hv) as (fields & a & -> & Ha).
  destruct (length_2_at_true _ _ _ _ Ha Hop0 Hv0) as (a0 & a1 & ->).
  destruct (isArray_at_true _ _ _ Hop1 Hv1) as (fields' & b & [= <-] & Hb).
  destruct (length_2_at_true _ _ _ _ Hb Hop2 Hv2) as (r0 & r1 & ->).
  destruct (isArray_at_true _ _ _ Hop3 Hv3) as (fields' & c & [= <-] & Hc).
  destruct (length_2_at_true _ _ _ _ Hc Hop4 Hv4) as (c0 & c1 & ->).
  destruct (isArray_row_true _ _ _ _ Hb Hop5 Hv5) as (row0 & Hrow0).
  destruct (length_2_row_true _ _ _ _ _ Hb Hrow0 Hop6 Hv6) as (b00 & b01 & ->).
  destruct (isArray_row_true _ _ _ _ Hb Hop7 Hv7) as (row1 & Hrow1).
  destruct (length_2_row_true _ _ _ _ _ Hb Hrow1 Hop8 Hv8) as (b10 & b11 & ->).
  cbn [nth] in Hrow0, Hrow1. subst r0 r1.
  exists fields, a0, a1, b00, b01, b10, b11, c0, c1. auto.
Qed.

Lemma and_chain_bools (first : value) (rest : list (completion value))
  (answer : value) :
  and_chain first rest = Return answer -> truthy answer = true ->
  rest <> [] ->
  Forall (fun operand => forall v, operand = Return v -> exists b, v = VBool b)
         rest ->
  answer = VBool true.
Proof.
  revert first. induction rest as [|next rest IH]; intros first H Hanswer Hne Hb.
  - congruence.
  - inversion Hb as [|? ? Hnext' Hrest]; subst.
    cbn [and_chain] in H. destruct (truthy first) eqn:Hfirst.
    + apply bind_Return in H as (v & Hnext & H).
      destruct rest as [|next' rest].
      * cbn in H. injection H as ->.
        destruct (Hnext' _ Hnext) as [b ->]. cbn in Hanswer. now subst.
      * apply (IH v); try assumption. discriminate.
    + injection H as ->. congruence.
Qed.

Lemma every_string_total (elems : list value) :
  exists ok, everyM (fun x => Return (is_string x)) elems = Return ok.
Proof.
  induction elems as [|x elems [ok IH]]; cbn [everyM bind]; [eauto|].
  destruct (is_string x); eauto.
Qed.

(** [CertificateUtils.validateProofFormat] has no [try], and needs none. *)
Lemma CertificateUtils_validateProofFormat_returns (proof : value) :
  exists answer, CertificateUtils.validateProofFormat proof = Return answer.
Proof.
  unfold CertificateUtils.validateProofFormat.
  destruct (truthy proof) eqn:Hproof; [|cbn [and_chain]; rewrite Hproof; eauto].
  cbn [and_chain]. rewrite Hproof.
  assert (Hget : forall name, exists x, get proof name = Return x).
  { intros name. destruct proof; cbn; try discriminate Hproof; eauto. }
  unfold isArray_at at 1. destruct (Hget "a") as [a Ha]. rewrite Ha.
  cbn [bind truthy].
  destruct a as [| | | | |a|]; cbn [Array_isArray]; eauto.
  unfold length_2_at at 1. rewrite Ha. cbn [bind get_length strict_equals_num truthy].
  destruct (Z.of_nat (List.length a) =? 2)%Z eqn:Hla; eauto.
  unfold isArray_at at 1. destruct (Hget "b") as [b Hb]. rewrite Hb.
  cbn [bind truthy].
  destruct b as [| | | | |b|]; cbn [Array_isArray]; eauto.
  unfold length_2_at at 1. rewrite Hb. cbn [bind get_length strict_equals_num truthy].
  destruct (Z.of_nat (List.length b) =? 2)%Z eqn:Hlb; eauto.
  unfold isArray_at at 1. destruct (Hget "c") as [c Hc]. rewrite Hc.
  cbn [bind truthy].
  destruct c as [| | | | |c|]; cbn [Array_isArray]; eauto.
  unfold length_2_at at 1. rewrite Hc. cbn [bind get_length strict_equals_num truthy].
  destruct (Z.of_nat (List.length c) =? 2)%Z eqn:Hlc; eauto.
  apply Z.eqb_eq in Hlb.
  destruct b as [|r0 [|r1 [|r2 b]]]; cbn [List.length] in Hlb; try lia.
  unfold isArray_row at 1. rewrite Hb. cbn [bind get_index nth truthy].
  destruct r0 as [| | | | |r0|]; cbn [Array_isArray]; eauto.
  unfold length_2_row at 1. rewrite Hb.
  cbn [bind get_index nth get_length strict_equals_num truthy].
  destruct (Z.of_nat (List.length r0) =? 2)%Z eqn:Hl0; eauto.
  unfold isArray_row at 1. rewrite Hb. cbn [bind get_index nth truthy].
  destruct r1 as [| | | | |r1|]; cbn [Array_isArray]; eauto.
  unfold length_2_row at 1. rewrite Hb.
  cbn [bind get_index nth get_length strict_equals_num truthy].
  destruct (Z.of_nat (List.length r1) =? 2)%Z eqn:Hl1; eauto.
  unfold every_string_at at 1. rewrite Ha. cbn [bind call_every].
  destruct (every_string_total a) as [oka ->]. cbn [bind truthy].
  destruct oka; eauto.
  unfold every_row_of_strings. rewrite Hb. cbn [bind call_every everyM].
  destruct (every_string_total r0) as [ok0 ->]. cbn [bind].
  destruct ok0; cbn [bind truthy]; eauto.
  destruct (every_string_total r1) as [ok1 ->]. cbn [bind].
  destruct ok1; cbn [bind truthy]; eauto.
  unfold every_string_at. rewrite Hc. cbn [bind call_every].
  destruct (every_string_total c) as [okc ->]. cbn [bind]. eauto.
Qed.

Lemma conjuncts_are_booleans (proof : value) :
  Forall (fun operand => forall v, operand = Return v -> exists b, v = VBool b)
    [isArray_at proof "a"; length_2_at proof "a";
     isArray_at proof "b"; length_2_at proof "b";
     isArray_at proof "c"; length_2_at proof "c";
     isArray_row proof 0; length_2_row proof 0;
     isArray_row proof 1; length_2_row proof 1;
     every_string_at proof "a";
     every_row_of_strings proof;
     every_string_at proof "c"].
Proof.
  repeat constructor; intros v H;
    unfold isArray_at, length_2_at, isArray_row, length_2_row,
      every_string_at, every_row_of_strings in H;
    repeat (let x := fresh "x" in
            let Hx := fresh "Hx" in
            apply bind_Return in H as (x & Hx & H));
    injection H as <-; eauto.
Qed.

(** X12. What the two validators guarantee.  [CertificateUtils.validateProofFormat]
    never throws, and its only truthy answer is [true]; a proof it accepts
    is accepted by [ZKProofService.validateProofFormat]; and a proof that one
    accepts is a proof [formatProofFromSolidity] can read: the conversion
    returns, and its result has the shape snarkjs expects. *)
Theorem validateProofFormat_guards (proof : value) :
  (exists answer,
      CertificateUtils.validateProofFormat proof = Return answer /\
      (truthy answer = true -> answer = VBool true)) /\
  (CertificateUtils.validateProofFormat proof = Return (VBool true) ->
   validateProofFormat proof = Return (VBool true)) /\
  (validateProofFormat proof = Return (VBool true) ->
   exists formatted,
     formatProofFromSolidity proof = Return formatted /\
     snarkjs_proof_shape formatted = true).
Proof.
  split; [|split].
  - destruct (CertificateUtils_validateProofFormat_returns proof)
      as [answer Hanswer].
    exists answer. split; [assumption|]. intros Htruthy.
    apply (and_chain_bools _ _ _ Hanswer Htruthy); [discriminate|].
    apply conjuncts_are_booleans.
  - intros H. unfold CertificateUtils.validateProofFormat in H.
    apply and_chain_truthy in H as [_ H]; [|reflexivity].
    apply (shape_conjuncts_true proof
             [every_string_at proof "a"; every_row_of_strings proof;
              every_string_at proof "c"]) in H
      as (fields & a0 & a1 & b00 & b01 & b10 & b11 & c0 & c1
          & -> & Ha & Hb & Hc).
    unfold validateProofFormat, isArray_at, length_2_at, isArray_row,
      length_2_row.
    cbn [get]. rewrite Ha, Hb, Hc. reflexivity.
  - intros H. unfold validateProofFormat in H.
    destruct (and_chain proof _) as [answer|e] eqn:Hchain;
      cbn [try_catch] in H; [|discriminate H].
    injection H as ->.
    apply and_chain_truthy in Hchain as [_ H]; [|reflexivity].
    apply (shape_conjuncts_true proof []) in H
      as (fields & a0 & a1 & b00 & b01 & b10 & b11 & c0 & c1
          & -> & Ha & Hb & Hc).
    unfold formatProofFromSolidity. cbn [get]. rewrite Ha, Hb, Hc.
    cbn [get_index nth bind]. eexists. split; reflexivity.
Qed.

(** [formatProofForSolidity] returns nothing but an object of two points
    of two coordinates and one of two rows of two; such an object passes the
    service's validator and is read by [formatProofFromSolidity]. *)
Lemma formatProofForSolidity_returned (proof solidityProof : value) :
  formatProofForSolidity proof = Return solidityProof ->
  exists a0 a1 b00 b01 b10 b11 c0 c1,
    solidityProof
    = VObj [("a", VArr [a0; a1]);
            ("b", VArr [VArr [b00; b01]; VArr [b10; b11]]);
            ("c", VArr [c0; c1])].
Proof.
  intros H. unfold formatProofForSolidity in H.
  repeat (let x := fresh "x" in
          let Hx := fresh "Hx" in
          apply bind_Return in H as (x & Hx & H)).
  injection H as <-. do 8 eexists. reflexivity.
Qed.

Lemma solidity_object_is_readable (a0 a1 b00 b01 b10 b11 c0 c1 : value) :
  validateProofFormat
    (VObj [("a", VArr [a0; a1]);
           ("b", VArr [VArr [b00; b01]; VArr [b10; b11]]);
           ("c", VArr [c0; c1])]) = Return (VBool true) /\
  formatProofFromSolidity
    (VObj [("a", VArr [a0; a1]);
           ("b", VArr [VArr [b00; b01]; VArr [b10; b11]]);
           ("c", VArr [c0; c1])])
  = Return (VObj [("pi_a", VArr [a0; a1; VStr "1"]);
                  ("pi_b", VArr [VArr [b01; b00]; VArr [b11; b10];
                                 VArr [VStr "1"; VStr "0"]]);
                  ("pi_c", VArr [c0; c1; VStr "1"]);
                  ("protocol", VStr "groth16")]).
Proof. split; reflexivity. Qed.

(** X13. Whatever [formatProofForSolidity] returns passes
    [ZKProofService.validateProofFormat]: the result always has [a] and [c]
    of two entries and [b] of two rows of two.
    [CertificateUtils.validateProofFormat] accepts it exactly when the eight
    coordinates are strings.  [formatProofForContract] returns the same
    object. *)
Theorem formatted_proof_validates (proof solidityProof : value) :
  formatProofForSolidity proof = Return solidityProof ->
  CertificateUtils.formatProofForContract proof = Return solidityProof /\
  validateProofFormat solidityProof = Return (VBool true) /\
  exists a0 a1 b00 b01 b10 b11 c0 c1,
    solidityProof
    = VObj [("a", VArr [a0; a1]);
            ("b", VArr [VArr [b00; b01]; VArr [b10; b11]]);
            ("c", VArr [c0; c1])] /\
    CertificateUtils.validateProofFormat solidityProof
    = Return (VBool (forallb is_string [a0; a1; b00; b01; b10; b11; c0; c1])).
Proof.
  intros H. split; [exact H|].
  apply formatProofForSolidity_returned in H
    as (a0 & a1 & b00 & b01 & b10 & b11 & c0 & c1 & ->).
  split; [apply solidity_object_is_readable|].
  exists a0, a1, b00, b01, b10, b11, c0, c1. split; [reflexivity|].
  unfold CertificateUtils.validateProofFormat, isArray_at, length_2_at,
    isArray_row, length_2_row, every_string_at, every_row_of_strings.
  cbn [get assoc String.eqb Ascii.eqb Bool.eqb and_chain truthy bind
       Array_isArray get_length List.length Z.of_nat Pos.of_succ_nat Pos.succ
       strict_equals_num Z.eqb Pos.eqb get_index nth call_every everyM
       forallb].
  repeat match goal with
         | |- context [is_string ?x] => destruct (is_string x)
         end; reflexivity.
Qed.

End ValidateFacts.

(** The sample proof, formatted for the contract. *)
Lemma formatted_proof_validates_witness :
  ZKProofService.formatProofForSolidity Sample.snarkjs_proof
  = Return (VObj [("a", VArr [VStr "11"; VStr "12"]);
                  ("b", VArr [VArr [VStr "22"; VStr "21"];
                              VArr [VStr "24"; VStr "23"]]);
                  ("c", VArr [VStr "31"; VStr "32"])]) /\
  ZKProofService.validateProofFormat
    (VObj [("a", VArr [VStr "11"; VStr "12"]);
           ("b", VArr [VArr [VStr "22"; VStr "21"];
                       VArr [VStr "24"; VStr "23"]]);
           ("c", VArr [VStr "31"; VStr "32"])])
  = Return (VBool true).
Proof.
  assert (Hformat : ZKProofService.formatProofForSolidity Sample.snarkjs_proof
                    = Return (VObj [("a", VArr [VStr "11"; VStr "12"]);
                                    ("b", VArr [VArr [VStr "22"; VStr "21"];
                                                VArr [VStr "24"; VStr "23"]]);
                                    ("c", VArr [VStr "31"; VStr "32"])]))
    by reflexivity.
  split; [exact Hformat|].
  exact (proj1 (proj2 (formatted_proof_validates Sample.snarkjs_proof _
                         Hformat))).
Defined.

(* ================================================================== *)
(** ** ZKProofService.generateProof *)
(* ================================================================== *)

Section GenerateFacts.

Import ZKProofService.

Variable sha256 : string -> Buffer.t.
Variable CIRCUIT_PATH : string.
Variable KEYS_PATH : string.
Variable existsSync : string -> bool.
Variable fullProve :
  CircuitInputs -> string -> string -> completion (value * value).

(** What a returned result was made of. *)
Lemma generateProof_returned (input : Input) (result : GeneratedProof) :
  generateProof sha256 CIRCUIT_PATH KEYS_PATH existsSync fullProve input
  = Return result ->
  existsSync (path_join CIRCUIT_PATH "certificate_simple.wasm") = true /\
  existsSync (path_join KEYS_PATH "certificate_simple.zkey") = true /\
  exists circuitInputs proof,
    prepareCircuitInputs sha256 input = Return circuitInputs /\
    fullProve circuitInputs
      (path_join CIRCUIT_PATH "certificate_simple.wasm")
      (path_join KEYS_PATH "certificate_simple.zkey")
    = Return (proof, generated_publicSignals result) /\
    formatProofForSolidity proof = Return (generated_proof result) /\
    calculateCommitment sha256 input = Return (generated_commitment result).
Proof.
  unfold generateProof. intros H.
  destruct (generateProof_try _ _ _ _ _ input) as [result'|cause] eqn:Htry;
    cbn [try_catch] in H; [|discriminate H].
  injection H as ->. unfold generateProof_try in Htry.
  apply bind_Return in Htry as (circuitInputs & Hinputs & Htry).
  destruct (existsSync (path_join CIRCUIT_PATH _)); cbn [negb] in Htry;
    [|discriminate Htry].
  destruct (existsSync (path_join KEYS_PATH _)); cbn [negb] in Htry;
    [|discriminate Htry].
  apply bind_Return in Htry as ([proof publicSignals] & Hprove & Htry).
  apply bind_Return in Htry as (formatted & Hformat & Htry).
  apply bind_Return in Htry as (commitment & Hcommit & Htry).
  injection Htry as <-.
  split; [reflexivity|]. split; [reflexivity|].
  exists circuitInputs, proof. cbn [generated_publicSignals generated_proof
                                    generated_commitment].
  auto.
Qed.

(** X14. [generateProof] never lets an exception through as it was thrown: what
    reaches the caller is an [Error] whose message is the fixed prefix
    followed by the message of the cause.  It does not return when the
    compiled circuit or the proving key is missing, whatever the prover would
    do.  When it returns, both files exist, the prover returned, and the
    result holds the prover's proof in the Solidity format, the prover's
    public signals and the commitment of the input. *)
Theorem generateProof_outcomes (input : Input) :
  (forall e,
      generateProof sha256 CIRCUIT_PATH KEYS_PATH existsSync fullProve input
      = Throw e ->
      exists cause,
        generateProof_try sha256 CIRCUIT_PATH KEYS_PATH existsSync fullProve
          input = Throw cause /\
        e = Error ("Failed to generate ZK proof: " ++ message cause)) /\
  (existsSync (path_join CIRCUIT_PATH "certificate_simple.wasm") = false \/
   existsSync (path_join KEYS_PATH "certificate_simple.zkey") = false ->
   exists e,
     generateProof sha256 CIRCUIT_PATH KEYS_PATH existsSync fullProve input
     = Throw e) /\
  (forall result,
      generateProof sha256 CIRCUIT_PATH KEYS_PATH existsSync fullProve input
      = Return result ->
      existsSync (path_join CIRCUIT_PATH "certificate_simple.wasm") = true /\
      existsSync (path_join KEYS_PATH "certificate_simple.zkey") = true /\
      exists circuitInputs proof,
        prepareCircuitInputs sha256 input = Return circuitInputs /\
        fullProve circuitInputs
          (path_join CIRCUIT_PATH "certificate_simple.wasm")
          (path_join KEYS_PATH "certificate_simple.zkey")
        = Return (proof, generated_publicSignals result) /\
        formatProofForSolidity proof = Return (generated_proof result) /\
        calculateCommitment sha256 input
        = Return (generated_commitment result)).
Proof.
  unfold generateProof. split; [|split].
  - intros e H.
    destruct (generateProof_try _ _ _ _ _ input) as [result|cause];
      cbn [try_catch] in H; [discriminate H|].
    injection H as <-. eauto.
  - intros Hmissing. unfold generateProof_try.
    destruct (prepareCircuitInputs sha256 input) as [circuitInputs|e];
      cbn [bind try_catch]; [|eauto].
    destruct (existsSync (path_join CIRCUIT_PATH _)); cbn [negb try_catch];
      [|eauto].
    destruct (existsSync (path_join KEYS_PATH _)); cbn [negb try_catch];
      [|eauto].
    destruct Hmissing; discriminate.
  - intros result H. now apply generateProof_returned.
Qed.

End GenerateFacts.

(* ================================================================== *)
(** ** Commitments: what the separator does not separate *)
(* ================================================================== *)

Section SeparatorFacts.

Variable sha256 : string -> Buffer.t.

Lemma append_assoc_string (a b c : string) :
  ((a ++ b) ++ c)%string = (a ++ (b ++ c))%string.
Proof. induction a as [|x a IH]; cbn; [reflexivity | now rewrite IH]. Qed.

Lemma join_cons (sep x y : string) (rest : list string) :
  join sep (x :: y :: rest) = (x ++ sep ++ join sep (y :: rest))%string.
Proof. reflexivity. Qed.

(** X17. The commitment joins its fields with a bar and does not escape bars
    inside them, so it does not tell where one field ends: moving the text
    after a bar from the student id to the salt, or moving the first grade
    into the salt, leaves the commitment unchanged.  Both commitment
    functions behave so, for every hash function. *)
Theorem commitment_ignores_field_boundaries :
  (forall (id moved salt : string) (grades : list Z) (min : Z) (all : bool),
      ZKProofService.calculateCommitment sha256
        {| ZKProofService.studentId := (id ++ "|" ++ moved)%string;
           ZKProofService.subjects := grades;
           ZKProofService.salt := salt;
           ZKProofService.minPassingGrade := min;
           ZKProofService.requireAllPassed := all |}
      = ZKProofService.calculateCommitment sha256
          {| ZKProofService.studentId := id;
             ZKProofService.subjects := grades;
             ZKProofService.salt := (moved ++ "|" ++ salt)%string;
             ZKProofService.minPassingGrade := min;
             ZKProofService.requireAllPassed := all |}) /\
  (forall (id salt : string) (grade : Z) (grades : list Z) (min : Z)
          (all : bool),
      ZKProofService.calculateCommitment sha256
        {| ZKProofService.studentId := id;
           ZKProofService.subjects := grades;
           ZKProofService.salt := (salt ++ "|" ++ Z_toString grade)%string;
           ZKProofService.minPassingGrade := min;
           ZKProofService.requireAllPassed := all |}
      = ZKProofService.calculateCommitment sha256
          {| ZKProofService.studentId := id;
             ZKProofService.subjects := grade :: grades;
             ZKProofService.salt := salt;
             ZKProofService.minPassingGrade := min;
             ZKProofService.requireAllPassed := all |}) /\
  (forall (id salt : string) (grade : Z) (grades : list Z),
      CertificateUtils.hashStudentData sha256
        {| CertificateUtils.studentId := id;
           CertificateUtils.subjects := grades |}
        (salt ++ "|" ++ Z_toString grade)%string
      = CertificateUtils.hashStudentData sha256
          {| CertificateUtils.studentId := id;
             CertificateUtils.subjects := grade :: grades |}
          salt).
Proof.
  assert (Hgrade : forall id salt grade grades,
             join "|" ([id; (salt ++ "|" ++ Z_toString grade)%string]
                       ++ map Z_toString grades)
             = join "|" ([id; salt] ++ map Z_toString (grade :: grades))).
  { intros id salt grade grades. cbn [app map].
    rewrite !join_cons. f_equal. f_equal.
    destruct (map Z_toString grades) as [|g rest].
    - reflexivity.
    - rewrite !join_cons, !append_assoc_string. reflexivity. }
  split; [|split].
  - intros id moved salt grades min all.
    unfold ZKProofService.calculateCommitment.
    cbn [ZKProofService.studentId ZKProofService.salt ZKProofService.subjects
         app].
    do 3 f_equal.
    destruct (map Z_toString grades) as [|g rest].
    + cbn [join]. now rewrite !append_assoc_string.
    + rewrite !join_cons, !append_assoc_string. reflexivity.
  - intros id salt grade grades min all.
    unfold ZKProofService.calculateCommitment.
    cbn [ZKProofService.studentId ZKProofService.salt ZKProofService.subjects].
    now rewrite Hgrade.
  - intros id salt grade grades.
    unfold CertificateUtils.hashStudentData.
    cbn [CertificateUtils.studentId CertificateUtils.subjects].
    now rewrite Hgrade.
Qed.

End SeparatorFacts.

(* ================================================================== *)
(** ** CertificateUtils: batch ids and addresses *)
(* ================================================================== *)

Section UtilityFacts.

Lemma substring_toString_hex (n : nat) (buf : Buffer.t) :
  String.substring 0 (2 * n) (Buffer.toString_hex buf)
  = Buffer.toString_hex (firstn n buf).
Proof.
  revert buf. induction n as [|n IH]; intros buf.
  - cbn. now destruct (Buffer.toString_hex buf).
  - destruct buf as [|b buf]; [reflexivity|].
    replace (2 * S n)%nat with (S (S (2 * n))) by lia.
    cbn [Buffer.toString_hex Buffer.byte_toString_hex append firstn
         String.substring].
    now rewrite IH.
Qed.

Variable sha256 : string -> Buffer.t.
Hypothesis sha256_length : forall data, List.length (sha256 data) = 32.

(** X19. The batch id is the hex form of the first eight bytes of the SHA-256
    digest of the institution name, a dash and the timestamp: sixteen
    lower-case hex digits. *)
Theorem generateBatchId_is_digest_prefix (institutionName : string)
  (timestamp : Z) :
  CertificateUtils.generateBatchId sha256 institutionName timestamp
  = Buffer.toString_hex
      (firstn 8 (sha256 (institutionName ++ "-" ++ Z_toString timestamp)%string))
  /\
  String.length
    (CertificateUtils.generateBatchId sha256 institutionName timestamp) = 16 /\
  Buffer.is_lower_hex
    (CertificateUtils.generateBatchId sha256 institutionName timestamp) = true.
Proof.
  assert (Hid : CertificateUtils.generateBatchId sha256 institutionName
                  timestamp
                = Buffer.toString_hex
                    (firstn 8 (sha256 (institutionName ++ "-"
                                       ++ Z_toString timestamp)%string)))
    by apply (substring_toString_hex 8).
  rewrite Hid. split; [reflexivity|]. split.
  - rewrite toString_hex_length, length_firstn, sha256_length. reflexivity.
  - apply is_lower_hex_toString_hex.
Qed.

End UtilityFacts.

(** The batch id of a sample institution under the sample digest. *)
Lemma generateBatchId_is_digest_prefix_witness :
  CertificateUtils.generateBatchId Sample.digest32 "University" 1700000000
  = Buffer.toString_hex
      (firstn 8 (Sample.digest32 "University-1700000000")) /\
  String.length
    (CertificateUtils.generateBatchId Sample.digest32 "University" 1700000000)
  = 16 /\
  Buffer.is_lower_hex
    (CertificateUtils.generateBatchId Sample.digest32 "University" 1700000000)
  = true.
Proof.
  exact (generateBatchId_is_digest_prefix Sample.digest32 digest32_length
           "University" 1700000000%Z).
Defined.

Section AddressFacts.

Import CertificateUtils.

Lemma hex_digits_to_end_decoded (n : nat) (s : string) :
  hex_digits_to_end (2 * n) s = true ->
  String.length s = 2 * n /\ List.length (Buffer.from_hex s) = n.
Proof.
  revert s. induction n as [|n IH]; intros s H.
  - destruct s; [now split | discriminate H].
  - replace (2 * S n) with (S (S (2 * n))) in * by lia.
    destruct s as [|a [|b s]]; cbn [hex_digits_to_end] in H;
      try discriminate H.
    + now rewrite andb_false_r in H.
    + apply andb_true_iff in H as [Ha H].
      apply andb_true_iff in H as [Hb H].
      destruct (IH s H) as [Hlen Hdec].
      unfold is_hex_digit in Ha, Hb. cbn [Buffer.from_hex String.length].
      destruct (Buffer.unhex a); [|discriminate Ha].
      destruct (Buffer.unhex b); [|discriminate Hb].
      cbn [List.length]. lia.
Qed.

Lemma hex_digits_to_end_toString_hex (buf : Buffer.t) :
  hex_digits_to_end (2 * List.length buf) (Buffer.toString_hex buf) = true.
Proof.
  induction buf as [|b buf IH]; [reflexivity|].
  cbn [List.length].
  replace (2 * S (List.length buf)) with (S (S (2 * List.length buf))) by lia.
  cbn [Buffer.toString_hex Buffer.byte_toString_hex append hex_digits_to_end].
  rewrite IH. destruct b; reflexivity.
Qed.

(** X20. An address [isValidEthereumAddress] accepts is 0x followed by forty hex
    digits, 42 characters that decode to 20 bytes; and 0x followed by the
    hex form of any 20 bytes is accepted. *)
Theorem isValidEthereumAddress_is_20_bytes :
  (forall address : string,
      isValidEthereumAddress address = true ->
      String.length address = 42 /\
      exists digits,
        address = ("0x" ++ digits)%string /\
        List.length (Buffer.from_hex digits) = 20) /\
  (forall buf : Buffer.t,
      List.length buf = 20 ->
      isValidEthereumAddress ("0x" ++ Buffer.toString_hex buf)%string = true).
Proof.
  split.
  - intros address H. unfold isValidEthereumAddress in H.
    destruct address as [|c0 [|c1 digits]]; try discriminate H;
      [destruct c0 as [[] [] [] [] [] [] [] []]; discriminate H|].
    destruct (Ascii.eqb c0 "0") eqn:H0;
      [apply Ascii.eqb_eq in H0; subst c0
      |destruct c0 as [[] [] [] [] [] [] [] []]; discriminate H || discriminate H0].
    destruct (Ascii.eqb c1 "x") eqn:H1;
      [apply Ascii.eqb_eq in H1; subst c1
      |destruct c1 as [[] [] [] [] [] [] [] []]; discriminate H || discriminate H1].
    change 40 with (2 * 20) in H.
    apply hex_digits_to_end_decoded in H as [Hlen Hdec].
    split; [cbn [String.length]; lia|].
    exists digits. split; [reflexivity | assumption].
  - intros buf Hlen. cbn [append isValidEthereumAddress].
    change 40 with (2 * 20). rewrite <- Hlen.
    apply hex_digits_to_end_toString_hex.
Qed.

End AddressFacts.

(* ================================================================== *)
(** ** The circuit: the two all-passed chains *)
(* ================================================================== *)

Section AllPassedFacts.

Import Circomlib Circuit.

Local Open Scope Z_scope.

(** X23. [AllPassedGates(n)], the recursive template of the first circuit, and
    the chain of [andGates] in [CertificateVerifier] compute the same signal
    from the same grade checks, for any number of them; neither exists for no
    subject at all. *)
Theorem AllPassedGates_is_allPassedSignal (outs : list Z) :
  AllPassedGates (List.length outs) outs = allPassedSignal outs.
Proof.
  induction outs as [|x outs IH] using rev_ind; [reflexivity|].
  rewrite length_app, Nat.add_1_r. cbn [List.length AllPassedGates].
  destruct outs as [|a outs].
  - reflexivity.
  - cbn [List.length Nat.eqb].
    replace (S (List.length outs)) with (List.length (a :: outs)) by reflexivity.
    rewrite firstn_app, firstn_all, Nat.sub_diag, app_nil_r, IH.
    rewrite nth_middle.
    destruct outs as [|b rest]; [reflexivity|].
    cbn [allPassedSignal app]. now rewrite fold_left_app.
Qed.

(** X24. [FinalValidation], the template that ends the first circuit.  On
    bits its output is merkleValid AND (IF requireAllPassed THEN allPassed
    ELSE 1).  For arbitrary field elements in the other two signals, a
    [merkleValid] of 0 forces the output to 0; and with [requireAllPassed]
    0 the output is [merkleValid], whatever [allPassed] is. *)
Theorem FinalValidation_policy :
  (forall merkleValid allPassed requireAllPassed : bool,
      FinalValidation (Z.b2z merkleValid) (Z.b2z allPassed)
        (Z.b2z requireAllPassed)
      = Z.b2z (ThresholdSpec.isValid merkleValid
                 (ThresholdSpec.gatePolicy requireAllPassed allPassed))) /\
  (forall allPassed requireAllPassed : Z,
      FinalValidation 0 allPassed requireAllPassed = 0) /\
  (forall merkleValid allPassed : Z,
      FinalValidation merkleValid allPassed 0 = F merkleValid).
Proof.
  split; [|split].
  - intros [] [] []; reflexivity.
  - intros allPassed requireAllPassed. unfold FinalValidation, AND at 1.
    cbv zeta. now rewrite Z.mul_0_l.
  - intros merkleValid allPassed. unfold FinalValidation. cbv zeta.
    assert (Hvalidator : OR (NOT 0) (AND 0 allPassed) = 1).
    { unfold AND. rewrite Z.mul_0_l. reflexivity. }
    rewrite Hvalidator. unfold AND. now rewrite Z.mul_1_r.
Qed.

End AllPassedFacts.

(* ================================================================== *)
(** ** CertificateRegistry: batches, identifiers, revocation *)
(* ================================================================== *)

Section RegistryFacts.

Import CertificateRegistry.

Local Open Scope Z_scope.

Lemma issueBatch_inv (sender now root : Z) (institution course : string)
  (year total : Z) (s s' : State) (batchId : Z) :
  issueBatch sender now root institution course year total s
  = Success (batchId, s') ->
  onlyAuthorized s sender = true /\ root <> 0 /\
  institution <> EmptyString /\ course <> EmptyString /\
  1900 < year <= 2100 /\ 0 < total /\ nextBatchId s < MAX_UINT256 /\
  batchId = nextBatchId s /\
  s' = {| owner := owner s;
          batches :=
            fun id =>
              if id =? nextBatchId s
              then {| merkleRoot := root;
                      institutionName := institution;
                      courseName := course;
                      graduationYear := year;
                      totalStudents := total;
                      timestamp := now;
                      isValid := true |}
              else batches s id;
          authorizedInstitutions := authorizedInstitutions s;
          nextBatchId := nextBatchId s + 1 |}.
Proof.
  unfold issueBatch.
  destruct (onlyAuthorized s sender); cbn [negb]; [|discriminate].
  destruct (root =? 0) eqn:Hroot; [discriminate|]. apply Z.eqb_neq in Hroot.
  destruct (0 <? Z.of_nat (String.length institution)) eqn:Hinst;
    cbn [negb]; [|discriminate].
  destruct (0 <? Z.of_nat (String.length course)) eqn:Hcourse;
    cbn [negb]; [|discriminate].
  destruct ((1900 <? year) && (year <=? 2100)) eqn:Hyear;
    cbn [negb]; [|discriminate].
  destruct (0 <? total) eqn:Htotal; cbn [negb]; [|discriminate].
  destruct (MAX_UINT256 <=? nextBatchId s) eqn:Hmax; [discriminate|].
  intros [= <- <-].
  apply andb_true_iff in Hyear as [Hy1 Hy2].
  apply Z.ltb_lt in Hy1, Htotal. apply Z.leb_le in Hy2.
  apply Z.leb_gt in Hmax.
  repeat split; try assumption; try lia.
  - intros ->. discriminate Hinst.
  - intros ->. discriminate Hcourse.
Qed.

Lemma revokeBatch_inv (sender batchId : Z) (s s' : State) :
  revokeBatch sender batchId s = Success (tt, s') ->
  onlyAuthorized s sender = true /\
  merkleRoot (batches s batchId) <> 0 /\
  owner s' = owner s /\
  authorizedInstitutions s' = authorizedInstitutions s /\
  nextBatchId s' = nextBatchId s /\
  forall id,
    merkleRoot (batches s' id) = merkleRoot (batches s id) /\
    institutionName (batches s' id) = institutionName (batches s id) /\
    courseName (batches s' id) = courseName (batches s id) /\
    graduationYear (batches s' id) = graduationYear (batches s id) /\
    totalStudents (batches s' id) = totalStudents (batches s id) /\
    timestamp (batches s' id) = timestamp (batches s id) /\
    isValid (batches s' id)
    = if id =? batchId then false else isValid (batches s id).
Proof.
  unfold revokeBatch.
  destruct (onlyAuthorized s sender); cbn [negb]; [|discriminate].
  destruct (merkleRoot (batches s batchId) =? 0) eqn:Hroot; [discriminate|].
  apply Z.eqb_neq in Hroot. intros [= <-].
  cbn [owner authorizedInstitutions nextBatchId batches].
  repeat split; try assumption;
    destruct (id =? batchId) eqn:Hid; try reflexivity;
    apply Z.eqb_eq in Hid; subst; reflexivity.
Qed.

(** One transaction keeps the state consistent, and leaves every batch
    that exists as it is, except that it may turn it invalid. *)
Lemma execute_consistent (s : State) (t : transaction) :
  consistent s ->
  consistent (execute s t) /\
  nextBatchId s <= nextBatchId (execute s t) /\
  forall id,
    merkleRoot (batches s id) <> 0 ->
    merkleRoot (batches (execute s t) id) = merkleRoot (batches s id) /\
    institutionName (batches (execute s t) id)
    = institutionName (batches s id) /\
    courseName (batches (execute s t) id) = courseName (batches s id) /\
    graduationYear (batches (execute s t) id)
    = graduationYear (batches s id) /\
    totalStudents (batches (execute s t) id) = totalStudents (batches s id) /\
    timestamp (batches (execute s t) id) = timestamp (batches s id) /\
    (isValid (batches s id) = false ->
     isValid (batches (execute s t) id) = false).
Proof.
  intros [Hnext Hslots].
  assert (Hsame : consistent s /\ nextBatchId s <= nextBatchId s /\
                  forall id,
                    merkleRoot (batches s id) <> 0 ->
                    merkleRoot (batches s id) = merkleRoot (batches s id) /\
                    institutionName (batches s id)
                    = institutionName (batches s id) /\
                    courseName (batches s id) = courseName (batches s id) /\
                    graduationYear (batches s id)
                    = graduationYear (batches s id) /\
                    totalStudents (batches s id) = totalStudents (batches s id)
                    /\ timestamp (batches s id) = timestamp (batches s id) /\
                    (isValid (batches s id) = false ->
                     isValid (batches s id) = false)).
  { split; [now split|]. split; [lia|]. intros id _. repeat split; auto. }
  unfold execute. destruct (action t) as [institution authorized
                                         |root institution course year total
                                         |batchId|newOwner|].
  - unfold setInstitutionAuthorization.
    destruct (onlyOwner s (sender t)); cbn [negb state_after];
      [|exact Hsame].
    split; [now split|]. split; [cbn; lia|]. intros id _.
    cbn [batches]. repeat split; auto.
  - destruct (issueBatch (sender t) (block_timestamp t) root institution
                course year total s) as [[batchId s']|reason] eqn:Hissue;
      cbn [state_after]; [|exact Hsame].
    apply issueBatch_inv in Hissue
      as (_ & Hroot & _ & _ & _ & _ & Hmax & -> & ->).
    unfold consistent. cbn [nextBatchId batches]. split; [|split; [lia|]].
    + split; [lia|]. intros id.
      destruct (id =? nextBatchId s) eqn:Hid.
      * apply Z.eqb_eq in Hid. subst id. cbn [merkleRoot isValid].
        split; [split; [lia | auto] | auto].
      * apply Z.eqb_neq in Hid. destruct (Hslots id) as [Hiff Hvalid].
        split; [|exact Hvalid]. rewrite Hiff. lia.
    + intros id Hexists.
      destruct (id =? nextBatchId s) eqn:Hid.
      * apply Z.eqb_eq in Hid. subst id.
        apply (proj1 (Hslots (nextBatchId s))) in Hexists. lia.
      * repeat split; auto.
  - destruct (revokeBatch (sender t) batchId s) as [[[] s']|reason]
      eqn:Hrevoke; cbn [state_after]; [|exact Hsame].
    apply revokeBatch_inv in Hrevoke
      as (_ & Hroot & _ & _ & Hnext' & Hbatches).
    split; [|split; [lia|]].
    + split; [lia|]. intros id.
      destruct (Hbatches id) as (-> & _ & _ & _ & _ & _ & ->).
      destruct (Hslots id) as [Hiff Hvalid]. rewrite Hnext'.
      split; [exact Hiff|].
      destruct (id =? batchId); [discriminate | exact Hvalid].
    + intros id _.
      destruct (Hbatches id) as (-> & -> & -> & -> & -> & -> & ->).
      repeat split; try reflexivity.
      intros ->. now destruct (id =? batchId).
  - unfold transferOwnership.
    destruct (onlyOwner s (sender t)); cbn [negb state_after];
      [|exact Hsame].
    destruct (newOwner =? 0); cbn [state_after]; [exact Hsame|].
    split; [now split|]. split; [cbn; lia|]. intros id _.
    cbn [batches]. repeat split; auto.
  - unfold renounceOwnership.
    destruct (onlyOwner s (sender t)); cbn [negb state_after];
      [|exact Hsame].
    split; [now split|]. split; [cbn; lia|]. intros id _.
    cbn [batches]. repeat split; auto.
Qed.

Lemma constructor_consistent (deployer : Z) : consistent (constructor deployer).
Proof.
  split; [cbn; unfold MAX_UINT256; lia|].
  intros id. cbn [constructor batches nextBatchId no_batch merkleRoot isValid].
  split; [split; [congruence | lia] | discriminate].
Qed.

Lemma fold_execute_consistent (transactions : list transaction) (s : State) :
  consistent s -> consistent (fold_left execute transactions s).
Proof.
  revert s. induction transactions as [|t transactions IH]; intros s Hs;
    [exact Hs|].
  cbn [fold_left]. apply IH. now apply execute_consistent.
Qed.

(** X25. In every state the contract can reach, [getTotalBatches] does not
    revert, and the batches that exist (those with a root) are exactly those
    with an identifier from 1 to the number it returns; a batch that is
    valid exists. *)
Theorem registry_batch_ids (deployer : Z) (transactions : list transaction) :
  getTotalBatches (run deployer transactions)
  = Success (nextBatchId (run deployer transactions) - 1) /\
  0 <= nextBatchId (run deployer transactions) - 1 /\
  forall id,
    (merkleRoot (batches (run deployer transactions) id) <> 0 <->
     1 <= id <= nextBatchId (run deployer transactions) - 1) /\
    (isValid (batches (run deployer transactions) id) = true ->
     merkleRoot (batches (run deployer transactions) id) <> 0).
Proof.
  destruct (fold_execute_consistent transactions (constructor deployer)
              (constructor_consistent deployer)) as [Hnext Hslots].
  fold (run deployer transactions) in Hnext, Hslots.
  unfold getTotalBatches.
  assert (Hlt : (nextBatchId (run deployer transactions) <? 1) = false)
    by (apply Z.ltb_ge; lia).
  rewrite Hlt. split; [reflexivity|]. split; [lia|].
  intros id. destruct (Hslots id) as [Hiff Hvalid].
  split; [|exact Hvalid]. rewrite Hiff. lia.
Qed.

(** X26. What was issued stays as it was issued, and a revocation is final: in a
    reachable state, whatever transactions follow, an existing batch keeps
    its root, names, year, size and timestamp; and once it is invalid it
    stays invalid, so that [verifyCertificate] reverts for it. *)
Theorem revocation_is_final (deployer : Z) (before after : list transaction)
  (id : Z) :
  merkleRoot (batches (run deployer before) id) <> 0 ->
  merkleRoot (batches (run deployer (before ++ after)) id)
  = merkleRoot (batches (run deployer before) id) /\
  institutionName (batches (run deployer (before ++ after)) id)
  = institutionName (batches (run deployer before) id) /\
  courseName (batches (run deployer (before ++ after)) id)
  = courseName (batches (run deployer before) id) /\
  graduationYear (batches (run deployer (before ++ after)) id)
  = graduationYear (batches (run deployer before) id) /\
  totalStudents (batches (run deployer (before ++ after)) id)
  = totalStudents (batches (run deployer before) id) /\
  timestamp (batches (run deployer (before ++ after)) id)
  = timestamp (batches (run deployer before) id) /\
  (isValid (batches (run deployer before) id) = false ->
   isValid (batches (run deployer (before ++ after)) id) = false /\
   forall (keccak256 : Z -> Z -> Z) (certificateHash : Z)
          (merkleProof : list Z),
     verifyCertificate keccak256 id certificateHash merkleProof
       (run deployer (before ++ after))
     = Reverted "Batch is not valid").
Proof.
  unfold run. rewrite fold_left_app.
  pose proof (fold_execute_consistent before (constructor deployer)
                (constructor_consistent deployer)) as Hs.
  revert Hs. generalize (fold_left execute before (constructor deployer)).
  induction after as [|t after IH]; intros s Hs Hexists.
  - cbn [fold_left]. do 6 (split; [reflexivity|]).
    intros Hinvalid. split; [assumption|].
    intros keccak256 certificateHash merkleProof.
    unfold verifyCertificate. now rewrite Hinvalid.
  - cbn [fold_left].
    destruct (execute_consistent s t Hs) as (Hs' & _ & Hkeep).
    destruct (Hkeep id Hexists) as (Hr & Hi & Hc & Hy & Ht & Hts & Hv).
    assert (Hexists' : merkleRoot (batches (execute s t) id) <> 0)
      by now rewrite Hr.
    destruct (IH (execute s t) Hs' Hexists')
      as (Hr' & Hi' & Hc' & Hy' & Ht' & Hts' & Hv').
    rewrite Hr', Hi', Hc', Hy', Ht', Hts', Hr, Hi, Hc, Hy, Ht, Hts.
    do 6 (split; [reflexivity|]).
    intros Hinvalid. apply Hv', Hv, Hinvalid.
Qed.

(** X27. An account that is neither authorized nor the owner changes nothing:
    each of its transactions reverts. *)
Theorem unauthorized_transaction_changes_nothing (s : State)
  (t : transaction) :
  onlyAuthorized s (sender t) = false -> execute s t = s.
Proof.
  unfold onlyAuthorized. intros H.
  apply orb_false_iff in H as [Hauth Howner].
  assert (Honly : onlyOwner s (sender t) = false)
    by (unfold onlyOwner; now rewrite Z.eqb_sym).
  unfold execute, setInstitutionAuthorization, issueBatch, revokeBatch,
    transferOwnership, renounceOwnership, onlyAuthorized.
  rewrite Honly, Hauth, Howner.
  now destruct (action t).
Qed.

(** X28. [issueBatch] succeeds only for an authorized caller and arguments that
    pass every check; it returns the counter's value as the identifier and
    moves the counter on by one, leaves the other batches alone, and from
    then on [verifyCertificate] for that identifier answers whether
    OpenZeppelin's sorted-pair recomputation from the given hash reaches the
    root that was issued: with an empty proof, whether the hash is the
    root. *)
Theorem issued_batch_is_verifiable (sender now root : Z)
  (institution course : string) (year total : Z) (s s' : State)
  (batchId : Z) :
  issueBatch sender now root institution course year total s
  = Success (batchId, s') ->
  (onlyAuthorized s sender = true /\ root <> 0 /\
   institution <> EmptyString /\ course <> EmptyString /\
   1900 < year <= 2100 /\ 0 < total) /\
  batchId = nextBatchId s /\
  nextBatchId s' = nextBatchId s + 1 /\
  (forall other, other <> batchId -> batches s' other = batches s other) /\
  (forall (keccak256 : Z -> Z -> Z) (certificateHash : Z)
          (merkleProof : list Z),
      verifyCertificate keccak256 batchId certificateHash merkleProof s'
      = Success (processProof keccak256 merkleProof certificateHash =? root))
  /\
  (forall (keccak256 : Z -> Z -> Z) (certificateHash : Z),
      verifyCertificate keccak256 batchId certificateHash [] s'
      = Success (certificateHash =? root)).
Proof.
  intros H.
  apply issueBatch_inv in H
    as (Hauth & Hroot & Hinst & Hcourse & Hyear & Htotal & _ & -> & ->).
  split; [auto 10|]. split; [reflexivity|]. split; [reflexivity|].
  assert (Hverify : forall keccak256 certificateHash merkleProof,
             verifyCertificate keccak256 (nextBatchId s) certificateHash
               merkleProof
               {| owner := owner s;
                  batches :=
                    fun id =>
                      if id =? nextBatchId s
                      then {| merkleRoot := root;
                              institutionName := institution;
                              courseName := course;
                              graduationYear := year;
                              totalStudents := total;
                              timestamp := now;
                              isValid := true |}
                      else batches s id;
                  authorizedInstitutions := authorizedInstitutions s;
                  nextBatchId := nextBatchId s + 1 |}
             = Success (processProof keccak256 merkleProof certificateHash
                        =? root)).
  { intros keccak256 certificateHash merkleProof.
    unfold verifyCertificate, MerkleProof_verify. cbn [batches].
    now rewrite Z.eqb_refl. }
  split; [|split].
  - intros other Hother. cbn [batches].
    apply Z.eqb_neq in Hother. now rewrite Hother.
  - exact Hverify.
  - intros keccak256 certificateHash.
    exact (Hverify keccak256 certificateHash []).
Qed.

End RegistryFacts.

(** The first sample batch was revoked; the transactions that follow,
    among them a new batch with the same root, leave it invalid. *)
Lemma revocation_is_final_witness :
  CertificateRegistry.merkleRoot
    (CertificateRegistry.batches
       (CertificateRegistry.run Sample.university Sample.issue_and_revoke) 1)
  = 12345%Z /\
  CertificateRegistry.isValid
    (CertificateRegistry.batches
       (CertificateRegistry.run Sample.university Sample.issue_and_revoke) 1)
  = false /\
  CertificateRegistry.isValid
    (CertificateRegistry.batches
       (CertificateRegistry.run Sample.university
          (Sample.issue_and_revoke ++ Sample.later_transactions)) 1)
  = false /\
  CertificateRegistry.isValid
    (CertificateRegistry.batches
       (CertificateRegistry.run Sample.university
          (Sample.issue_and_revoke ++ Sample.later_transactions)) 3)
  = true.
Proof.
  assert (Hexists : CertificateRegistry.merkleRoot
                      (CertificateRegistry.batches
                         (CertificateRegistry.run Sample.university
                            Sample.issue_and_revoke) 1) <> 0%Z)
    by (vm_compute; discriminate).
  assert (Hrevoked : CertificateRegistry.isValid
                       (CertificateRegistry.batches
                          (CertificateRegistry.run Sample.university
                             Sample.issue_and_revoke) 1) = false)
    by reflexivity.
  split; [reflexivity|]. split; [exact Hrevoked|]. split; [|reflexivity].
  destruct (revocation_is_final Sample.university Sample.issue_and_revoke
              Sample.later_transactions 1%Z Hexists)
    as (_ & _ & _ & _ & _ & _ & Hfinal).
  exact (proj1 (Hfinal Hrevoked)).
Defined.

(** Before it is authorized, the college cannot revoke the first batch. *)
Lemma unauthorized_transaction_changes_nothing_witness :
  CertificateRegistry.onlyAuthorized Sample.first_batch_issued Sample.college
  = false /\
  CertificateRegistry.execute Sample.first_batch_issued
    {| CertificateRegistry.sender := Sample.college;
       CertificateRegistry.block_timestamp := 1700000050%Z;
       CertificateRegistry.action := CertificateRegistry.RevokeBatch 1%Z |}
  = Sample.first_batch_issued.
Proof.
  assert (Hnot : CertificateRegistry.onlyAuthorized Sample.first_batch_issued
                   Sample.college = false) by reflexivity.
  split; [exact Hnot|].
  exact (unauthorized_transaction_changes_nothing Sample.first_batch_issued
           {| CertificateRegistry.sender := Sample.college;
              CertificateRegistry.block_timestamp := 1700000050%Z;
              CertificateRegistry.action :=
                CertificateRegistry.RevokeBatch 1%Z |} Hnot).
Defined.

(** The first sample batch gets the identifier 1, and a single certificate
    whose hash is the root verifies with an empty proof. *)
Lemma issued_batch_is_verifiable_witness :
  CertificateRegistry.issueBatch Sample.university 1700000000 12345
    "University" "Computer Science" 2024 3
    (CertificateRegistry.constructor Sample.university)
  = CertificateRegistry.Success (1%Z, Sample.first_batch_issued) /\
  CertificateRegistry.nextBatchId Sample.first_batch_issued = 2%Z /\
  (forall keccak256 : Z -> Z -> Z,
      CertificateRegistry.verifyCertificate keccak256 1 12345 []
        Sample.first_batch_issued
      = CertificateRegistry.Success true).
Proof.
  assert (Hissue : CertificateRegistry.issueBatch Sample.university
                     1700000000 12345 "University" "Computer Science" 2024 3
                     (CertificateRegistry.constructor Sample.university)
                   = CertificateRegistry.Success
                       (1%Z, Sample.first_batch_issued))
    by reflexivity.
  split; [exact Hissue|].
  destruct (issued_batch_is_verifiable _ _ _ _ _ _ _ _ _ _ Hissue)
    as (_ & _ & Hnext & _ & _ & Hempty).
  split; [exact Hnext|].
  intros keccak256. exact (Hempty keccak256 12345%Z).
Defined.

(* ================================================================== *)
(** ** ZKProofService: from generateProof to verifyProof, and the route *)
(* ================================================================== *)

Section GenerateVerifyFacts.

Import ZKProofService.

Variable sha256 : string -> Buffer.t.
Variable CIRCUIT_PATH : string.
Variable KEYS_PATH : string.
Variable existsSync : string -> bool.
Variable fullProve :
  CircuitInputs -> string -> string -> completion (value * value).
Variable readFileSync : string -> completion string.
Variable JSON_parse : string -> completion value.
Variable groth16_verify : value -> value -> value -> completion bool.

(** X15. What [generateProof] returns is a proof [verifyProof] can read: with
    the verification key in place, the proof reaches snarkjs in snarkjs's
    shape, and the answer of [verifyProof] is the answer of snarkjs. *)
Theorem generated_proof_reaches_verifier (input : Input)
  (result : GeneratedProof) (text : string) (verificationKey : value) :
  generateProof sha256 CIRCUIT_PATH KEYS_PATH existsSync fullProve input
  = Return result ->
  existsSync (path_join KEYS_PATH "verification_key.json") = true ->
  readFileSync (path_join KEYS_PATH "verification_key.json") = Return text ->
  JSON_parse text = Return verificationKey ->
  validateProofFormat (generated_proof result) = Return (VBool true) /\
  exists formatted,
    formatProofFromSolidity (generated_proof result) = Return formatted /\
    snarkjs_proof_shape formatted = true /\
    forall answer : bool,
      groth16_verify verificationKey (generated_publicSignals result)
        formatted = Return answer ->
      verifyProof KEYS_PATH existsSync readFileSync JSON_parse groth16_verify
        (generated_proof result) (generated_publicSignals result)
      = Return answer.
Proof.
  intros Hgenerate Hexists Hread Hparse.
  destruct (generateProof_returned sha256 CIRCUIT_PATH KEYS_PATH existsSync
              fullProve input result Hgenerate)
    as (_ & _ & circuitInputs & proof & _ & _ & Hformat & _).
  apply formatProofForSolidity_returned in Hformat
    as (a0 & a1 & b00 & b01 & b10 & b11 & c0 & c1 & Hresult).
  rewrite Hresult.
  destruct (solidity_object_is_readable a0 a1 b00 b01 b10 b11 c0 c1)
    as [Hvalid Hback].
  split; [exact Hvalid|].
  eexists. split; [exact Hback|]. split; [reflexivity|].
  intros answer Hanswer.
  rewrite <- Hresult in Hback |- *.
  exact (zk_verifyProof_answer KEYS_PATH existsSync readFileSync JSON_parse
           groth16_verify (generated_proof result)
           (generated_publicSignals result) text verificationKey _
           answer Hexists Hread Hparse Hback Hanswer).
Qed.

Lemma schema_has_no_a (fields : list (string * value)) :
  forallb (fun field => existsb (String.eqb (fst field)) route_proof_keys)
          fields = true ->
  assoc "a" fields = VUndefined.
Proof.
  induction fields as [|[k v] fields IH]; [reflexivity|].
  cbn [forallb fst]. intros H. apply andb_true_iff in H as [Hk Hrest].
  cbn [assoc]. destruct (String.eqb "a" k) eqn:Ha; [|now apply IH].
  apply String.eqb_eq in Ha. subst k. discriminate Hk.
Qed.

(** X16. The verify route hands [verifyProof] the proof its schema let through,
    which has [pi_a], [pi_b], [pi_c] and no [a]: [formatProofFromSolidity]
    throws on it, and [verifyProof] answers [false] whatever the key file
    holds and whatever snarkjs would say. *)
Theorem route_proof_is_rejected (proof publicSignals : value) :
  route_proof_schema proof = true ->
  (exists e, formatProofFromSolidity proof = Throw e) /\
  validateProofFormat proof = Return (VBool false) /\
  verifyProof KEYS_PATH existsSync readFileSync JSON_parse groth16_verify
    proof publicSignals = Return false.
Proof.
  intros Hschema. destruct proof as [| | | | | |fields]; try discriminate.
  cbn [route_proof_schema] in Hschema.
  apply andb_true_iff in Hschema as [Hkeys _].
  pose proof (schema_has_no_a fields Hkeys) as Ha.
  assert (Hthrows : exists e, formatProofFromSolidity (VObj fields) = Throw e).
  { unfold formatProofFromSolidity. cbn [get]. rewrite Ha. cbn. eauto. }
  split; [exact Hthrows|]. split.
  - unfold validateProofFormat, isArray_at. cbn [and_chain truthy get bind].
    rewrite Ha. reflexivity.
  - destruct Hthrows as [e He].
    unfold verifyProof, verifyProof_try.
    destruct (existsSync _); cbn [negb]; [|reflexivity].
    destruct (readFileSync _) as [text|]; cbn [bind try_catch]; [|reflexivity].
    destruct (JSON_parse text); cbn [bind try_catch]; [|reflexivity].
    now rewrite He.
Qed.

End GenerateVerifyFacts.

(** A generated proof is read back and shown to snarkjs. *)
Lemma generated_proof_reaches_verifier_witness :
  ZKProofService.generateProof Sample.digest32 "circuits" "keys"
    (fun _ => true) Sample.fullProve Sample.honest_input
  = Return Sample.generated /\
  ZKProofService.validateProofFormat
    (ZKProofService.generated_proof Sample.generated) = Return (VBool true) /\
  ZKProofService.verifyProof "keys" (fun _ => true)
    (fun _ => Return "{}") (fun _ => Return (VObj []))
    (fun _ _ _ => Return true)
    (ZKProofService.generated_proof Sample.generated)
    (ZKProofService.generated_publicSignals Sample.generated)
  = Return true.
Proof.
  assert (Hgenerate : ZKProofService.generateProof Sample.digest32 "circuits"
                        "keys" (fun _ => true) Sample.fullProve
                        Sample.honest_input = Return Sample.generated)
    by (vm_compute; reflexivity).
  split; [exact Hgenerate|].
  destruct (generated_proof_reaches_verifier Sample.digest32 "circuits" "keys"
              (fun _ => true) Sample.fullProve (fun _ => Return "{}")
              (fun _ => Return (VObj [])) (fun _ _ _ => Return true)
              Sample.honest_input Sample.generated "{}" (VObj [])
              Hgenerate eq_refl eq_refl eq_refl)
    as (Hvalid & formatted & _ & _ & Hanswer).
  split; [exact Hvalid|].
  exact (Hanswer true eq_refl).
Defined.

(** The sample proof in the form the route lets through is rejected, also
    by a verifier that would accept anything. *)
Lemma route_proof_is_rejected_witness :
  ZKProofService.route_proof_schema Sample.route_proof = true /\
  ZKProofService.verifyProof "keys" (fun _ => true)
    (fun _ => Return "{}") (fun _ => Return (VObj []))
    (fun _ _ _ => Return true) Sample.route_proof (VArr [VStr "1"])
  = Return false.
Proof.
  assert (Hschema : ZKProofService.route_proof_schema Sample.route_proof
                    = true) by reflexivity.
  split; [exact Hschema|].
  exact (proj2 (proj2 (route_proof_is_rejected "keys" (fun _ => true)
                         (fun _ => Return "{}") (fun _ => Return (VObj []))
                         (fun _ _ _ => Return true) Sample.route_proof
                         (VArr [VStr "1"]) Hschema))).
Defined.
